(** * PAI Voice Server setup package: installation state machine

    A shallow embedding of the lifecycle manager under [setup/]: the file
    operations of [lib/utils/file-ops.js], the command runner of
    [lib/utils/exec.js], the path resolver, manifest and metadata store of
    [lib/core/], the LaunchAgent controller of [lib/core/launchagent.js],
    the orchestrators of [lib/commands/] and the CLI entry point
    [install.js].

    The JavaScript code is effectful: it reads and writes the filesystem,
    runs shell commands and throws exceptions.  It is modelled as state
    passing over a [World] in a state-and-exception monad [M].  A string
    holds text as UTF-8 bytes, and what [JSON.parse] returns is a JavaScript
    value of any shape. *)

From Stdlib Require Import ZArith Lia Ascii String.
From stdpp Require Import base option list strings gmap fin_maps.

(** ** Strings as JavaScript uses them *)

(** [s.includes(needle)] *)
Definition includes (needle s : string) : bool :=
  match String.index 0 needle s with Some _ => true | None => false end.

(** [s.startsWith(p)] *)
Definition startsWith (p s : string) : bool := String.prefix p s.

(** The white space and the line terminators of JavaScript ([WhiteSpace]
    and [LineTerminator] of ECMA-262), which [trim] and [parseInt] skip:
    tab, line feed, vertical tab, form feed, carriage return, space, and
    beyond ASCII U+00A0, U+1680, U+2000 to U+200A, U+2028, U+2029, U+202F,
    U+205F, U+3000 and U+FEFF.  A string holds text as UTF-8 bytes, so
    these are sequences of one to three bytes. *)
Definition bytes (l : list N) : string :=
  fold_right (λ n s, String (ascii_of_N n) s) EmptyString l.

Definition white_spaces : list string :=
  bytes <$>
    [ [9]; [10]; [11]; [12]; [13]; [32];
      [194; 160];
      [225; 154; 128];
      [226; 128; 128]; [226; 128; 129]; [226; 128; 130]; [226; 128; 131];
      [226; 128; 132]; [226; 128; 133]; [226; 128; 134]; [226; 128; 135];
      [226; 128; 136]; [226; 128; 137]; [226; 128; 138];
      [226; 128; 168]; [226; 128; 169]; [226; 128; 175];
      [226; 129; 159];
      [227; 128; 128];
      [239; 187; 191] ]%N.

(** [s] without the first of [prefixes] it starts with, if any. *)
Fixpoint strip (prefixes : list string) (s : string) : option string :=
  match prefixes with
  | [] => None
  | p :: rest =>
      if String.prefix p s
      then Some (String.substring (String.length p) (String.length s - String.length p) s)
      else strip rest s
  end.

Fixpoint skip (prefixes : list string) (fuel : nat) (s : string) : string :=
  match fuel with
  | O => s
  | S fuel' =>
      match strip prefixes s with
      | Some s' => skip prefixes fuel' s'
      | None => s
      end
  end.

(** [s.trimStart()], [s.trimEnd()] and [s.trim()] *)
Definition trimStart (s : string) : string := skip white_spaces (String.length s) s.

Definition trimEnd (s : string) : string :=
  String.rev (skip (String.rev <$> white_spaces) (String.length s) (String.rev s)).

Definition trim (s : string) : string := trimEnd (trimStart s).

(** [s.replace(/[:.]/g, '-')] *)
Fixpoint dashed (s : string) : string :=
  match s with
  | String a s' =>
      String (if Ascii.eqb a ":" || Ascii.eqb a "." then "-"%char else a) (dashed s')
  | EmptyString => EmptyString
  end.

(** [path.dirname] on a normalised path: everything before the last slash. *)
Fixpoint beforeLastSlash (s : string) : option string :=
  match s with
  | EmptyString => None
  | String a s' =>
      match beforeLastSlash s' with
      | Some d => Some (String a d)
      | None => if Ascii.eqb a "/" then Some EmptyString else None
      end
  end.

Definition dirname (p : string) : string :=
  match beforeLastSlash p with
  | None => "."
  | Some EmptyString => "/"
  | Some d => d
  end.

(** The directory and its ancestors up to the root, nearest first, as
    [mkdir -p] walks them. *)
Fixpoint ancestors (fuel : nat) (p : string) : list string :=
  match fuel with
  | O => []
  | S fuel' =>
      p :: if bool_decide (p = "/" ∨ p = ".") then [] else ancestors fuel' (dirname p)
  end.

(** [p] is [root] or lies below it. *)
Definition under (root p : string) : bool :=
  bool_decide (p = root) || startsWith (root +:+ "/") p.

(** ** The world the installer runs in *)

(** A regular file: its bytes and its [st_mode] (type and permission bits). *)
Record File := mkFile { f_data : string; f_mode : Z }.

(** What a shell command answers: exit status, its two streams, and how long
    it ran (milliseconds). *)
Record Reply := mkReply {
  exit_ok : bool;
  stdout : string;
  stderr : string;
  took : nat
}.

(** One health probe of the daemon: the answer of [lsof -ti:8888] and of
    [curl -s -f -m 2 http://localhost:8888/health]. *)
Record Probe := mkProbe { lsof : Reply; curl : Reply }.

Variant Level := Warn | Error.

Record World := mkWorld {
  files : gmap string File;         (* regular files by absolute path *)
  dirs : gset string;               (* directories *)
  deny_read : gset string;          (* paths whose reads fail with EACCES *)
  deny_write : gset string;         (* paths whose writes fail with EACCES *)
  loaded : bool;                    (* launchd lists the agent *)
  launchctl_load_reply : Reply;     (* what [launchctl load] answers *)
  launchctl_unload_reply : Reply;   (* what [launchctl unload] answers *)
  daemon : Z → Probe;               (* the daemon's answer to a probe at a time *)
  now : Z;                          (* [Date.now()], milliseconds *)
  journal : list string;            (* the shell commands run so far *)
  console : list (Level * string)   (* [logger.warn] and [logger.error] lines *)
}.

Definition set_files (f : gmap string File) (w : World) : World :=
  mkWorld f (dirs w) (deny_read w) (deny_write w) (loaded w)
    (launchctl_load_reply w) (launchctl_unload_reply w) (daemon w) (now w)
    (journal w) (console w).

Definition set_dirs (d : gset string) (w : World) : World :=
  mkWorld (files w) d (deny_read w) (deny_write w) (loaded w)
    (launchctl_load_reply w) (launchctl_unload_reply w) (daemon w) (now w)
    (journal w) (console w).

Definition set_loaded (b : bool) (w : World) : World :=
  mkWorld (files w) (dirs w) (deny_read w) (deny_write w) b
    (launchctl_load_reply w) (launchctl_unload_reply w) (daemon w) (now w)
    (journal w) (console w).

Definition set_deny_write (d : gset string) (w : World) : World :=
  mkWorld (files w) (dirs w) (deny_read w) d (loaded w)
    (launchctl_load_reply w) (launchctl_unload_reply w) (daemon w) (now w)
    (journal w) (console w).

Definition set_daemon (d : Z → Probe) (w : World) : World :=
  mkWorld (files w) (dirs w) (deny_read w) (deny_write w) (loaded w)
    (launchctl_load_reply w) (launchctl_unload_reply w) d (now w)
    (journal w) (console w).

Definition set_launchctl (onLoad onUnload : Reply) (w : World) : World :=
  mkWorld (files w) (dirs w) (deny_read w) (deny_write w) (loaded w)
    onLoad onUnload (daemon w) (now w) (journal w) (console w).

Definition tick (ms : Z) (w : World) : World :=
  mkWorld (files w) (dirs w) (deny_read w) (deny_write w) (loaded w)
    (launchctl_load_reply w) (launchctl_unload_reply w) (daemon w) (now w + ms)%Z
    (journal w) (console w).

Definition ran (cmd : string) (w : World) : World :=
  mkWorld (files w) (dirs w) (deny_read w) (deny_write w) (loaded w)
    (launchctl_load_reply w) (launchctl_unload_reply w) (daemon w) (now w)
    (journal w ++ [cmd]) (console w).

Definition printed (l : Level) (s : string) (w : World) : World :=
  mkWorld (files w) (dirs w) (deny_read w) (deny_write w) (loaded w)
    (launchctl_load_reply w) (launchctl_unload_reply w) (daemon w) (now w)
    (journal w) (console w ++ [(l, s)]).

(** ** The monad: state passing with exceptions

    A JavaScript call either returns a value or throws; either way the
    effects it had so far stay. *)

Inductive Res (A : Type) : Type :=
  | Ok (a : A)
  | Throw (message : string).
Arguments Ok {A} a.
Arguments Throw {A} message.

Definition M (A : Type) : Type := World → Res A * World.

Definition ret {A} (a : A) : M A := λ w, (Ok a, w).

Definition bind {A B} (m : M A) (k : A → M B) : M B := λ w,
  match m w with
  | (Ok a, w') => k a w'
  | (Throw e, w') => (Throw e, w')
  end.

(** [throw new Error(message)] *)
Definition throw {A} (message : string) : M A := λ w, (Throw message, w).

Declare Scope M_scope.
Delimit Scope M_scope with M.
Bind Scope M_scope with M.
Notation "'let*' x ':=' m 'in' k" := (bind m (λ x, k))
  (at level 10, x name, m at level 100, k at level 200,
   format "'[v' 'let*'  x  ':='  m  'in' '/' k ']'") : M_scope.
Notation "m ;; k" := (bind m (λ _, k))
  (at level 100, k at level 200, right associativity,
   format "'[v' m ;; '/' k ']'") : M_scope.
Open Scope M_scope.

(** [try { body } catch (error) { handler(error.message) }] *)
Definition try_catch {A} (body : M A) (handler : string → M A) : M A := λ w,
  match body w with
  | (Ok a, w') => (Ok a, w')
  | (Throw e, w') => handler e w'
  end.

(** Read the world without changing it. *)
Definition gets {A} (f : World → A) : M A := λ w, (Ok (f w), w).

(** Change the world. *)
Definition modify (f : World → World) : M unit := λ w, (Ok tt, f w).

Definition warn (s : string) : M unit := modify (printed Warn s).
Definition error (s : string) : M unit := modify (printed Error s).

(** ** Node's [fs] module *)

Definition S_IFREG_644 : Z := 33188.   (* 0o100644: a new file under umask 022 *)
Definition S_IFDIR_755 : Z := 16877.   (* 0o040755 *)
Definition PERM_MASK : Z := 4095.      (* 0o7777 *)

Definition existsSync (p : string) (w : World) : bool :=
  bool_decide (is_Some (files w !! p) ∨ p ∈ dirs w).
Arguments existsSync : simpl never.

Definition enoent (call p : string) : string :=
  "ENOENT: no such file or directory, " +:+ call +:+ " '" +:+ p +:+ "'".
Definition eacces (call p : string) : string :=
  "EACCES: permission denied, " +:+ call +:+ " '" +:+ p +:+ "'".
Definition eisdir (call p : string) : string :=
  "EISDIR: illegal operation on a directory, " +:+ call +:+ " '" +:+ p +:+ "'".
Definition eexist (call p : string) : string :=
  "EEXIST: file already exists, " +:+ call +:+ " '" +:+ p +:+ "'".
Definition enotdir (call p : string) : string :=
  "ENOTDIR: not a directory, " +:+ call +:+ " '" +:+ p +:+ "'".

(** On the way to [p] there is a regular file where a directory should
    be. *)
Definition blocked (p : string) (w : World) : bool :=
  bool_decide (Exists (λ a, is_Some (files w !! a))
                 (ancestors (S (String.length p)) (dirname p))).

Definition readFileSync (p : string) : M string := λ w,
  match files w !! p with
  | Some f =>
      if bool_decide (p ∈ deny_read w) then (Throw (eacces "open" p), w)
      else (Ok (f_data f), w)
  | None =>
      if bool_decide (p ∈ dirs w) then (Throw (eisdir "read" p), w)
      else (Throw (enoent "open" p), w)
  end.

(** Store [data] at [p]: an existing file keeps its mode, a new one gets
    [mode] and needs the directory it is created in. *)
Definition store (call p data : string) (mode : Z) : M unit := λ w,
  if bool_decide (p ∈ deny_write w) then (Throw (eacces call p), w)
  else match files w !! p with
       | Some f => (Ok tt, set_files (<[p := mkFile data (f_mode f)]> (files w)) w)
       | None =>
           if bool_decide (p ∈ dirs w) then (Throw (eisdir call p), w)
           else if blocked p w then (Throw (enotdir call p), w)
           else if bool_decide (dirname p ∈ dirs w)
           then (Ok tt, set_files (<[p := mkFile data mode]> (files w)) w)
           else (Throw (enoent call p), w)
       end.

Definition writeFileSync (p data : string) : M unit :=
  store "open" p data S_IFREG_644.

Definition copyFileSync (src dst : string) : M unit := λ w,
  match files w !! src with
  | Some f =>
      if bool_decide (src ∈ deny_read w) then (Throw (eacces "copyfile" src), w)
      else store "copyfile" dst (f_data f) (f_mode f) w
  | None =>
      if bool_decide (src ∈ dirs w) then (Throw (eisdir "copyfile" src), w)
      else (Throw (enoent "copyfile" src), w)
  end.

(** [fs.statSync(p).mode] *)
Definition statSync (p : string) : M Z := λ w,
  match files w !! p with
  | Some f => (Ok (f_mode f), w)
  | None =>
      if bool_decide (p ∈ dirs w) then (Ok S_IFDIR_755, w)
      else (Throw (enoent "stat" p), w)
  end.

(** [chmod] replaces the permission bits and keeps the file type bits. *)
Definition chmod_bits (old mode : Z) : Z :=
  Z.lor (Z.land old (Z.lnot PERM_MASK)) (Z.land mode PERM_MASK).

Definition chmodSync (p : string) (mode : Z) : M unit := λ w,
  match files w !! p with
  | Some f =>
      if bool_decide (p ∈ deny_write w) then (Throw (eacces "chmod" p), w)
      else (Ok tt, set_files (<[p := mkFile (f_data f) (chmod_bits (f_mode f) mode)]> (files w)) w)
  | None =>
      if bool_decide (p ∈ dirs w) then (Ok tt, w)
      else (Throw (enoent "chmod" p), w)
  end.

(** [fs.mkdirSync(p, { recursive: true })] *)
Definition mkdirSync (p : string) : M unit := λ w,
  if bool_decide (p ∈ deny_write w) then (Throw (eacces "mkdir" p), w)
  else if bool_decide (is_Some (files w !! p)) then (Throw (eexist "mkdir" p), w)
  else if blocked p w then (Throw (enotdir "mkdir" p), w)
  else (Ok tt, set_dirs (dirs w ∪ list_to_set (ancestors (S (String.length p)) p)) w).

Definition unlinkSync (p : string) : M unit := λ w,
  match files w !! p with
  | Some _ =>
      if bool_decide (p ∈ deny_write w) then (Throw (eacces "unlink" p), w)
      else (Ok tt, set_files (delete p (files w)) w)
  | None => (Throw (enoent "unlink" p), w)
  end.

(** [fs.rmSync(p, { recursive: true, force: true })] *)
Definition rmSync (p : string) : M unit := λ w,
  if bool_decide (p ∈ deny_write w) then (Throw (eacces "rm" p), w)
  else (Ok tt,
        set_dirs (filter (λ q, ¬ under p q) (dirs w))
          (set_files (filter (λ kv, ¬ under p kv.1) (files w)) w)).

(** The path [q] below [src], moved below [dst]. *)
Definition rebase (src dst q : string) : string :=
  dst +:+ String.substring (String.length src) (String.length q - String.length src) q.

(** [fs.cpSync(src, dst, { recursive: true })] *)
Definition cpSync (src dst : string) : M unit := λ w,
  if bool_decide (dst ∈ deny_write w) then (Throw (eacces "cp" dst), w)
  else if blocked dst w then (Throw (enotdir "cp" dst), w)
  else
    let copied_files :=
      map_fold (λ q f acc, if under src q then <[rebase src dst q := f]> acc else acc)
               (files w) (files w) in
    let copied_dirs :=
      set_fold (λ q acc, if under src q then {[rebase src dst q]} ∪ acc else acc)
               (dirs w) (dirs w) in
    (Ok tt, set_dirs copied_dirs (set_files copied_files w)).

(** ** Shell commands ([child_process.execSync])

    The installer runs a closed set of commands.  [launchctl load] and
    [launchctl unload] answer what the world prescribes and, when they
    exit with status 0, change the supervisor's table; the probes answer
    what the daemon does at that moment; everything takes time. *)

Variant Shell :=
  | LaunchctlLoad (plist : string)
  | LaunchctlUnload (plist : string)
  | LaunchctlListGrep (name : string)
  | LsofPort
  | CurlHealth.

(** The double quote of the shell. *)
Definition dq : string := String (ascii_of_nat 34) EmptyString.

Definition render (c : Shell) : string :=
  match c with
  | LaunchctlLoad plist => "launchctl load " +:+ dq +:+ plist +:+ dq
  | LaunchctlUnload plist => "launchctl unload " +:+ dq +:+ plist +:+ dq
  | LaunchctlListGrep name => "launchctl list | grep " +:+ dq +:+ name +:+ dq
  | LsofPort => "lsof -ti:8888"
  | CurlHealth => "curl -s -f -m 2 http://localhost:8888/health"
  end.

(** What the command answers in this world. *)
Definition answer (c : Shell) (w : World) : Reply :=
  match c with
  | LaunchctlLoad _ => launchctl_load_reply w
  | LaunchctlUnload _ => launchctl_unload_reply w
  | LaunchctlListGrep name =>
      if loaded w then mkReply true ("-" +:+ String "009" ("0" +:+ String "009" name)) "" 0
      else mkReply false "" "" 0
  | LsofPort => lsof (daemon w (now w))
  | CurlHealth => curl (daemon w (now w))
  end.

(** What the command does to the supervisor's table. *)
Definition effect (c : Shell) (r : Reply) (w : World) : World :=
  match c with
  | LaunchctlLoad _ => if exit_ok r then set_loaded true w else w
  | LaunchctlUnload _ => if exit_ok r then set_loaded false w else w
  | _ => w
  end.

(** The message of the error [execSync] throws on a non-zero exit. *)
Definition command_failed (c : Shell) (r : Reply) : string :=
  "Command failed: " +:+ render c +:+ String "010" (stderr r).

(** [execSync(command, ...)]: the command's output, or a throw. *)
Definition execSync (c : Shell) : M string := λ w,
  let r := answer c w in
  let w' := tick (Z.of_nat (took r)) (effect c r (ran (render c) w)) in
  if exit_ok r then (Ok (stdout r), w') else (Throw (command_failed c r), w').

(** *** [lib/utils/exec.js] *)

Record ExecResult := mkExecResult {
  ex_success : bool;
  ex_stdout : string;
  ex_stderr : string;
  ex_error : option string
}.

(** [exec(command, { dryRun, silent, ignoreError })].  The two streams of a
    failed command are not told apart from its message here. *)
Definition exec (c : Shell) (dryRun silent ignoreError : bool) : M ExecResult :=
  if dryRun then ret (mkExecResult true "" "" None)
  else
    try_catch
      (let* out := execSync c in
       (* with [stdio: 'inherit'] the output goes to the terminal *)
       ret (mkExecResult true (if silent then out else "") "" None))
      (λ e,
         if negb ignoreError then
           error ("Command failed: " +:+ render c);; throw e
         else ret (mkExecResult false "" e (Some e))).

(** [execOutput(command, { dryRun, ignoreError })] *)
Definition execOutput (c : Shell) (dryRun ignoreError : bool) : M string :=
  if dryRun then ret ""
  else
    try_catch
      (let* out := execSync c in ret (trim out))
      (λ e, if negb ignoreError then throw e else ret "").

(** [sleep(ms)]: the timer fires after [ms] milliseconds. *)
Definition sleep (ms : Z) : M unit := modify (tick ms).

(** ** JavaScript values

    The installation record is what [JSON.parse] makes of the text of
    [.metadata.json]: any JSON value, not only an object of the shape the
    installer writes.  The code tests it for truth, reads properties of
    it, assigns to properties of it and prints parts of it, and JavaScript
    defines each of these on every value.  The modules are not in strict
    mode.

    An object is the list of its own properties in insertion order.  An
    array has its items and, once the code has assigned to a name on it,
    properties as well, which [JSON.stringify] does not write. *)

#[warnings="-register-all"]
Inductive Value :=
  | JUndefined
  | JNull
  | JBool (b : bool)
  | JNumber (text : string)         (* a number, by the text [String(n)] gives *)
  | JString (s : string)
  | JArray (items : list Value) (props : list (string * Value))
  | JObject (props : list (string * Value)).

(** The own property [key] among [props]. *)
Fixpoint own (key : string) (props : list (string * Value)) : option Value :=
  match props with
  | [] => None
  | (k, v) :: rest => if String.eqb k key then Some v else own key rest
  end.

(** [props] with [key] set to [x]: in its place where the key exists, at
    the end where it is new. *)
Fixpoint put (key : string) (x : Value) (props : list (string * Value))
  : list (string * Value) :=
  match props with
  | [] => [(key, x)]
  | (k, v) :: rest =>
      if String.eqb k key then (k, x) :: rest else (k, v) :: put key x rest
  end.

(** [v === undefined || v === null] *)
Definition nullish (v : Value) : bool :=
  match v with
  | JUndefined | JNull => true
  | _ => false
  end.

Definition is_undefined (v : Value) : bool :=
  match v with JUndefined => true | _ => false end.

(** [!!v] *)
Definition truthy (v : Value) : bool :=
  match v with
  | JUndefined | JNull => false
  | JBool b => b
  | JNumber text => negb (String.eqb text "0" || String.eqb text "NaN")
  | JString s => negb (String.eqb s "")
  | JArray _ _ | JObject _ => true
  end.

(** What [v[key]] gives when [v] is neither [undefined] nor [null]: the
    own property of an object or array, [undefined] where there is none
    and on a boolean, number or string.  The keys the installer reads
    ([version], [installDate], [lastUpdate], [installedComponents],
    [hash] and the names of the components) are no array index and no name
    that the prototypes of objects, arrays, strings, numbers or booleans
    define, so nothing is inherited. *)
Definition prop (key : string) (v : Value) : Value :=
  match v with
  | JObject props | JArray _ props => default JUndefined (own key props)
  | _ => JUndefined
  end.

Definition show_nullish (v : Value) : string :=
  match v with JNull => "null" | _ => "undefined" end.

(** [v[key]]: a TypeError on [undefined] and [null]. *)
Definition get (v : Value) (key : string) : M Value :=
  if nullish v
  then throw ("Cannot read properties of " +:+ show_nullish v
              +:+ " (reading '" +:+ key +:+ "')")
  else ret (prop key v).

(** [v] after its property [key] has been given the value [x]: an object
    or array has the property then; a boolean, number or string is what it
    was. *)
Definition with_prop (key : string) (x : Value) (v : Value) : Value :=
  match v with
  | JObject props => JObject (put key x props)
  | JArray items props => JArray items (put key x props)
  | _ => v
  end.

(** [v[key] = x] outside strict mode: a TypeError on [undefined] and
    [null], nothing at all on a boolean, number or string.  The result is
    [v] after the assignment. *)
Definition set (v : Value) (key : string) (x : Value) : M Value :=
  if nullish v
  then throw ("Cannot set properties of " +:+ show_nullish v
              +:+ " (setting '" +:+ key +:+ "')")
  else ret (with_prop key x v).

(** [a === b] where one side is [undefined], [null], a boolean, a number
    or a string, as at every comparison the installer makes.  (Two objects
    are equal only when they are one object.) *)
Definition strict_eq (a b : Value) : bool :=
  match a, b with
  | JUndefined, JUndefined | JNull, JNull => true
  | JBool x, JBool y => Bool.eqb x y
  | JNumber x, JNumber y => String.eqb x y && negb (String.eqb x "NaN")
  | JString x, JString y => String.eqb x y
  | _, _ => false
  end.

(** Whether the conversion of [v] to a string returns, which a template
    literal and [new Date(v)] apply.  It throws a TypeError for an object
    with a property [toString] of its own: a value that came out of
    [JSON.parse] is no function, so the property hides the method of the
    prototype, and [valueOf] returns the object itself.  An array joins
    the conversions of its items, where [null] counts as the empty
    string. *)
Fixpoint converts (v : Value) : bool :=
  match v with
  | JObject props => negb (bool_decide (is_Some (own "toString" props)))
  | JArray items props =>
      if bool_decide (is_Some (own "toString" props)) then false
      else if bool_decide (is_Some (own "join" props)) then true
      else forallb converts items
  | _ => true
  end.

(** [`${v}`] *)
Definition interpolate (v : Value) : M unit :=
  if converts v then ret tt else throw "Cannot convert object to primitive value".

(** A digest as [calculateFileHash] returns it: the string, or [null]. *)
Definition of_hash (h : option string) : Value :=
  match h with Some s => JString s | None => JNull end.

(** ** A component of the manifest *)

Variant ComponentType := required | optional.

#[global] Instance ComponentType_eq_dec : EqDecision ComponentType.
Proof. solve_decision. Defined.

Record Component := mkComponent {
  name : string;
  type : ComponentType;
  source : string;
  target : string;
  description : string;
  preserveOnUpdate : bool
}.

(** ** Command-line options ([parseArgs] of [install.js]) *)

Record Options := mkOptions {
  dryRun : bool;
  yes : bool;
  verbose : bool;
  force : bool;
  preserveLogs : bool;
  backup : bool
}.

(** ** What [update] returns *)

Variant UpdateResult :=
  (* [{ success: false, reason: 'not_installed' }] *)
  | update_not_installed
  (* [{ success: true, alreadyUpToDate: true }] *)
  | update_alreadyUpToDate
  (* [{ success: false, reason: 'update_failed', component, error }] *)
  | update_failed (component error : string)
  (* [{ success: true, fromVersion, toVersion, updatedComponents,
        preservedComponents, dryRun }] *)
  | update_done (fromVersion : Value) (toVersion : string)
      (updatedComponents preservedComponents : list string) (dry : bool).

Definition update_success (r : UpdateResult) : bool :=
  match r with
  | update_not_installed | update_failed _ _ => false
  | update_alreadyUpToDate | update_done _ _ _ _ _ => true
  end.

(** ** Executable stand-ins for the environment

    The model is parametric in SHA-256, the JSON codec and the date
    formatter.  To run it on sample worlds these simple functions take
    their place: a digest that is the content itself (so it has no
    collisions), a date that is the decimal millisecond count, and a codec
    that writes a value in a prefix code of its own. *)

Definition sample_sha256 (content : string) : string := "sha256:" +:+ content.

Fixpoint digits (fuel : nat) (n : N) (acc : string) : string :=
  match fuel with
  | O => acc
  | S fuel' =>
      let d := String (ascii_of_N (48 + n mod 10)) acc in
      if (n <? 10)%N then d else digits fuel' (n / 10)%N d
  end.

Definition sample_toISOString (ms : Z) : string :=
  "T+" +:+ digits 30 (Z.to_N ms) "" +:+ ".ms".

(** A field: every character escaped by a [c], closed by a [;]. *)
Fixpoint field (s : string) : string :=
  match s with
  | EmptyString => ";"
  | String a s' => String "c" (String a (field s'))
  end.

Fixpoint unfield (s : string) : option (string * string) :=
  match s with
  | String ";" rest => Some (EmptyString, rest)
  | String "c" (String a rest) =>
      match unfield rest with
      | Some (f, rest') => Some (String a f, rest')
      | None => None
      end
  | _ => None
  end.

(** The sample codec writes [null] as [n], the booleans as [t] and [f], a
    number as [#] and a string as [$] before a field, an array between
    brackets and an object between braces, each property as a field for
    its key before its value.  As [JSON.stringify] does, it leaves out the
    properties that hold [undefined] and the properties of an array, and
    writes [null] for an item that is [undefined]. *)
Fixpoint sample_stringify (v : Value) : string :=
  match v with
  | JUndefined | JNull => "n"
  | JBool true => "t"
  | JBool false => "f"
  | JNumber text => "#" +:+ field text
  | JString s => "$" +:+ field s
  | JArray items _ =>
      "[" +:+ fold_right (λ x acc, sample_stringify x +:+ acc) "]" items
  | JObject props =>
      "{" +:+ fold_right
                (λ kv acc,
                   if is_undefined kv.2 then acc
                   else field kv.1 +:+ sample_stringify kv.2 +:+ acc) "}" props
  end.

Fixpoint sample_value (fuel : nat) (s : string) : option (Value * string) :=
  match fuel with
  | O => None
  | S fuel' =>
      match s with
      | String "n" rest => Some (JNull, rest)
      | String "t" rest => Some (JBool true, rest)
      | String "f" rest => Some (JBool false, rest)
      | String "#" rest =>
          match unfield rest with
          | Some (text, rest') => Some (JNumber text, rest')
          | None => None
          end
      | String "$" rest =>
          match unfield rest with
          | Some (text, rest') => Some (JString text, rest')
          | None => None
          end
      | String "[" rest =>
          match sample_items fuel' rest with
          | Some (items, rest') => Some (JArray items [], rest')
          | None => None
          end
      | String "{" rest =>
          match sample_props fuel' rest with
          | Some (props, rest') => Some (JObject props, rest')
          | None => None
          end
      | _ => None
      end
  end
with sample_items (fuel : nat) (s : string) : option (list Value * string) :=
  match fuel with
  | O => None
  | S fuel' =>
      match s with
      | String "]" rest => Some ([], rest)
      | _ =>
          match sample_value fuel' s with
          | Some (x, rest) =>
              match sample_items fuel' rest with
              | Some (items, rest') => Some (x :: items, rest')
              | None => None
              end
          | None => None
          end
      end
  end
with sample_props (fuel : nat) (s : string) : option (list (string * Value) * string) :=
  match fuel with
  | O => None
  | S fuel' =>
      match s with
      | String "}" rest => Some ([], rest)
      | _ =>
          match unfield s with
          | Some (k, rest) =>
              match sample_value fuel' rest with
              | Some (x, rest') =>
                  match sample_props fuel' rest' with
                  | Some (props, rest'') => Some ((k, x) :: props, rest'')
                  | None => None
                  end
              | None => None
              end
          | None => None
          end
      end
  end.

Definition sample_parse (s : string) : option Value :=
  match sample_value (S (String.length s)) s with
  | Some (v, EmptyString) => Some v
  | _ => None
  end.

(** ** Sample worlds

    An installation of version 1.0.0 under [/Users/pai], with the
    package of version 1.0.1 unpacked under [/opt/pai/setup]. *)

Definition sample_home : string := "/Users/pai".
Definition sample_package_dir : string := "/opt/pai/setup".
Definition sample_version : string := "1.0.1".

Definition sample_server_path : string := "/Users/pai/.claude/pai-voice-server/server.ts".
Definition sample_voices_path : string := "/Users/pai/.claude/pai-voice-server/voices.json".
Definition sample_metadata_path : string :=
  "/Users/pai/.claude/pai-voice-server/.metadata.json".
Definition sample_plist_path : string :=
  "/Users/pai/Library/LaunchAgents/com.pai.voice-server.plist".

(** Nothing listens on the port. *)
Definition silent_probe : Probe :=
  mkProbe (mkReply false "" "" 0) (mkReply false "" "" 0).

(** The daemon listens and answers the health request. *)
Definition healthy_probe : Probe :=
  mkProbe (mkReply true "4242" "" 0) (mkReply true "{status:healthy}" "" 0).

(** The daemon listens but the health request runs into curl's two-second
    limit and fails. *)
Definition hanging_probe : Probe :=
  mkProbe (mkReply true "4242" "" 0) (mkReply false "" "" 2000).

(** The record written when version 1.0.0 was installed. *)
Definition sample_entry (content : string) : Value :=
  JObject [("version", JString "1.0.0"); ("hash", JString (sample_sha256 content));
           ("modified", JBool false); ("installDate", JString "T+0.ms")].

Definition sample_record_of (installedComponents : Value) : Value :=
  JObject [("version", JString "1.0.0"); ("installDate", JString "T+0.ms");
           ("installedComponents", installedComponents);
           ("service", JObject [("name", JString "com.pai.voice-server");
                                ("status", JString "installed")])].

Definition sample_record : Value :=
  sample_record_of
    (JObject [("server", sample_entry "server v1"); ("voices", sample_entry "voices v1")]).

(** The installation with the two component files as given, the daemon
    stopped. *)
Definition sample_world (server_ts voices_json : string) : World :=
  mkWorld
    (<[sample_server_path := mkFile server_ts 33188]>
     (<[sample_voices_path := mkFile voices_json 33188]>
      (<[sample_metadata_path := mkFile (sample_stringify sample_record) 33188]>
       (<[sample_plist_path := mkFile "<plist/>" 33188]>
        (<["/opt/pai/setup/dist/server.ts" := mkFile "server v2" 33261]>
         (<["/opt/pai/setup/dist/voices.json" := mkFile "voices v2" 33188]> ∅))))))
    {[ "/Users/pai"; "/Users/pai/.claude"; "/Users/pai/.claude/pai-voice-server";
       "/Users/pai/Library"; "/Users/pai/Library/LaunchAgents";
       "/opt/pai/setup"; "/opt/pai/setup/dist" ]}
    ∅ ∅ false
    (mkReply true "" "" 0) (mkReply true "" "" 0)
    (λ _, silent_probe) 1000 [] [].

(** The same installation with a daemon that is down, one that hangs, and
    one that is up. *)
Definition sample_down_world : World := sample_world "server v1" "voices v1".

Definition sample_hanging_world : World :=
  set_daemon (λ _, hanging_probe) (sample_world "server v1" "voices v1").

Definition sample_up_world : World :=
  set_daemon (λ _, healthy_probe) (sample_world "server v1" "voices v1").

(** The installation after the user edited the voice configuration. *)
Definition sample_customized_world : World :=
  sample_world "server v1" "voices v1, edited".

(** The installation after the user patched the server, on a disk where
    the backup of the server cannot be written. *)
Definition sample_backup_path : string :=
  "/Users/pai/.claude/pai-voice-server/server.ts.backup-T+1000-ms".

Definition sample_no_backup_world : World :=
  set_deny_write {[ sample_backup_path ]} (sample_world "server v1, patched" "voices v1").

(** The same installation under a supervisor that refuses both requests. *)
Definition sample_refusing_world : World :=
  set_launchctl
    (mkReply false "" "Load failed: 5: Input/output error" 0)
    (mkReply false "" "Unload failed: 5: Input/output error" 0)
    (sample_world "server v1" "voices v1").

(** ** More of JavaScript's strings and numbers *)

(** [s.split(sep)] for a separator of one character. *)
Fixpoint split (sep : ascii) (s : string) : list string :=
  match s with
  | EmptyString => [EmptyString]
  | String a s' =>
      if Ascii.eqb a sep then EmptyString :: split sep s'
      else match split sep s' with
           | part :: parts => String a part :: parts
           | [] => [String a EmptyString]
           end
  end.

(** [s.slice(n)], where the first [n] characters of [s] are ASCII: one
    byte each. *)
Definition slice (n : nat) (s : string) : string :=
  String.substring n (String.length s - n) s.

(** [String(n)] for a natural number. *)
Definition decimal (n : N) : string := digits (S (N.size_nat n)) n "".

Definition digit_of (a : ascii) : option N :=
  let n := N_of_ascii a in
  if (48 <=? n)%N && (n <=? 57)%N then Some (n - 48)%N else None.

Fixpoint leading_number (s : string) (acc : option N) : option N :=
  match s with
  | String a s' =>
      match digit_of a with
      | Some d => leading_number s' (Some (10 * default 0 acc + d)%N)
      | None => acc
      end
  | EmptyString => acc
  end.

Definition hex_digit_of (a : ascii) : option N :=
  let n := N_of_ascii a in
  if (48 <=? n)%N && (n <=? 57)%N then Some (n - 48)%N
  else if (65 <=? n)%N && (n <=? 70)%N then Some (n - 55)%N
  else if (97 <=? n)%N && (n <=? 102)%N then Some (n - 87)%N
  else None.

Fixpoint leading_hex (s : string) (acc : option N) : option N :=
  match s with
  | String a s' =>
      match hex_digit_of a with
      | Some d => leading_hex s' (Some (16 * default 0 acc + d)%N)
      | None => acc
      end
  | EmptyString => acc
  end.

(** The digits [parseInt] reads after the sign: hexadecimal after [0x] or
    [0X], decimal otherwise. *)
Definition unsigned (s : string) : option N :=
  match s with
  | String "0" (String "x" s') | String "0" (String "X" s') => leading_hex s' None
  | _ => leading_number s None
  end.

(** [parseInt(s)] without a radix: white space is skipped, a sign is read,
    then the number the rest starts with; [None] for [NaN]. *)
Definition parseInt (s : string) : option Z :=
  match trimStart s with
  | String "-" s' => Z.opp <$> (Z.of_N <$> unsigned s')
  | String "+" s' => Z.of_N <$> unsigned s'
  | s' => Z.of_N <$> unsigned s'
  end.

(** The byte [a] begins white space or a line terminator. *)
Definition begins_white_space (a : ascii) : bool :=
  existsb (λ ws, match ws with String b _ => Ascii.eqb a b | EmptyString => false end)
    white_spaces.

(** [a < b] on numbers: false when either is [NaN]. *)
Definition js_lt (a b : option Z) : bool :=
  match a, b with
  | Some x, Some y => (x <? y)%Z
  | _, _ => false
  end.

(** ** The other commands of the host

    Besides [launchctl] and the probes the installer runs [which],
    [bun --version], [ps] and [tail].  What they answer does not depend on
    what the installer does; it is a parameter of the model. *)

Variant Tool :=
  | Which (command : string)
  | BunVersion
  | PsComm (pid : string)
  | Tail (lines : N) (path : string).

Definition render_tool (t : Tool) : string :=
  match t with
  | Which command => "which " +:+ command
  | BunVersion => "bun --version"
  | PsComm pid => "ps -p " +:+ pid +:+ " -o comm="
  | Tail lines path => "tail -n " +:+ decimal lines +:+ " " +:+ dq +:+ path +:+ dq
  end.

(** The machine the installer runs on: [os.platform()], [process.version],
    and what a command of its tools answers, by its command line. *)
Record Host := mkHost {
  platform : string;
  process_version : string;
  tools : string → Reply
}.

(** A Mac with Node 20, Bun and launchctl installed. *)
Definition sample_tools (command : string) : Reply :=
  if bool_decide (command = "which bun") then mkReply true "/Users/pai/.bun/bin/bun" "" 0
  else if bool_decide (command = "which launchctl") then mkReply true "/bin/launchctl" "" 0
  else if bool_decide (command = "bun --version") then mkReply true "1.1.0" "" 0
  else mkReply false "" "" 0.

Definition sample_host : Host := mkHost "darwin" "v20.11.0" sample_tools.

(** A Mac on which nothing is installed yet: the package is unpacked, the
    home directory has no [.claude] directory. *)
Definition sample_fresh_world : World :=
  mkWorld
    (<["/opt/pai/setup/dist/server.ts" := mkFile "server v2" 33261]>
     (<["/opt/pai/setup/dist/voices.json" := mkFile "voices v2" 33188]> ∅))
    {[ "/"; "/Users"; "/Users/pai"; "/Users/pai/Library";
       "/opt"; "/opt/pai"; "/opt/pai/setup"; "/opt/pai/setup/dist" ]}
    ∅ ∅ false
    (mkReply true "" "" 0) (mkReply true "" "" 0)
    (λ _, silent_probe) 1000 [] [].

(** The installation of [sample_down_world] with a record that is not
    JSON. *)
Definition sample_broken_world : World :=
  set_files (<[sample_metadata_path := mkFile "not json" 33188]> (files sample_down_world))
    sample_down_world.

(** The same installation with the record [{}], and with a record in
    which the entry of the server is the number 5. *)
Definition sample_empty_record_world : World :=
  set_files
    (<[sample_metadata_path := mkFile (sample_stringify (JObject [])) 33188]>
       (files sample_down_world))
    sample_down_world.





(** The same installation after the plist of the LaunchAgent was deleted. *)
Definition sample_no_plist_world : World :=
  set_files (delete sample_plist_path (files sample_down_world)) sample_down_world.

(** A host whose Node reports a version without a number. *)
Definition sample_nightly_host : Host := mkHost "darwin" "vnext" sample_tools.

Section Installer.

(** [crypto.createHash('sha256').update(content).digest('hex')] *)
Variable sha256 : string → string.
(** [new Date(ms).toISOString()] *)
Variable toISOString : Z → string.
(** [JSON.stringify(data, null, 2)], and [JSON.parse], which gives [None]
    where it throws a SyntaxError. *)
Variable JSON_stringify : Value → string.
Variable JSON_parse : string → option Value.
(** [os.homedir()], the directory of the package ([setup/]) and the
    [version] of its [package.json]. *)
Variable homedir : string.
Variable package_dir : string.
Variable package_version : string.

(** *** [lib/utils/file-ops.js] *)

Definition calculateFileHash (filePath : string) : M (option string) :=
  try_catch
    (let* content := readFileSync filePath in ret (Some (sha256 content)))
    (λ _, ret None).

Definition isFileModified (filePath : string) (originalHash : option string) : M bool :=
  let* e := gets (existsSync filePath) in
  if negb e then ret false
  else
    let* currentHash := calculateFileHash filePath in
    ret (negb (bool_decide (currentHash = originalHash))).

Definition ensureDirectoryExists (dirPath : string) (dryRun : bool) : M bool :=
  let* e := gets (existsSync dirPath) in
  if e then ret false
  else if dryRun then ret true
  else
    try_catch
      (mkdirSync dirPath;; ret true)
      (λ e, throw ("Failed to create directory " +:+ dirPath +:+ ": " +:+ e)).

Definition copyFile (source target : string) (dryRun overwrite : bool) : M bool :=
  if dryRun then ret true
  else
    let* src := gets (existsSync source) in
    if negb src then throw ("Source file not found: " +:+ source)
    else
      let* tgt := gets (existsSync target) in
      if tgt && negb overwrite then ret false
      else
        ensureDirectoryExists (dirname target) dryRun;;
        try_catch
          (copyFileSync source target;;
           let* mode := statSync source in
           chmodSync target mode;;
           ret true)
          (λ e, throw ("Failed to copy " +:+ source +:+ " to " +:+ target +:+ ": " +:+ e)).

Definition removeFile (filePath : string) (dryRun : bool) : M bool :=
  let* e := gets (existsSync filePath) in
  if negb e then ret false
  else if dryRun then ret true
  else
    try_catch
      (unlinkSync filePath;; ret true)
      (λ e, throw ("Failed to remove " +:+ filePath +:+ ": " +:+ e)).

Definition removeDirectory (dirPath : string) (dryRun : bool) : M bool :=
  let* e := gets (existsSync dirPath) in
  if negb e then ret false
  else if dryRun then ret true
  else
    try_catch
      (rmSync dirPath;; ret true)
      (λ e, throw ("Failed to remove directory " +:+ dirPath +:+ ": " +:+ e)).

Definition backupFile (filePath : string) (dryRun : bool) : M (option string) :=
  let* e := gets (existsSync filePath) in
  if negb e then ret None
  else
    let* timestamp := gets (λ w, dashed (toISOString (now w))) in
    let backupPath := filePath +:+ ".backup-" +:+ timestamp in
    if dryRun then ret (Some backupPath)
    else
      try_catch
        (copyFileSync filePath backupPath;; ret (Some backupPath))
        (λ e, warn ("Failed to backup " +:+ filePath +:+ ": " +:+ e);; ret None).

Definition readJSON (filePath : string) : M Value :=
  try_catch
    (let* content := readFileSync filePath in
     match JSON_parse content with
     | Some data => ret data
     | None => throw "Unexpected token in JSON"
     end)
    (λ e, throw ("Failed to read JSON from " +:+ filePath +:+ ": " +:+ e)).

Definition writeJSON (filePath : string) (data : Value) (dryRun : bool) : M unit :=
  if dryRun then ret tt
  else
    try_catch
      (writeFileSync filePath (JSON_stringify data))
      (λ e, throw ("Failed to write JSON to " +:+ filePath +:+ ": " +:+ e)).

(** [path.join(a, b)] on normalised segments. *)
Definition join (a b : string) : string := a +:+ "/" +:+ b.

Definition expandHome (filePath : string) : string :=
  if startsWith "~/" filePath || bool_decide (filePath = "~")
  then join homedir (String.substring 2 (String.length filePath - 2) filePath)
  else filePath.

(** *** [lib/core/paths.js] *)

Definition resolveSourcePath (relativePath : string) : M string :=
  (* the bundled copy first ([setup/dist/]) *)
  let packagePath := join (join package_dir "dist") relativePath in
  let* bundled := gets (existsSync packagePath) in
  if bundled then ret packagePath
  else
    (* then the development repository, one level up *)
    let devPath := join (dirname package_dir) relativePath in
    let* dev := gets (existsSync devPath) in
    if dev then ret devPath
    else throw ("Source file not found: " +:+ relativePath).

Definition getInstallBasePath : string := expandHome "~/.claude".
Definition getInstallPath : string := join getInstallBasePath "pai-voice-server".
Definition getLaunchAgentPath : string :=
  expandHome "~/Library/LaunchAgents/com.pai.voice-server.plist".
Definition getLogPath : string := expandHome "~/Library/Logs/pai-voice-server.log".
Definition getMetadataPath : string := join getInstallPath ".metadata.json".
Definition getServerPath : string := join getInstallPath "server.ts".
Definition getVoicesPath : string := join getInstallPath "voices.json".

Definition getBunPath : M string :=
  let* a := gets (existsSync (join homedir ".bun/bin/bun")) in
  if a then ret (join homedir ".bun/bin/bun")
  else
    let* b := gets (existsSync "/usr/local/bin/bun") in
    if b then ret "/usr/local/bin/bun"
    else
      let* c := gets (existsSync "/opt/homebrew/bin/bun") in
      if c then ret "/opt/homebrew/bin/bun"
      else ret "bun".

(** *** [lib/core/manifest.js] *)

Definition server : Component :=
  mkComponent "server" required "server.ts" getServerPath
    "Main server implementation" false.

Definition voices : Component :=
  mkComponent "voices" optional "voices.json" getVoicesPath
    "Voice configuration" true.

Definition service_name : string := "com.pai.voice-server".

(** [Object.values(manifest.components)], in insertion order. *)
Definition getAllComponents : list Component := [server; voices].

Definition getRequiredComponents : list Component :=
  filter (λ c, type c = required) getAllComponents.

Definition getOptionalComponents : list Component :=
  filter (λ c, type c = optional) getAllComponents.

Definition getComponent (n : string) : option Component :=
  if bool_decide (n = "server") then Some server
  else if bool_decide (n = "voices") then Some voices
  else None.

(** *** [lib/core/metadata.js] *)

(** [for (const x of xs) { ... }] over an accumulator. *)
Fixpoint for_of {A S} (xs : list A) (body : S → A → M S) (s : S) : M S :=
  match xs with
  | [] => ret s
  | x :: xs' => let* s' := body s x in for_of xs' body s'
  end.

(** [new Date().toISOString()] *)
Definition isoNow : M string := gets (λ w, toISOString (now w)).

(** [{ version, installDate, installedComponents: {}, service: { name,
    status: 'installed' } }] *)
Definition fresh_metadata : M Value :=
  let* installDate := isoNow in
  ret (JObject [("version", JString package_version);
                ("installDate", JString installDate);
                ("installedComponents", JObject []);
                ("service", JObject [("name", JString service_name);
                                     ("status", JString "installed")])]).

(** [{ version, hash, modified: false, installDate }] *)
Definition fresh_entry (hash : option string) (installDate : string) : Value :=
  JObject [("version", JString package_version); ("hash", of_hash hash);
           ("modified", JBool false); ("installDate", JString installDate)].

(** [metadata.installedComponents[name] = entry] *)
Definition set_component (metadata : Value) (name : string) (entry : Value) : M Value :=
  let* components := get metadata "installedComponents" in
  let* components := set components name entry in
  ret (with_prop "installedComponents" components metadata).

(** The body of the loop of [createMetadata]. *)
Definition created_turn (metadata : Value) (component : Component) : M Value :=
  let* present := gets (existsSync (target component)) in
  if present then
    let* hash := calculateFileHash (target component) in
    let* installDate := isoNow in
    set_component metadata (name component) (fresh_entry hash installDate)
  else ret metadata.

Definition createMetadata (dryRun : bool) : M Value :=
  let* metadata := fresh_metadata in
  (* Calculate hashes for all installed files *)
  let* metadata := for_of getAllComponents created_turn metadata in
  (* Write metadata file *)
  (if negb dryRun then writeJSON getMetadataPath metadata dryRun else ret tt);;
  ret metadata.

(** The record, or [null]. *)
Definition readMetadata : M Value :=
  let* present := gets (existsSync getMetadataPath) in
  if negb present then ret JNull
  else
    try_catch
      (readJSON getMetadataPath)
      (λ e, warn ("Failed to read metadata: " +:+ e);; ret JNull).

Definition updateMetadata (metadata : Value) (dryRun : bool) : M unit :=
  if negb dryRun then writeJSON getMetadataPath metadata dryRun else ret tt.

Definition isInstalled : M bool :=
  gets (λ w, existsSync getMetadataPath w && existsSync getServerPath w).

(** [metadata ? metadata.version : null] *)
Definition getInstalledVersion : M Value :=
  let* metadata := readMetadata in
  if truthy metadata then get metadata "version" else ret JNull.

(** The body of the loop of [getCustomizedFiles]. *)
Definition customized_turn (metadata : Value) (customized : list string)
    (component : Component) : M (list string) :=
  let* components := get metadata "installedComponents" in
  let* componentMeta := get components (name component) in
  if negb (truthy componentMeta) then ret customized
  else
    (* Check if file still exists *)
    let* present := gets (existsSync (target component)) in
    if negb present then ret customized
    else
      (* Calculate current hash, compare with stored hash *)
      let* currentHash := calculateFileHash (target component) in
      let* storedHash := get componentMeta "hash" in
      if negb (strict_eq (of_hash currentHash) storedHash)
      then ret (customized ++ [name component])
      else ret customized.

Definition getCustomizedFiles : M (list string) :=
  let* metadata := readMetadata in
  if negb (truthy metadata) then ret []
  else for_of getAllComponents (customized_turn metadata) [].

(** The body of the loop of [updateAfterInstall]. *)
Definition updated_turn (metadata : Value) (component : Component) : M Value :=
  let* present := gets (existsSync (target component)) in
  if present then
    let* hash := calculateFileHash (target component) in
    let* components := get metadata "installedComponents" in
    let* entry := get components (name component) in
    if negb (truthy entry) then
      (* New component *)
      let* installDate := isoNow in
      set_component metadata (name component) (fresh_entry hash installDate)
    else
      (* Update existing component *)
      let* entry := set entry "version" (JString package_version) in
      let* entry := set entry "hash" (of_hash hash) in
      let* entry := set entry "modified" (JBool false) in
      let* lastUpdate := isoNow in
      let* entry := set entry "lastUpdate" (JString lastUpdate) in
      ret (with_prop "installedComponents"
             (with_prop (name component) entry components) metadata)
  else ret metadata.

Definition updateAfterInstall (dryRun isUpdate : bool) : M Value :=
  let* metadata := readMetadata in
  let* metadata :=
    if negb (truthy metadata) || negb isUpdate then
      (* Fresh install - create new metadata *)
      fresh_metadata
    else
      (* Update - preserve install date, update version *)
      let* metadata := set metadata "version" (JString package_version) in
      let* lastUpdate := isoNow in
      set metadata "lastUpdate" (JString lastUpdate) in
  (* Update component hashes *)
  let* metadata := for_of getAllComponents updated_turn metadata in
  (* Write metadata *)
  (if negb dryRun then updateMetadata metadata dryRun else ret tt);;
  ret metadata.

(** *** [lib/core/launchagent.js] *)

Definition nl : string := String "010" EmptyString.

(** One line of the property list. *)
Definition line (s : string) : string := s +:+ nl.
Definition key (k : string) : string := line ("    <key>" +:+ k +:+ "</key>").
Definition str (v : string) : string := line ("    <string>" +:+ v +:+ "</string>").

Definition generatePlist : M string :=
  let serverPath := getServerPath in
  let* bunPath := getBunPath in
  let logPath := getLogPath in
  ret (line ("<?xml version=" +:+ dq +:+ "1.0" +:+ dq +:+ " encoding=" +:+ dq +:+ "UTF-8" +:+ dq +:+ "?>")
       +:+ line ("<!DOCTYPE plist PUBLIC " +:+ dq +:+ "-//Apple//DTD PLIST 1.0//EN" +:+ dq +:+ " "
                 +:+ dq +:+ "http://www.apple.com/DTDs/PropertyList-1.0.dtd" +:+ dq +:+ ">")
       +:+ line ("<plist version=" +:+ dq +:+ "1.0" +:+ dq +:+ ">")
       +:+ line "<dict>"
       +:+ key "Label" +:+ str service_name +:+ nl
       +:+ key "ProgramArguments"
       +:+ line "    <array>"
       +:+ line ("        <string>" +:+ bunPath +:+ "</string>")
       +:+ line "        <string>run</string>"
       +:+ line ("        <string>" +:+ serverPath +:+ "</string>")
       +:+ line "    </array>" +:+ nl
       +:+ key "WorkingDirectory" +:+ str getInstallPath +:+ nl
       +:+ key "RunAtLoad" +:+ line "    <true/>" +:+ nl
       +:+ key "KeepAlive"
       +:+ line "    <dict>"
       +:+ line "        <key>SuccessfulExit</key>"
       +:+ line "        <false/>"
       +:+ line "    </dict>" +:+ nl
       +:+ key "StandardOutPath" +:+ str logPath +:+ nl
       +:+ key "StandardErrorPath" +:+ str logPath +:+ nl
       +:+ key "EnvironmentVariables"
       +:+ line "    <dict>"
       +:+ line "        <key>HOME</key>"
       +:+ line ("        <string>" +:+ homedir +:+ "</string>")
       +:+ line "        <key>PATH</key>"
       +:+ line ("        <string>/usr/local/bin:/usr/bin:/bin:/usr/sbin:/sbin:"
                 +:+ homedir +:+ "/.bun/bin</string>")
       +:+ line "    </dict>"
       +:+ line "</dict>"
       +:+ line "</plist>").

Definition createPlist (dryRun : bool) : M bool :=
  let plistPath := getLaunchAgentPath in
  if dryRun then ret true
  else
    try_catch
      ((* Ensure LaunchAgents directory exists *)
       let launchAgentsDir := dirname plistPath in
       let* present := gets (existsSync launchAgentsDir) in
       (if negb present then mkdirSync launchAgentsDir else ret tt);;
       (* Write plist file *)
       let* plistContent := generatePlist in
       writeFileSync plistPath plistContent;;
       ret true)
      (λ e, throw ("Failed to create plist: " +:+ e)).

Definition removePlist (dryRun : bool) : M bool :=
  let plistPath := getLaunchAgentPath in
  let* present := gets (existsSync plistPath) in
  if negb present then ret false
  else if dryRun then ret true
  else
    try_catch
      (unlinkSync plistPath;; ret true)
      (λ e, throw ("Failed to remove plist: " +:+ e)).

Definition load (dryRun : bool) : M bool :=
  let plistPath := getLaunchAgentPath in
  let* present := gets (existsSync plistPath) in
  if negb present then throw "LaunchAgent plist not found. Run install first."
  else if dryRun then ret true
  else
    try_catch
      (exec (LaunchctlLoad plistPath) dryRun true true;; ret true)
      (λ e,
         (* Ignore already loaded errors *)
         if includes "already loaded" e then ret true
         else throw ("Failed to load LaunchAgent: " +:+ e)).

Definition unload (dryRun : bool) : M bool :=
  let plistPath := getLaunchAgentPath in
  let* present := gets (existsSync plistPath) in
  if negb present then ret false
  else if dryRun then ret true
  else
    try_catch
      (exec (LaunchctlUnload plistPath) dryRun true true;; ret true)
      (λ e,
         (* Ignore not loaded errors *)
         if includes "Could not find" e then ret true
         else throw ("Failed to unload LaunchAgent: " +:+ e)).

Definition isLoaded : M bool :=
  try_catch
    (let* result := execOutput (LaunchctlListGrep service_name) false true in
     ret (negb (Nat.eqb (String.length (trim result)) 0)))
    (λ _, ret false).

Definition isRunning : M bool :=
  try_catch
    ((* Check if port is listening *)
     let* portCheck := execOutput LsofPort false true in
     if bool_decide (portCheck = "") || bool_decide (trim portCheck = "") then ret false
     else
       (* Try health endpoint *)
       let* healthCheck := execOutput CurlHealth false true in
       ret (negb (bool_decide (healthCheck = "")) && includes "healthy" healthCheck))
    (λ _, ret false).

Record Status := mkStatus { st_loaded : bool; running : bool; plistExists : bool }.

Definition status_text (s : Status) : string :=
  if running s then "running"
  else if st_loaded s then "loaded but not responding" else "stopped".

Definition getStatus : M Status :=
  let* l := isLoaded in
  let* r := isRunning in
  let* p := gets (existsSync getLaunchAgentPath) in
  ret (mkStatus l r p).

(** The loop of [waitForStart]: [None] when [fuel] iterations were not
    enough to reach the deadline. *)
Fixpoint waitForStart_loop (fuel : nat) (startTime timeoutMs : Z) (w : World)
  : option (Res bool * World) :=
  if bool_decide (now w - startTime < timeoutMs)%Z then
    match fuel with
    | O => None
    | S fuel' =>
        match isRunning w with
        | (Ok true, w') => Some (Ok true, w')
        | (Ok false, w') =>
            match sleep 1000 w' with
            | (Ok _, w'') => waitForStart_loop fuel' startTime timeoutMs w''
            | (Throw e, w'') => Some (Throw e, w'')
            end
        | (Throw e, w') => Some (Throw e, w')
        end
    end
  else Some (Ok false, w).

(** Every iteration sleeps a second, so [timeout] iterations reach the
    deadline (see [waitForStart_loop_total]). *)
Definition waitForStart (timeout : Z) : M bool := λ w,
  let startTime := now w in
  let timeoutMs := (timeout * 1000)%Z in
  match waitForStart_loop (Z.to_nat timeout) startTime timeoutMs w with
  | Some r => r
  | None => (Throw "waitForStart: out of fuel", w)
  end.

(** *** [lib/commands/updater.js] *)

(** How one turn of the component loop ends. *)
Variant Turn :=
  | turn_updated        (* the file was copied *)
  | turn_preserved      (* [continue]: the customised file stays *)
  | turn_skipped        (* an optional component failed: warning *)
  | turn_return (r : UpdateResult).  (* a required component failed *)

(** The body of [for (const component of components)] in [update]. *)
Definition update_component (dry : bool) (customized : list string)
    (component : Component) : M Turn :=
  try_catch
    ((* Check if this component is customized *)
     let isCustomized := bool_decide (name component ∈ customized) in
     if isCustomized && preserveOnUpdate component then
       (* Preserve customized file *)
       ret turn_preserved
     else
       (* Backup if customized but not preservable *)
       (if isCustomized && negb dry
        then backupFile (target component) dry;; ret tt
        else ret tt);;
       (* Update file *)
       let* sourcePath := resolveSourcePath (source component) in
       copyFile sourcePath (target component) dry true;;
       ret turn_updated)
    (λ e,
       if bool_decide (type component = required) then
         error ("  Failed to update " +:+ description component +:+ ": " +:+ e);;
         ret (turn_return (update_failed (name component) e))
       else
         warn ("  Failed to update " +:+ description component +:+ ": " +:+ e);;
         ret turn_skipped).

Fixpoint update_components (dry : bool) (customized : list string)
    (components : list Component) (updatedComponents preservedComponents : list string)
  : M (UpdateResult + list string * list string) :=
  match components with
  | [] => ret (inr (updatedComponents, preservedComponents))
  | component :: rest =>
      let* turn := update_component dry customized component in
      match turn with
      | turn_updated =>
          update_components dry customized rest
            (updatedComponents ++ [name component]) preservedComponents
      | turn_preserved =>
          update_components dry customized rest
            updatedComponents (preservedComponents ++ [name component])
      | turn_skipped =>
          update_components dry customized rest updatedComponents preservedComponents
      | turn_return r => ret (inl r)
      end
  end.

(** [// Stop service]: whether the daemon was running. *)
Definition update_stop (dry : bool) : M bool :=
  let* wasRunning := isRunning in
  (if wasRunning then
     try_catch (unload dry;; ret tt)
       (λ e, warn ("Failed to stop service: " +:+ e))
   else ret tt);;
  ret wasRunning.

(** [// Update LaunchAgent] *)
Definition update_launchagent (dry : bool) : M unit :=
  try_catch (createPlist dry;; ret tt)
    (λ e, warn ("Failed to update service configuration: " +:+ e)).

(** [// Update metadata] *)
Definition update_metadata (dry : bool) : M unit :=
  try_catch (updateAfterInstall dry true;; ret tt)
    (λ e, warn ("Failed to update metadata: " +:+ e)).

(** [// Restart service if it was running] *)
Definition update_restart (dry wasRunning : bool) : M unit :=
  if wasRunning then
    try_catch
      (load dry;;
       if negb dry then
         let* started := waitForStart 10 in
         if started then ret tt
         else warn "Server did not start within timeout"
       else ret tt)
      (λ e, warn ("Failed to start service: " +:+ e))
  else ret tt.

Definition update (options : Options) : M UpdateResult :=
  let dry := dryRun options in
  (* Check if installed *)
  let* installed := isInstalled in
  if negb installed then
    error "PAI Voice Server is not installed";;
    ret update_not_installed
  else
    (* Get current and new versions *)
    let* currentVersion := getInstalledVersion in
    let newVersion := package_version in
    interpolate currentVersion;;
    if strict_eq currentVersion (JString newVersion) && negb (force options) then
      ret update_alreadyUpToDate
    else
      (* Check for customizations *)
      let* customized := getCustomizedFiles in
      (if negb (Nat.eqb (length customized) 0)
       then warn "Customized files detected:" else ret tt);;
      let* wasRunning := update_stop dry in
      (* Update components *)
      let* looped := update_components dry customized getAllComponents [] [] in
      match looped with
      | inl r => ret r
      | inr (updatedComponents, preservedComponents) =>
          update_launchagent dry;;
          update_metadata dry;;
          update_restart dry wasRunning;;
          ret (update_done currentVersion newVersion
                 updatedComponents preservedComponents dry)
      end.

(** *** Pure views of the world, used to state properties *)

(** What [calculateFileHash] returns for a path. *)
Definition hash_of (p : string) (w : World) : option string :=
  match files w !! p with
  | Some f => if bool_decide (p ∈ deny_read w) then None else Some (sha256 (f_data f))
  | None => None
  end.

(** The record [readMetadata] returns: [null] where there is none to
    read. *)
Definition stored_record (w : World) : Value :=
  match files w !! getMetadataPath with
  | Some f =>
      if bool_decide (getMetadataPath ∈ deny_read w) then JNull
      else default JNull (JSON_parse (f_data f))
  | None => JNull
  end.

(** [metadata.installedComponents[name]] where nothing throws. *)
Definition entry_of (metadata : Value) (name : string) : Value :=
  prop name (prop "installedComponents" metadata).

(** The test [getCustomizedFiles] applies to one component. *)
Definition differs (metadata : Value) (w : World) (c : Component) : bool :=
  truthy (entry_of metadata (name c))
  && existsSync (target c) w
  && negb (strict_eq (of_hash (hash_of (target c) w))
             (prop "hash" (entry_of metadata (name c)))).

(** A record of which [getCustomizedFiles] cannot read the entries: it
    is neither empty nor false, and its [installedComponents] is
    [undefined] or [null]. *)
Definition without_components (metadata : Value) : bool :=
  truthy metadata && nullish (prop "installedComponents" metadata).

(** A record of the shape the installer writes: an object whose
    [installedComponents] is an object in which the entry of a component
    is an object, where there is any (an entry that is [undefined], [null],
    [false], [0] or the empty string counts as none). *)
Definition entries_are_objects (metadata : Value) : Prop :=
  (∃ props, metadata = JObject props)
  ∧ (∃ entries, prop "installedComponents" metadata = JObject entries)
  ∧ ∀ c, c ∈ getAllComponents → truthy (entry_of metadata (name c)) = true →
      ∃ props, entry_of metadata (name c) = JObject props.

(** A record [status] can report: it is not [null], its version and its
    dates can be printed, and [getCustomizedFiles] can read its entries. *)
Definition reportable (metadata : Value) : bool :=
  negb (nullish metadata)
  && converts (prop "version" metadata)
  && converts (prop "installDate" metadata)
  && converts (prop "lastUpdate" metadata)
  && negb (without_components metadata).

(** The record [metadata] holds, for every component of [cs] whose target
    exists, the hash of that target. *)
Definition hashes_match (metadata : Value) (cs : list Component) (w : World) : Prop :=
  ∀ c, c ∈ cs → existsSync (target c) w = true →
    truthy (entry_of metadata (name c)) = true
    ∧ prop "hash" (entry_of metadata (name c)) = of_hash (hash_of (target c) w).

(** Two worlds with the same files, directories and permissions. *)
Definition same_fs (w w' : World) : Prop :=
  files w' = files w ∧ dirs w' = dirs w ∧ deny_read w' = deny_read w
  ∧ deny_write w' = deny_write w.

(** Two worlds with the same filesystem and the same supervisor table: they
    differ at most in the clock, the journal of commands run and the
    console. *)
Definition same_system (w w' : World) : Prop :=
  same_fs w w' ∧ loaded w' = loaded w.

(** Two worlds in which the path [p] holds the same file, equally readable. *)
Definition keeps (p : string) (w w' : World) : Prop :=
  files w' !! p = files w !! p ∧ (p ∈ deny_read w' ↔ p ∈ deny_read w).

(** The computation [m] relates the world it starts in to the world it
    ends in by [R], whether it returns or throws. *)
Definition preserves {A} (R : World → World → Prop) (m : M A) : Prop :=
  ∀ w r w', m w = (r, w') → R w w'.

(** The names [getCustomizedFiles] returns, as a function of the world. *)
Definition customized_of (w : World) : list string :=
  if truthy (stored_record w)
  then name <$> filter (λ c, differs (stored_record w) w c) getAllComponents
  else [].

(** Where [backupFile] puts the copy of [filePath] when the clock shows
    [now w]. *)
Definition backupPath_of (filePath : string) (w : World) : string :=
  filePath +:+ ".backup-" +:+ dashed (toISOString (now w)).

(** From [w] to [w'] no file outside [S] changed, and no permission. *)
Definition changed (S : string → Prop) (w w' : World) : Prop :=
  (∀ q, ¬ S q → files w' !! q = files w !! q)
  ∧ deny_read w' = deny_read w ∧ deny_write w' = deny_write w.

(** The same, and nothing was said on the console nor asked of the
    supervisor. *)
Definition fs_write (S : string → Prop) (w w' : World) : Prop :=
  changed S w w' ∧ loaded w' = loaded w ∧ console w' = console w.

(** The backups of [p]: its path with a timestamp suffix. *)
Definition backup_of (p q : string) : Prop := ∃ stamp, q = p +:+ ".backup-" +:+ stamp.

(** The world after a poll of [waitForStart] that found the daemon down:
    the probe ran, then the timer of one second. *)
Definition after_failed_poll (w : World) : World := tick 1000 (snd (isRunning w)).

(** The commands a health probe runs. *)
Definition probe_command (c : string) : Prop :=
  c = render LsofPort ∨ c = render CurlHealth.

(** ** The rest of the package: environment checks, the other commands, the
    command line *)

Section Host.

Variable host : Host.

(** *** The host's tools *)

(** [execSync(command, ...)] for a command of the host's tools. *)
Definition toolSync (t : Tool) : M string := λ w,
  let r := tools host (render_tool t) in
  let w' := tick (Z.of_nat (took r)) (ran (render_tool t) w) in
  if exit_ok r then (Ok (stdout r), w')
  else (Throw ("Command failed: " +:+ render_tool t +:+ String "010" (stderr r)), w').

(** [execOutput(command, { dryRun, ignoreError })] of [lib/utils/exec.js]
    for such a command. *)
Definition execOutput_tool (t : Tool) (dryRun ignoreError : bool) : M string :=
  if dryRun then ret ""
  else
    try_catch
      (let* out := toolSync t in ret (trim out))
      (λ e, if negb ignoreError then throw e else ret "").

(** *** [lib/utils/exec.js]: [commandExists] *)

Definition commandExists (command : string) : M bool :=
  try_catch
    (let* result := toolSync (Which command) in
     ret (negb (Nat.eqb (String.length (trim result)) 0)))
    (λ _, ret false).

(** *** [lib/core/environment.js] *)

(** [{ valid, version, path, error }] *)
Record Validity := mkValidity {
  valid : bool;
  v_version : option string;
  v_path : option string;
  v_error : option string
}.

(** [{ available, processInfo, error }] *)
Record PortCheck := mkPortCheck {
  available : bool;
  processInfo : option string;
  port_error : option string
}.

(** [{ configured, voiceId, error }] *)
Record ElevenLabsCheck := mkElevenLabsCheck {
  configured : bool;
  voiceId : option string;
  el_error : option string
}.

(** [{ writable, error }] *)
Record PermissionCheck := mkPermissionCheck {
  writable : bool;
  perm_error : option string
}.

Record Checks := mkChecks {
  ck_platform : Validity;
  ck_nodeVersion : Validity;
  ck_bun : Validity;
  ck_launchctl : Validity;
  ck_port : PortCheck;
  ck_elevenLabs : ElevenLabsCheck;
  ck_permissions : PermissionCheck
}.

Record EnvCheck := mkEnvCheck {
  env_valid : bool;
  checks : Checks;
  errors : list string;
  warnings : list string
}.

(** [requirements] of the manifest. *)
Definition requiredPlatform : string := "darwin".
Definition minNodeVersion : string := "18.0.0".

Definition validatePlatform : Validity :=
  if negb (bool_decide (platform host = requiredPlatform)) then
    mkValidity false None None
      (Some ("Unsupported platform: " +:+ platform host
             +:+ ". PAI Voice Server requires macOS."))
  else mkValidity true None None None.

Definition validateNodeVersion : Validity :=
  let currentVersion := process_version host in
  let requiredVersion := minNodeVersion in
  (* Simple version comparison (works for major versions) *)
  let current := parseInt (hd "" (split "." (slice 1 currentVersion))) in
  let required := parseInt (hd "" (split "." requiredVersion)) in
  if js_lt current required then
    mkValidity false (Some currentVersion) None
      (Some ("Node.js " +:+ requiredVersion +:+ "+ required, found " +:+ currentVersion))
  else mkValidity true (Some currentVersion) None None.

Definition validateBun : M Validity :=
  let* found := commandExists "bun" in
  if negb found then
    ret (mkValidity false None None
           (Some "Bun is not installed. Install from: https://bun.sh"))
  else
    try_catch
      (let* version := execOutput_tool BunVersion false false in
       let* bunPath := getBunPath in
       ret (mkValidity true (Some version) (Some bunPath) None))
      (λ e, ret (mkValidity false None None
                   (Some ("Failed to get Bun version: " +:+ e)))).

Definition validateLaunchctl : M Validity :=
  let* found := commandExists "launchctl" in
  if negb found then
    ret (mkValidity false None None
           (Some "launchctl not found (required for macOS service management)"))
  else ret (mkValidity true None None None).

(** [checkPort(8888)], the one port the installer asks about. *)
Definition checkPort : M PortCheck :=
  try_catch
    (let* result := execOutput LsofPort false true in
     if bool_decide (result = "") || bool_decide (trim result = "")
     then ret (mkPortCheck true None None)
     else
       (* Port is in use *)
       let pid := hd "" (split "010" (trim result)) in
       let* processInfo :=
         try_catch
           (let* processName := execOutput_tool (PsComm pid) false true in
            if negb (bool_decide (processName = ""))
            then ret (trim processName +:+ " (PID " +:+ pid +:+ ")")
            else ret ("PID " +:+ pid))
           (λ _, ret ("PID " +:+ pid)) in
       ret (mkPortCheck false (Some processInfo)
              (Some ("Port 8888 is already in use by " +:+ processInfo))))
    (* If lsof command fails, assume port is available *)
    (λ _, ret (mkPortCheck true None None)).

(** [trimmed.split('=')[1].trim()] *)
Definition env_value (trimmed : string) : string :=
  trim (default "" (split "=" trimmed !! 1%nat)).

(** One turn of the loop over the lines of [~/.env]. *)
Definition env_line (found : option string * option string) (line : string)
  : option string * option string :=
  let trimmed := trim line in
  let apiKey :=
    if startsWith "ELEVENLABS_API_KEY=" trimmed then Some (env_value trimmed)
    else found.1 in
  let voiceId :=
    if startsWith "ELEVENLABS_VOICE_ID=" trimmed then Some (env_value trimmed)
    else found.2 in
  (apiKey, voiceId).

Definition checkElevenLabsConfig : M ElevenLabsCheck :=
  let envPath := join homedir ".env" in
  let* present := gets (existsSync envPath) in
  if negb present then
    ret (mkElevenLabsCheck false None (Some "No ~/.env file found"))
  else
    try_catch
      (let* envContent := readFileSync envPath in
       let lines := split "010" envContent in
       let found := foldl env_line (None, None) lines in
       let apiKey := found.1 in
       let voiceId := found.2 in
       if bool_decide (apiKey = None) || bool_decide (apiKey = Some "")
          || bool_decide (apiKey = Some "your_api_key_here")
       then ret (mkElevenLabsCheck false None
                   (Some "ELEVENLABS_API_KEY not configured in ~/.env"))
       else ret (mkElevenLabsCheck true
                   (Some (match voiceId with
                          | Some v => if bool_decide (v = "") then "default" else v
                          | None => "default"
                          end))
                   None))
      (λ e, ret (mkElevenLabsCheck false None
                   (Some ("Failed to read ~/.env: " +:+ e)))).

(** It creates the directory when it is missing, writes a test file into
    it and removes the file again: also in a dry run, of which it knows
    nothing. *)
Definition checkDirectoryPermissions (dirPath : string) : M PermissionCheck :=
  let expandedPath := expandHome dirPath in
  try_catch
    ((* Create directory if it doesn't exist *)
     let* present := gets (existsSync expandedPath) in
     (if negb present then mkdirSync expandedPath else ret tt);;
     (* Try to write a test file *)
     let testFile := join expandedPath ".write-test" in
     writeFileSync testFile "test";;
     unlinkSync testFile;;
     ret (mkPermissionCheck true None))
    (λ e, ret (mkPermissionCheck false
                 (Some ("No write permission for " +:+ dirPath +:+ ": " +:+ e)))).

(** [if (cond) list.push(message)] *)
Definition push_if (cond : bool) (message : option string) (l : list string)
  : list string :=
  if cond then l ++ [default "undefined" message] else l.

Definition validateEnvironment : M EnvCheck :=
  let c_platform := validatePlatform in
  let c_nodeVersion := validateNodeVersion in
  let* c_bun := validateBun in
  let* c_launchctl := validateLaunchctl in
  let* c_port := checkPort in
  let* c_elevenLabs := checkElevenLabsConfig in
  let* c_permissions := checkDirectoryPermissions "~/.claude" in
  (* Collect errors *)
  let errors :=
    push_if (negb (writable c_permissions)) (perm_error c_permissions)
      (push_if (negb (valid c_launchctl)) (v_error c_launchctl)
         (push_if (negb (valid c_bun)) (v_error c_bun)
            (push_if (negb (valid c_nodeVersion)) (v_error c_nodeVersion)
               (push_if (negb (valid c_platform)) (v_error c_platform) [])))) in
  (* Collect warnings (non-fatal) *)
  let warnings :=
    push_if (negb (configured c_elevenLabs)) (el_error c_elevenLabs)
      (push_if (negb (available c_port)) (port_error c_port) []) in
  ret (mkEnvCheck (Nat.eqb (length errors) 0)
         (mkChecks c_platform c_nodeVersion c_bun c_launchctl c_port c_elevenLabs
            c_permissions)
         errors warnings).

(** The warnings and errors [displayEnvironmentCheck] prints. *)
Definition displayEnvironmentCheck (result : EnvCheck) : M unit :=
  (if available (ck_port (checks result)) then ret tt
   else warn ("Port 8888: " +:+ default "undefined" (processInfo (ck_port (checks result)))));;
  (if configured (ck_elevenLabs (checks result)) then ret tt
   else warn "ElevenLabs API: not configured (will use fallback)");;
  (if negb (Nat.eqb (length (errors result)) 0)
   then error "Environment check failed:" else ret tt);;
  (if negb (Nat.eqb (length (warnings result)) 0) && Nat.eqb (length (errors result)) 0
   then warn "Warnings (non-fatal):" else ret tt).

(** *** [lib/commands/installer.js] *)

Variant InstallResult :=
  (* [{ success: false, reason: 'already_installed' }] *)
  | install_already_installed
  (* [{ success: false, reason: 'environment_check_failed', errors }] *)
  | install_environment_check_failed (errors : list string)
  (* [{ success: false, reason: 'directory_creation_failed', error }] *)
  | install_directory_creation_failed (error : string)
  (* [{ success: false, reason: 'component_install_failed', component, error }] *)
  | install_component_install_failed (component error : string)
  (* [{ success: false, reason: 'launchagent_creation_failed', error }] *)
  | install_launchagent_creation_failed (error : string)
  (* [{ success: true, installedComponents, installPath, dryRun }] *)
  | install_done (installed : list string) (installPath : string) (dry : bool).

Definition install_success (r : InstallResult) : bool :=
  match r with
  | install_done _ _ _ => true
  | _ => false
  end.

(** The body of the component loop of [install]: the name installed, if
    any, or the result to return. *)
Definition install_component (dry : bool) (component : Component)
  : M (InstallResult + option string) :=
  try_catch
    (let* sourcePath := resolveSourcePath (source component) in
     copyFile sourcePath (target component) dry true;;
     ret (inr (Some (name component))))
    (λ e,
       if bool_decide (type component = required) then
         error ("  Failed to install " +:+ description component +:+ ": " +:+ e);;
         ret (inl (install_component_install_failed (name component) e))
       else
         warn ("  Skipped " +:+ description component +:+ ": " +:+ e);;
         ret (inr None)).

Fixpoint install_components (dry : bool) (components : list Component)
    (installed : list string) : M (InstallResult + list string) :=
  match components with
  | [] => ret (inr installed)
  | component :: rest =>
      let* turn := install_component dry component in
      match turn with
      | inl r => ret (inl r)
      | inr (Some n) => install_components dry rest (installed ++ [n])
      | inr None => install_components dry rest installed
      end
  end.

(** [options.serviceMode] is never set by [parseArgs] and [createPlist]
    does not read it; it only changes what is printed. *)
Definition install (options : Options) : M InstallResult :=
  let dry := dryRun options in
  (* Step 1: Check if already installed *)
  let* installed := isInstalled in
  if installed && negb (force options) then
    error "PAI Voice Server is already installed";;
    ret install_already_installed
  else
    (* Step 2: Validate environment *)
    let* envCheck := validateEnvironment in
    displayEnvironmentCheck envCheck;;
    if negb (env_valid envCheck) then
      ret (install_environment_check_failed (errors envCheck))
    else
      (* Step 4: Create installation directory *)
      let installPath := getInstallPath in
      let* created :=
        try_catch
          (ensureDirectoryExists installPath dry;; ret None)
          (λ e, error ("Failed to create directory: " +:+ e);; ret (Some e)) in
      match created with
      | Some e => ret (install_directory_creation_failed e)
      | None =>
          (* Step 5: Copy server files *)
          let* copied := install_components dry getAllComponents [] in
          match copied with
          | inl r => ret r
          | inr installedComponents =>
              (* Step 6: Create LaunchAgent *)
              let* plist :=
                try_catch
                  (createPlist dry;; ret None)
                  (λ e, error ("Failed to create LaunchAgent: " +:+ e);; ret (Some e)) in
              match plist with
              | Some e => ret (install_launchagent_creation_failed e)
              | None =>
                  (* Step 7: Start service *)
                  try_catch
                    (load dry;;
                     if negb dry then
                       (* Wait for service to start *)
                       let* started := waitForStart 10 in
                       if started then ret tt
                       else warn "Server did not start within timeout (check logs)"
                     else ret tt)
                    (λ e, warn ("Failed to start service: " +:+ e));;
                  (* Step 8: Create metadata *)
                  try_catch
                    (createMetadata dry;; ret tt)
                    (λ e, warn ("Failed to create metadata: " +:+ e));;
                  (* Step 9: Display success summary *)
                  (if negb (configured (ck_elevenLabs (checks envCheck)))
                   then warn "ElevenLabs API key not configured" else ret tt);;
                  ret (install_done installedComponents installPath dry)
              end
          end
      end.

(** *** [lib/commands/uninstaller.js] *)

Variant UninstallResult :=
  (* [{ success: false, reason: 'not_installed' }] *)
  | uninstall_not_installed
  (* [{ success: false, reason: 'removal_failed', error }] *)
  | uninstall_removal_failed (error : string)
  (* [{ success: true, removedInstallation: true, preservedLogs,
        createdBackup, dryRun }] *)
  | uninstall_done (preservedLogs createdBackup dry : bool).

Definition uninstall_success (r : UninstallResult) : bool :=
  match r with
  | uninstall_done _ _ _ => true
  | _ => false
  end.

Definition uninstall (options : Options) : M UninstallResult :=
  let dry := dryRun options in
  (* Check if installed *)
  let* installed := isInstalled in
  if negb installed then
    error "PAI Voice Server is not installed";;
    ret uninstall_not_installed
  else
    (* Get metadata *)
    let* meta := readMetadata in
    (* Check for customizations *)
    let* customized := getCustomizedFiles in
    let some_customized := negb (Nat.eqb (length customized) 0) in
    (if some_customized && negb dry
     then warn "Customized files detected:" else ret tt);;
    (* Stop service *)
    let* serviceStatus := getStatus in
    (if running serviceStatus || st_loaded serviceStatus then
       try_catch (unload dry;; ret tt)
         (λ e, warn ("Failed to stop service: " +:+ e))
     else ret tt);;
    (* Remove LaunchAgent plist *)
    try_catch (removePlist dry;; ret tt)
      (λ e, warn ("Failed to remove LaunchAgent: " +:+ e));;
    (* Remove installation directory *)
    let installPath := getInstallPath in
    let* removal :=
      try_catch
        ((* Backup if requested *)
         (if backup options && negb dry && some_customized then
            let* stamp := gets now in
            let backupPath := installPath +:+ ".backup-" +:+ decimal (Z.to_N stamp) in
            let* present := gets (existsSync installPath) in
            if present then cpSync installPath backupPath else ret tt
          else ret tt);;
         removeDirectory installPath dry;;
         ret None)
        (λ e, error ("Failed to remove installation: " +:+ e);; ret (Some e)) in
    match removal with
    | Some e => ret (uninstall_removal_failed e)
    | None =>
        (* Handle log files *)
        let logPath := getLogPath in
        (if preserveLogs options then ret tt
         else
           try_catch (removeFile logPath dry;; ret tt)
             (λ e, warn ("Failed to remove log file: " +:+ e)));;
        ret (uninstall_done (preserveLogs options)
               (backup options && some_customized) dry)
    end.

(** *** [lib/commands/start.js] *)

Variant StartResult :=
  (* [{ success: false, reason: 'not_installed' }] *)
  | start_not_installed
  (* [{ success: true, alreadyRunning: true }] *)
  | start_alreadyRunning
  (* [{ success: true }] *)
  | start_started
  (* [{ success: false, reason: 'start_timeout' }] *)
  | start_timeout
  (* [{ success: true, dryRun: true }] *)
  | start_dryRun
  (* [{ success: false, reason: 'start_failed', error }] *)
  | start_failed (error : string).

Definition start_success (r : StartResult) : bool :=
  match r with
  | start_alreadyRunning | start_started | start_dryRun => true
  | start_not_installed | start_timeout | start_failed _ => false
  end.

Definition start (options : Options) : M StartResult :=
  let dry := dryRun options in
  (* Check if installed *)
  let* installed := isInstalled in
  if negb installed then
    error "PAI Voice Server is not installed";;
    ret start_not_installed
  else
    (* Check if already running *)
    let* status := getStatus in
    if running status && negb dry then ret start_alreadyRunning
    else
      (* Load LaunchAgent *)
      try_catch
        (load dry;;
         if negb dry then
           let* started := waitForStart 10 in
           if started then ret start_started
           else
             error "Server did not start within timeout";;
             ret start_timeout
         else ret start_dryRun)
        (λ e,
           error ("Failed to start server: " +:+ e);;
           ret (start_failed e)).

(** *** [lib/commands/stop.js] *)

Variant StopResult :=
  (* [{ success: false, reason: 'not_installed' }] *)
  | stop_not_installed
  (* [{ success: true, alreadyStopped: true }] *)
  | stop_alreadyStopped
  (* [{ success: true }] *)
  | stop_stopped
  (* [{ success: false, reason: 'stop_incomplete' }] *)
  | stop_incomplete
  (* [{ success: true, dryRun: true }] *)
  | stop_dryRun
  (* [{ success: false, reason: 'stop_failed', error }] *)
  | stop_failed (error : string).

Definition stop_success (r : StopResult) : bool :=
  match r with
  | stop_alreadyStopped | stop_stopped | stop_dryRun => true
  | stop_not_installed | stop_incomplete | stop_failed _ => false
  end.

Definition stop_alreadyStopped_flag (r : StopResult) : bool :=
  match r with
  | stop_alreadyStopped => true
  | _ => false
  end.

Definition stop (options : Options) : M StopResult :=
  let dry := dryRun options in
  (* Check if installed *)
  let* installed := isInstalled in
  if negb installed then
    error "PAI Voice Server is not installed";;
    ret stop_not_installed
  else
    (* Check if running *)
    let* status := getStatus in
    if negb (running status) && negb dry then
      warn "Server is not running";;
      ret stop_alreadyStopped
    else
      (* Unload LaunchAgent *)
      try_catch
        (unload dry;;
         if negb dry then
           (* Give it a moment to stop *)
           sleep 2000;;
           let* newStatus := getStatus in
           if negb (running newStatus) then ret stop_stopped
           else
             warn "Server may still be running";;
             ret stop_incomplete
         else ret stop_dryRun)
        (λ e,
           error ("Failed to stop server: " +:+ e);;
           ret (stop_failed e)).

(** *** [lib/commands/restart.js] *)

Variant RestartResult :=
  (* [{ success: false, reason: 'stop_failed', stopResult }] *)
  | restart_stop_failed (stopResult : StopResult)
  (* [{ success: false, reason: 'start_failed', startResult }] *)
  | restart_start_failed (startResult : StartResult)
  (* [{ success: true, stopResult, startResult }] *)
  | restart_done (stopResult : StopResult) (startResult : StartResult).

Definition restart_success (r : RestartResult) : bool :=
  match r with
  | restart_done _ _ => true
  | _ => false
  end.

(** The options object [{ dryRun }] that [restart] hands on. *)
Definition only_dryRun (dry : bool) : Options :=
  mkOptions dry false false false false false.

Definition restart (options : Options) : M RestartResult :=
  let dry := dryRun options in
  (* Stop server *)
  let* stopResult := stop (only_dryRun dry) in
  if negb (stop_success stopResult) && negb (stop_alreadyStopped_flag stopResult) then
    ret (restart_stop_failed stopResult)
  else
    (* Wait a bit *)
    (if negb dry then sleep 1000 else ret tt);;
    (* Start server *)
    let* startResult := start (only_dryRun dry) in
    if negb (start_success startResult) then ret (restart_start_failed startResult)
    else ret (restart_done stopResult startResult).

(** *** [lib/commands/status.js] *)

Variant StatusResult :=
  (* [{ success: false, installed: false }] *)
  | status_not_installed
  (* [{ success: true, installed: true, version, serviceStatus,
        elevenLabsConfigured, customized }] *)
  | status_report (version : Value) (serviceStatus : Status)
      (elevenLabsConfigured customized : bool).

Definition status_success (r : StatusResult) : bool :=
  match r with
  | status_report _ _ _ _ => true
  | status_not_installed => false
  end.

(** [launchagent.getLogs(lines)] *)
Definition getLogs (lines : N) : M string :=
  let logPath := getLogPath in
  let* present := gets (existsSync logPath) in
  if negb present then ret "No log file found"
  else
    try_catch
      (execOutput_tool (Tail lines logPath) false false)
      (λ e, ret ("Failed to read logs: " +:+ e)).

Definition status (options : Options) : M StatusResult :=
  (* Check installation *)
  let* isInstalled := isInstalled in
  if negb isInstalled then
    error "PAI Voice Server is not installed";;
    ret status_not_installed
  else
    (* Get metadata *)
    let* meta := readMetadata in
    (* Get service status *)
    let* serviceStatus := getStatus in
    (* Display installation info: the version, then
       [new Date(meta.installDate)] and, if there is one,
       [new Date(meta.lastUpdate)] *)
    let* version := get meta "version" in
    interpolate version;;
    let* installDate := get meta "installDate" in
    interpolate installDate;;
    let* lastUpdate := get meta "lastUpdate" in
    (if truthy lastUpdate then interpolate lastUpdate else ret tt);;
    (* Check API configuration *)
    let* elevenLabsCheck := checkElevenLabsConfig in
    (* Check for customizations *)
    let* customized := getCustomizedFiles in
    (* Show recent logs if verbose *)
    (if verbose options then getLogs 20;; ret tt else ret tt);;
    ret (status_report version serviceStatus
           (configured elevenLabsCheck)
           (negb (Nat.eqb (length customized) 0))).

(** *** [lib/commands/verify.js] *)

(** [{ success: issues.length === 0, issues, warnings, serviceStatus }],
    or [{ success: false, reason: 'not_installed' }]. *)
Variant VerifyResult :=
  | verify_not_installed
  | verify_report (issues warnings : list string) (serviceStatus : Status).

Definition verify_success (r : VerifyResult) : bool :=
  match r with
  | verify_report issues _ _ => Nat.eqb (length issues) 0
  | verify_not_installed => false
  end.

(** The body of the component loop of [verify], over the two lists. *)
Definition verify_component (found : list string * list string)
    (component : Component) : M (list string * list string) :=
  let* present := gets (existsSync (target component)) in
  if negb present then
    if bool_decide (type component = required) then
      error ("  ✗ " +:+ description component +:+ " - MISSING");;
      ret (found.1 ++ ["Required component missing: " +:+ description component],
           found.2)
    else
      warn ("  ⚠ " +:+ description component +:+ " - missing");;
      ret (found.1,
           found.2 ++ ["Optional component missing: " +:+ description component])
  else ret found.

Definition verify (options : Options) : M VerifyResult :=
  (* Check installation *)
  let* installed := isInstalled in
  if negb installed then
    error "Installation not found";;
    ret verify_not_installed
  else
    (* Check metadata *)
    let* meta := readMetadata in
    let* issues :=
      if negb (truthy meta) then
        error "Metadata file missing or corrupt";;
        ret ["Metadata file missing or corrupt"]
      else ret [] in
    (* Check components *)
    let* found := for_of getAllComponents verify_component (issues, []) in
    (* Check LaunchAgent *)
    let* plist := gets (existsSync getLaunchAgentPath) in
    let* issues :=
      if negb plist then
        error "LaunchAgent plist missing";;
        ret (found.1 ++ ["LaunchAgent plist missing"])
      else ret found.1 in
    (* Check service status *)
    let* serviceStatus := getStatus in
    let* warnings :=
      if st_loaded serviceStatus then ret found.2
      else
        warn "LaunchAgent not loaded";;
        ret (found.2 ++ ["LaunchAgent not loaded"]) in
    let* warnings :=
      if running serviceStatus then ret warnings
      else
        warn "Server not responding";;
        ret (warnings ++ ["Server not responding"]) in
    (* Check health endpoint *)
    let* warnings :=
      if running serviceStatus then
        try_catch
          (let* response := execOutput CurlHealth false true in
           if negb (bool_decide (response = "")) && includes "healthy" response
           then ret warnings
           else
             warn "Health endpoint not responding correctly";;
             ret (warnings ++ ["Health endpoint not responding correctly"]))
          (λ _,
             warn "Failed to test health endpoint";;
             ret (warnings ++ ["Failed to test health endpoint"]))
      else ret warnings in
    (* Summary *)
    (if Nat.eqb (length issues) 0 && Nat.eqb (length warnings) 0 then ret tt
     else if negb (Nat.eqb (length issues) 0) then
       error "Critical issues found:";;
       if negb (Nat.eqb (length warnings) 0) then warn "Warnings:" else ret tt
     else warn "Warnings found:");;
    ret (verify_report issues warnings serviceStatus).

(** *** [install.js]: the command line *)

(** [parsed] of [parseArgs]. *)
Record Parsed := mkParsed {
  command : option string;          (* [null] until a command word is seen *)
  options : Options
}.

Definition with_command (c : string) (parsed : Parsed) : Parsed :=
  mkParsed (Some c) (options parsed).

Definition with_options (o : Options) (parsed : Parsed) : Parsed :=
  mkParsed (command parsed) o.

(** [!parsed.command]: [null] and the empty string are falsy. *)
Definition no_command (parsed : Parsed) : bool :=
  match command parsed with
  | None => true
  | Some c => bool_decide (c = "")
  end.

(** One turn of the loop of [parseArgs]: the exit code when the process
    exits ([--help], [--version]), the updated [parsed] otherwise. *)
Definition parse_arg (parsed : Parsed) (arg : string) : Z + Parsed :=
  let o := options parsed in
  if bool_decide (arg = "--help") || bool_decide (arg = "-h") then inl 0%Z
  else if bool_decide (arg = "--version") || bool_decide (arg = "-v") then inl 0%Z
  else if bool_decide (arg = "--dry-run") then
    inr (with_options
           (mkOptions true (yes o) (verbose o) (force o) (preserveLogs o) (backup o))
           parsed)
  else if bool_decide (arg = "--yes") || bool_decide (arg = "-y") then
    inr (with_options
           (mkOptions (dryRun o) true (verbose o) (force o) (preserveLogs o) (backup o))
           parsed)
  else if bool_decide (arg = "--verbose") then
    inr (with_options
           (mkOptions (dryRun o) (yes o) true (force o) (preserveLogs o) (backup o))
           parsed)
  else if bool_decide (arg = "--force") || bool_decide (arg = "-f") then
    inr (with_options
           (mkOptions (dryRun o) (yes o) (verbose o) true (preserveLogs o) (backup o))
           parsed)
  else if bool_decide (arg = "--preserve-logs") then
    inr (with_options
           (mkOptions (dryRun o) (yes o) (verbose o) (force o) true (backup o))
           parsed)
  else if bool_decide (arg = "--backup") then
    inr (with_options
           (mkOptions (dryRun o) (yes o) (verbose o) (force o) (preserveLogs o) true)
           parsed)
  (* If it doesn't start with --, it's a command *)
  else if negb (startsWith "--" arg) && negb (startsWith "-" arg) then
    if no_command parsed then inr (with_command arg parsed) else inr parsed
  else inr parsed.

Fixpoint parse_loop (args : list string) (parsed : Parsed) : Z + Parsed :=
  match args with
  | [] => inr parsed
  | arg :: rest =>
      match parse_arg parsed arg with
      | inl code => inl code
      | inr parsed' => parse_loop rest parsed'
      end
  end.

(** [parseArgs()], given [process.argv]. *)
Definition parseArgs (argv : list string) : Z + Parsed :=
  let args := drop 2 argv in
  parse_loop args (mkParsed None (mkOptions false false false false false false)).

(** What a call of [commands[command]] returns, as far as [main] looks at
    it: an object with its [success] property, if it has one, or a
    primitive value. *)
Variant Returned :=
  | returned_object (success : option bool)
  | returned_primitive.

(** [result && result.success === false] *)
Definition reports_failure (result : Returned) : bool :=
  match result with
  | returned_object (Some false) => true
  | _ => false
  end.

(** A command handler as [main] calls it. *)
Definition handler {R} (run : Options → M R) (success : R → bool)
  : Options → M Returned :=
  λ o, let* result := run o in ret (returned_object (Some (success result))).

(** [commands[command]]: the eight handlers, and what the object inherits
    from [Object.prototype], called with the options as argument; [None]
    is [undefined]. *)
Definition commands (command : string) : option (Options → M Returned) :=
  if bool_decide (command = "install") then Some (handler install install_success)
  else if bool_decide (command = "update") then Some (handler update update_success)
  else if bool_decide (command = "uninstall") then Some (handler uninstall uninstall_success)
  else if bool_decide (command = "start") then Some (handler start start_success)
  else if bool_decide (command = "stop") then Some (handler stop stop_success)
  else if bool_decide (command = "restart") then Some (handler restart restart_success)
  else if bool_decide (command = "status") then Some (handler status status_success)
  else if bool_decide (command = "verify") then Some (handler verify verify_success)
  (* [Object(options)] is the options object, [valueOf()] is [commands] *)
  else if bool_decide (command = "constructor") || bool_decide (command = "valueOf")
  then Some (λ _, ret (returned_object None))
  (* these return a boolean, a string or [undefined] *)
  else if bool_decide (command = "hasOwnProperty")
          || bool_decide (command = "isPrototypeOf")
          || bool_decide (command = "propertyIsEnumerable")
          || bool_decide (command = "toString")
          || bool_decide (command = "toLocaleString")
          || bool_decide (command = "__lookupGetter__")
          || bool_decide (command = "__lookupSetter__")
  then Some (λ _, ret returned_primitive)
  (* the second argument is not a function *)
  else if bool_decide (command = "__defineGetter__")
  then Some (λ _, throw "Object.prototype.__defineGetter__: Expecting function")
  else if bool_decide (command = "__defineSetter__")
  then Some (λ _, throw "Object.prototype.__defineSetter__: Expecting function")
  (* [Object.prototype] is an object, not a function *)
  else if bool_decide (command = "__proto__")
  then Some (λ _, throw "commands[command] is not a function")
  else None.

(** [main()]: the exit code of the process. *)
Definition main (argv : list string) : M Z :=
  match parseArgs argv with
  | inl code => ret code
  | inr parsed =>
      (* Default to status if no command provided *)
      let command := if no_command parsed then "status"
                     else default "status" (command parsed) in
      (* Check if command exists *)
      match commands command with
      | None =>
          error ("Unknown command: " +:+ command);;
          ret 1%Z
      | Some run =>
          try_catch
            ((* Execute command *)
             let* result := run (options parsed) in
             (* Exit with appropriate code *)
             if reports_failure result then ret 1%Z else ret 0%Z)
            (λ e, error e;; ret 1%Z)
      end
  end.

End Host.

(** *** Views of the command line *)

(** The arguments at which [parseArgs] ends the process. *)
Definition exit_flag (arg : string) : bool :=
  bool_decide (arg ∈ ["--help"; "-h"; "--version"; "-v"]).

(** The arguments that can name a command: those without a leading dash,
    the empty string apart. *)
Definition words (args : list string) : list string :=
  filter (λ arg, negb (startsWith "-" arg) && negb (bool_decide (arg = ""))) args.

(** The options the flags among the arguments switch on. *)
Definition flags (args : list string) : Options :=
  mkOptions
    (bool_decide ("--dry-run" ∈ args))
    (bool_decide ("--yes" ∈ args ∨ "-y" ∈ args))
    (bool_decide ("--verbose" ∈ args))
    (bool_decide ("--force" ∈ args ∨ "-f" ∈ args))
    (bool_decide ("--preserve-logs" ∈ args))
    (bool_decide ("--backup" ∈ args)).

(** The own properties of [commands], and those of [Object.prototype]. *)
Definition command_names : list string :=
  ["install"; "update"; "uninstall"; "start"; "stop"; "restart"; "status"; "verify"].

Definition prototype_names : list string :=
  ["constructor"; "valueOf"; "hasOwnProperty"; "isPrototypeOf";
   "propertyIsEnumerable"; "toString"; "toLocaleString";
   "__lookupGetter__"; "__lookupSetter__"; "__defineGetter__";
   "__defineSetter__"; "__proto__"].

(** The exit code [main] derives from a command that ran. *)
Definition exit_code {R} (success : R → bool) (ran : Res R * World) : Res Z * World :=
  match ran with
  | (Ok result, w') => (Ok (if success result then 0 else 1)%Z, w')
  | (Throw e, w') => (Ok 1%Z, printed Error e w')
  end.

(** *** Views of a run *)

(** The commands that only ask: the supervisor's list and the two probes
    of the daemon. *)
Definition query_command (c : string) : Prop :=
  c = render (LaunchctlListGrep service_name)
  ∨ c = render LsofPort ∨ c = render CurlHealth.

(** From [w] to [w'] the filesystem and the supervisor's table stayed as
    they were, and no command ran but queries. *)
Definition only_asked (w w' : World) : Prop :=
  same_system w w'
  ∧ ∃ cmds, journal w' = journal w ++ cmds ∧ Forall query_command cmds.

(** The computation [m] never throws: in every world it returns a value. *)
Definition returns {A} (m : M A) : Prop := ∀ w, ∃ a w', m w = (Ok a, w').

(** The computation [m] never throws, and what it returns satisfies [P]. *)
Definition ensures {A} (P : A → Prop) (m : M A) : Prop :=
  ∀ w, ∃ a w', m w = (Ok a, w') ∧ P a.

(** The file [checkDirectoryPermissions] writes to try the base directory of
    the installation. *)
Definition write_test_path : string := join getInstallBasePath ".write-test".

(** From [w] to [w'] nothing happened but what the permission check of the
    environment validation does: the test file may be gone, the base
    directory and the directories above it may have been made.  No other
    file changed, no permission, and the supervisor's table is the same. *)
Definition only_probed (w w' : World) : Prop :=
  changed (λ q, q = write_test_path) w w'
  ∧ loaded w' = loaded w
  ∧ dirs w ⊆ dirs w'
  ∧ dirs w' ⊆ dirs w ∪ list_to_set
                         (ancestors (S (String.length getInstallBasePath))
                            getInstallBasePath).

(** * Properties of the model *)

(** ** Running the monad *)

Ltac unfold_M :=
  unfold warn, error, sleep in *; unfold bind, ret, gets, throw, try_catch, modify in *.

(** The case distinctions of the [fs] primitives. *)
Ltac fs_cases :=
  repeat first
    [ case_bool_decide
    | match goal with
      | |- context [if blocked ?p ?w then _ else _] => destruct (blocked p w) eqn:?
      end ].

Lemma string_app_assoc (a b c : string) : (a +:+ b) +:+ c = a +:+ (b +:+ c).
Proof.
  induction a as [|x a IH]; [reflexivity|].
  change (String x ((a +:+ b) +:+ c) = String x (a +:+ (b +:+ c))).
  by rewrite IH.
Qed.

Lemma string_app_length (a b : string) :
  String.length (a +:+ b) = (String.length a + String.length b)%nat.
Proof.
  induction a as [|x a IH]; [reflexivity|].
  change (S (String.length (a +:+ b)) = S (String.length a + String.length b)).
  by rewrite IH.
Qed.

(** ** Paths: every managed path is the home directory and a fixed suffix *)

Lemma getInstallPath_eq : getInstallPath = homedir +:+ "/.claude/pai-voice-server".
Proof. unfold getInstallPath, getInstallBasePath, expandHome, join. cbn. by rewrite !string_app_assoc. Qed.

Lemma getServerPath_eq : getServerPath = homedir +:+ "/.claude/pai-voice-server/server.ts".
Proof. unfold getServerPath, join. rewrite getInstallPath_eq. by rewrite !string_app_assoc. Qed.

Lemma getVoicesPath_eq : getVoicesPath = homedir +:+ "/.claude/pai-voice-server/voices.json".
Proof. unfold getVoicesPath, join. rewrite getInstallPath_eq. by rewrite !string_app_assoc. Qed.

Lemma getMetadataPath_eq :
  getMetadataPath = homedir +:+ "/.claude/pai-voice-server/.metadata.json".
Proof. unfold getMetadataPath, join. rewrite getInstallPath_eq. by rewrite !string_app_assoc. Qed.

Lemma getLaunchAgentPath_eq :
  getLaunchAgentPath = homedir +:+ "/Library/LaunchAgents/com.pai.voice-server.plist".
Proof. unfold getLaunchAgentPath, expandHome, join. cbn. by rewrite ?string_app_assoc. Qed.

Lemma getLogPath_eq : getLogPath = homedir +:+ "/Library/Logs/pai-voice-server.log".
Proof. unfold getLogPath, expandHome, join. cbn. by rewrite ?string_app_assoc. Qed.

(** Two managed paths with different suffixes are different. *)
Ltac paths_differ :=
  rewrite ?getServerPath_eq, ?getVoicesPath_eq, ?getMetadataPath_eq,
    ?getLaunchAgentPath_eq, ?getLogPath_eq, ?getInstallPath_eq, ?string_app_assoc;
  let H := fresh in intros H; apply (inj (String.app _)) in H; discriminate H.

Lemma server_not_metadata : getServerPath ≠ getMetadataPath.
Proof. paths_differ. Qed.
Lemma server_not_voices : getServerPath ≠ getVoicesPath.
Proof. paths_differ. Qed.
Lemma plist_not_voices : getLaunchAgentPath ≠ getVoicesPath.
Proof. paths_differ. Qed.
Lemma plist_not_server : getLaunchAgentPath ≠ getServerPath.
Proof. paths_differ. Qed.
Lemma plist_not_metadata : getLaunchAgentPath ≠ getMetadataPath.
Proof. paths_differ. Qed.

(** ** Worlds that agree on the system *)

#[local] Instance same_fs_preorder : PreOrder same_fs.
Proof.
  split.
  - by intros w.
  - intros w1 w2 w3 (?&?&?&?) (?&?&?&?). repeat split; congruence.
Qed.

#[local] Instance same_system_preorder : PreOrder same_system.
Proof.
  split.
  - intros w. split; [reflexivity|done].
  - intros w1 w2 w3 [? ?] [? ?]. split; [by etrans|congruence].
Qed.

#[local] Instance keeps_preorder p : PreOrder (keeps p).
Proof.
  split.
  - by intros w.
  - intros w1 w2 w3 [? ?] [? ?]. split; [congruence|tauto].
Qed.

Lemma same_system_fs w w' : same_system w w' → same_fs w w'.
Proof. by intros [? _]. Qed.

Lemma same_fs_keeps p w w' : same_fs w w' → keeps p w w'.
Proof. intros (Hf&_&Hr&_). split; by rewrite ?Hf, ?Hr. Qed.

Lemma same_system_printed l s w : same_system w (printed l s w).
Proof. by repeat split. Qed.

Lemma same_system_tick ms w : same_system w (tick ms w).
Proof. by repeat split. Qed.

Lemma same_system_ran c w : same_system w (ran c w).
Proof. by repeat split. Qed.

Lemma same_fs_loaded b w : same_fs w (set_loaded b w).
Proof. by repeat split. Qed.

Lemma existsSync_same p w w' : same_fs w w' → existsSync p w' = existsSync p w.
Proof. intros (Hf&Hd&_). unfold existsSync. by rewrite Hf, Hd. Qed.

Lemma hash_of_keeps p w w' : keeps p w w' → hash_of p w' = hash_of p w.
Proof.
  intros [Hf Hr]. unfold hash_of. rewrite Hf. destruct (files w !! p); [|done].
  by rewrite (bool_decide_ext _ _ Hr).
Qed.

Lemma hash_of_same p w w' : same_fs w w' → hash_of p w' = hash_of p w.
Proof. intros H. by apply hash_of_keeps, same_fs_keeps. Qed.

Lemma stored_record_same w w' : same_fs w w' → stored_record w' = stored_record w.
Proof. intros (Hf&_&Hr&_). unfold stored_record. by rewrite Hf, Hr. Qed.

Lemma differs_same m c w w' : same_fs w w' → differs m w' c = differs m w c.
Proof.
  intros H. unfold differs. by rewrite (existsSync_same _ _ _ H), (hash_of_same _ _ _ H).
Qed.

Lemma customized_of_same w w' : same_fs w w' → customized_of w' = customized_of w.
Proof.
  intros H. unfold customized_of. rewrite (stored_record_same _ _ H).
  destruct (truthy (stored_record w)); [|done]. f_equal.
  apply list_filter_iff. intros c. by rewrite (differs_same _ _ _ _ H).
Qed.

Lemma existsSync_file p w f : files w !! p = Some f → existsSync p w = true.
Proof. intros H. unfold existsSync. apply bool_decide_eq_true. left. by rewrite H. Qed.

Lemma existsSync_false p w : existsSync p w = false → files w !! p = None ∧ p ∉ dirs w.
Proof.
  unfold existsSync. intros H%bool_decide_eq_false. split.
  - destruct (files w !! p) eqn:E; [|done]. exfalso. apply H. left. by eexists.
  - intros ?. apply H. by right.
Qed.


#[local] Instance changed_preorder S : PreOrder (changed S).
Proof.
  split.
  - by intros w.
  - intros w1 w2 w3 (H1&?&?) (H2&?&?). repeat split; try congruence.
    intros q Hq. by rewrite H2, H1.
Qed.

#[local] Instance fs_write_preorder S : PreOrder (fs_write S).
Proof.
  split.
  - intros w. by repeat split.
  - intros w1 w2 w3 (?&?&?) (?&?&?). split; [by etrans|split; congruence].
Qed.

Lemma changed_weaken (S S' : string → Prop) w w' :
  (∀ q, S q → S' q) → changed S w w' → changed S' w w'.
Proof. intros H (Hf&?&?). repeat split; try done. intros q Hq. apply Hf. naive_solver. Qed.

Lemma fs_write_weaken (S S' : string → Prop) w w' :
  (∀ q, S q → S' q) → fs_write S w w' → fs_write S' w w'.
Proof. intros H (?&?&?). split; [by eapply changed_weaken|done]. Qed.

Lemma fs_write_changed S w w' : fs_write S w w' → changed S w w'.
Proof. by intros [? _]. Qed.

Lemma same_fs_changed S w w' : same_fs w w' → changed S w w'.
Proof. intros (Hf&_&?&?). repeat split; try done. intros q _. by rewrite Hf. Qed.

Lemma changed_keeps S p w w' : ¬ S p → changed S w w' → keeps p w w'.
Proof. intros Hp (Hf&Hr&_). split; [by apply Hf|by rewrite Hr]. Qed.

(** ** Frame rules: what a computation leaves alone *)

Section Frame.
Context {R : World → World → Prop} `{!PreOrder R}.

Lemma preserves_ret {A} (a : A) : preserves R (ret a).
Proof. by intros w r w' [= _ <-]. Qed.

Lemma preserves_throw {A} e : preserves R (throw (A:=A) e).
Proof. by intros w r w' [= _ <-]. Qed.

Lemma preserves_gets {A} (f : World → A) : preserves R (gets f).
Proof. by intros w r w' [= _ <-]. Qed.

Lemma preserves_get v key : preserves R (get v key).
Proof. unfold get. destruct (nullish v); [apply preserves_throw | apply preserves_ret]. Qed.

Lemma preserves_set v key x : preserves R (set v key x).
Proof. unfold set. destruct (nullish v); [apply preserves_throw | apply preserves_ret]. Qed.

Lemma preserves_interpolate v : preserves R (interpolate v).
Proof.
  unfold interpolate. destruct (converts v); [apply preserves_ret | apply preserves_throw].
Qed.

Lemma preserves_modify (f : World → World) :
  (∀ w, R w (f w)) → preserves R (modify f).
Proof. intros H w r w' [= _ <-]. apply H. Qed.

Lemma preserves_bind {A B} (m : M A) (k : A → M B) :
  preserves R m → (∀ a, preserves R (k a)) → preserves R (bind m k).
Proof.
  intros Hm Hk w r w'. unfold bind.
  destruct (m w) as [[a|e] w1] eqn:E.
  - intros H. etrans; [by eapply Hm | by eapply Hk].
  - intros [= _ <-]. by eapply Hm.
Qed.

Lemma preserves_try_catch {A} (body : M A) (handler : string → M A) :
  preserves R body → (∀ e, preserves R (handler e)) → preserves R (try_catch body handler).
Proof.
  intros Hm Hk w r w'. unfold try_catch.
  destruct (body w) as [[a|e] w1] eqn:E.
  - intros [= _ <-]. by eapply Hm.
  - intros H. etrans; [by eapply Hm | by eapply Hk].
Qed.

Lemma preserves_for_of {A S} (xs : list A) (body : S → A → M S) (s : S) :
  (∀ s x, preserves R (body s x)) → preserves R (for_of xs body s).
Proof.
  intros H. revert s. induction xs as [|x xs IH]; intros s; simpl.
  - apply preserves_ret.
  - apply preserves_bind; [apply H | intros s'; apply IH].
Qed.

End Frame.

(** Split a computation along its structure. *)
Ltac frame_step :=
  lazymatch goal with
  | |- preserves _ (ret _) => apply preserves_ret
  | |- preserves _ (throw _) => apply preserves_throw
  | |- preserves _ (gets _) => apply preserves_gets
  | |- preserves _ (get _ _) => apply preserves_get
  | |- preserves _ (set _ _ _) => apply preserves_set
  | |- preserves _ (interpolate _) => apply preserves_interpolate
  | |- preserves _ (bind _ _) => apply preserves_bind; [|intros ?]
  | |- preserves _ (try_catch _ _) => apply preserves_try_catch; [|intros ?]
  | |- preserves _ (for_of _ _ _) => apply preserves_for_of; intros ? ?
  | |- preserves _ (if ?b then _ else _) => destruct b
  | |- preserves _ (match ?x with _ => _ end) => destruct x
  end.

Ltac frame := repeat frame_step.

Lemma preserves_weaken {A} (R R' : World → World → Prop) (m : M A) :
  (∀ w w', R w w' → R' w w') → preserves R m → preserves R' m.
Proof. intros H Hm w r w' E. by eapply H, Hm. Qed.

Lemma warn_same s : preserves same_system (warn s).
Proof. apply preserves_modify. intros w. apply same_system_printed. Qed.

Lemma error_same s : preserves same_system (error s).
Proof. apply preserves_modify. intros w. apply same_system_printed. Qed.

Lemma sleep_same ms : preserves same_system (sleep ms).
Proof. apply preserves_modify. intros w. apply same_system_tick. Qed.

(** ** The readers of [file-ops.js] and [metadata.js] *)

Lemma calculateFileHash_run p w : calculateFileHash p w = (Ok (hash_of p w), w).
Proof.
  unfold calculateFileHash, hash_of, readFileSync. unfold_M.
  destruct (files w !! p); repeat case_bool_decide; done.
Qed.

Lemma readMetadata_run w :
  ∃ w', readMetadata w = (Ok (stored_record w), w')
        ∧ (w' = w ∨ ∃ e, w' = printed Warn e w).
Proof.
  unfold readMetadata, stored_record, readJSON, readFileSync. unfold_M.
  destruct (existsSync getMetadataPath w) eqn:Hex; simpl.
  - destruct (files w !! getMetadataPath) as [f|]; simpl.
    + case_bool_decide; simpl; [eauto|].
      destruct (JSON_parse (f_data f)); simpl; eauto.
    + case_bool_decide; simpl; eauto.
  - apply existsSync_false in Hex as [-> _]. eauto.
Qed.

Lemma readMetadata_same : preserves same_system readMetadata.
Proof.
  intros w r w'.
  destruct (readMetadata_run w) as (w''&E&[->|[e ->]]); rewrite E; intros [= _ <-].
  - reflexivity.
  - apply same_system_printed.
Qed.

Lemma truthy_not_nullish v : truthy v = true → nullish v = false.
Proof. by destruct v. Qed.

(** [get] on a value that is neither [undefined] nor [null]. *)
Lemma get_run v key w : nullish v = false → get v key w = (Ok (prop key v), w).
Proof. intros H. unfold get. by rewrite H. Qed.

Lemma get_throws v key w : nullish v = true → ∃ e, get v key w = (Throw e, w).
Proof. intros H. unfold get. rewrite H. by eexists. Qed.

Lemma set_run v key x w : nullish v = false → set v key x w = (Ok (with_prop key x v), w).
Proof. intros H. unfold set. by rewrite H. Qed.

Lemma customized_turn_run metadata acc c w :
  without_components metadata = false → truthy metadata = true →
  customized_turn metadata acc c w
  = (Ok (if differs metadata w c then acc ++ [name c] else acc), w).
Proof.
  intros Hw Ht. unfold without_components in Hw. rewrite Ht in Hw. simpl in Hw.
  unfold customized_turn, differs, entry_of.
  unfold bind at 1. rewrite get_run by by apply truthy_not_nullish.
  unfold bind at 1. rewrite get_run by done.
  destruct (truthy (prop (name c) (prop "installedComponents" metadata))) eqn:He;
    simpl; [|done].
  unfold gets, bind at 1. destruct (existsSync (target c) w); simpl; [|done].
  unfold bind at 1. rewrite calculateFileHash_run.
  unfold bind at 1. rewrite get_run by by apply truthy_not_nullish.
  by destruct (strict_eq _ _).
Qed.

Lemma customized_loop (metadata : Value) (cs : list Component) (acc : list string) w :
  without_components metadata = false → truthy metadata = true →
  for_of cs (customized_turn metadata) acc w
  = (Ok (acc ++ (name <$> filter (λ c, differs metadata w c) cs)), w).
Proof.
  intros Hw Ht. revert acc. induction cs as [|c cs IH]; intros acc; simpl.
  - unfold ret. by rewrite app_nil_r.
  - unfold bind. rewrite customized_turn_run, IH, filter_cons by done.
    destruct (differs metadata w c); simpl.
    + by rewrite <- List.app_assoc.
    + done.
Qed.

(** Without [installedComponents] the first turn of the loop throws. *)
Lemma customized_turn_throws metadata acc c w :
  without_components metadata = true →
  ∃ e, customized_turn metadata acc c w = (Throw e, w).
Proof.
  intros [Ht Hn]%andb_prop. unfold customized_turn.
  unfold bind at 1. rewrite get_run by by apply truthy_not_nullish.
  unfold bind at 1. destruct (get_throws _ (name c) w Hn) as [e ->]. by eexists.
Qed.

Lemma getCustomizedFiles_run w :
  without_components (stored_record w) = false →
  ∃ w', getCustomizedFiles w = (Ok (customized_of w), w')
        ∧ (w' = w ∨ ∃ e, w' = printed Warn e w).
Proof.
  intros Hw. unfold getCustomizedFiles, customized_of.
  destruct (readMetadata_run w) as (w'&E&Hw'). unfold bind at 1. rewrite E.
  assert (same_fs w w') as Hs.
  { destruct Hw' as [->|[e ->]]; [reflexivity | apply same_system_printed]. }
  destruct (truthy (stored_record w)) eqn:Ht; cbn [negb].
  - rewrite customized_loop by done. exists w'. split; [|done]. simpl.
    rewrite (list_filter_iff (λ c, differs (stored_record w) w' c)
               (λ c, differs (stored_record w) w c)); [done|].
    intros c. by rewrite (differs_same _ _ _ _ Hs).
  - exists w'. by split.
Qed.

Lemma getCustomizedFiles_throws w :
  without_components (stored_record w) = true →
  ∃ e w', getCustomizedFiles w = (Throw e, w')
          ∧ (w' = w ∨ ∃ e', w' = printed Warn e' w).
Proof.
  intros Hw. unfold getCustomizedFiles.
  destruct (readMetadata_run w) as (w'&E&Hw'). unfold bind at 1. rewrite E.
  pose proof Hw as [Ht _]%andb_prop. rewrite Ht. simpl.
  unfold getAllComponents. cbn [for_of]. unfold bind at 1.
  destruct (customized_turn_throws (stored_record w) [] server w' Hw) as [e ->].
  by exists e, w'.
Qed.

(** ** What the primitives write *)

Create HintDb frame discriminated.

Ltac solve_fs_write :=
  first
    [ reflexivity
    | repeat split; try done;
      let q := fresh "q" in let Hq := fresh "Hq" in
      intros q Hq; cbn [files set_files set_dirs];
      rewrite ?lookup_insert_ne, ?lookup_delete_ne by (intros <-; by apply Hq);
      done ].

Lemma readFileSync_write S p : preserves (fs_write S) (readFileSync p).
Proof.
  intros w r w'. unfold readFileSync.
  destruct (files w !! p); repeat case_bool_decide; intros [= _ <-]; solve_fs_write.
Qed.

Lemma statSync_write S p : preserves (fs_write S) (statSync p).
Proof.
  intros w r w'. unfold statSync.
  destruct (files w !! p); repeat case_bool_decide; intros [= _ <-]; solve_fs_write.
Qed.

Lemma store_write (S : string → Prop) call p data mode :
  S p → preserves (fs_write S) (store call p data mode).
Proof.
  intros Hp w r w'. unfold store.
  destruct (files w !! p); fs_cases; intros [= _ <-]; solve_fs_write.
Qed.

Lemma writeFileSync_write (S : string → Prop) p data :
  S p → preserves (fs_write S) (writeFileSync p data).
Proof. apply store_write. Qed.

Lemma copyFileSync_write (S : string → Prop) src dst :
  S dst → preserves (fs_write S) (copyFileSync src dst).
Proof.
  intros Hp w r w'. unfold copyFileSync.
  destruct (files w !! src); repeat case_bool_decide;
    try (intros [= _ <-]; solve_fs_write).
  by apply store_write.
Qed.

Lemma chmodSync_write (S : string → Prop) p mode :
  S p → preserves (fs_write S) (chmodSync p mode).
Proof.
  intros Hp w r w'. unfold chmodSync.
  destruct (files w !! p); repeat case_bool_decide; intros [= _ <-]; solve_fs_write.
Qed.

Lemma mkdirSync_write S p : preserves (fs_write S) (mkdirSync p).
Proof.
  intros w r w'. unfold mkdirSync.
  fs_cases; intros [= _ <-]; solve_fs_write.
Qed.

Lemma unlinkSync_write (S : string → Prop) p :
  S p → preserves (fs_write S) (unlinkSync p).
Proof.
  intros Hp w r w'. unfold unlinkSync.
  destruct (files w !! p); repeat case_bool_decide; intros [= _ <-]; solve_fs_write.
Qed.

Lemma rmSync_write (S : string → Prop) p :
  (∀ q, under p q → S q) → preserves (fs_write S) (rmSync p).
Proof.
  intros Hp w r w'. unfold rmSync.
  case_bool_decide; intros [= _ <-]; [reflexivity|].
  repeat split; try done. intros q Hq. cbn [files set_files set_dirs].
  destruct (files w !! q) as [f|] eqn:E.
  - apply map_lookup_filter_Some. split; [done|]. simpl. intros Hu. by apply Hq, Hp.
  - apply map_lookup_filter_None. left. done.
Qed.

Lemma calculateFileHash_write S p : preserves (fs_write S) (calculateFileHash p).
Proof. intros w r w'. rewrite calculateFileHash_run. intros [= _ <-]. reflexivity. Qed.

Lemma warn_changed S s : preserves (changed S) (warn s).
Proof.
  eapply preserves_weaken; [|apply warn_same].
  intros w w' H. by apply same_fs_changed, same_system_fs.
Qed.

Lemma error_changed S s : preserves (changed S) (error s).
Proof.
  eapply preserves_weaken; [|apply error_same].
  intros w w' H. by apply same_fs_changed, same_system_fs.
Qed.

#[local] Hint Resolve readFileSync_write statSync_write store_write writeFileSync_write
  copyFileSync_write chmodSync_write mkdirSync_write unlinkSync_write rmSync_write
  calculateFileHash_write warn_same error_same sleep_same warn_changed error_changed
  : frame.

(** A computation that keeps the console quiet also fits the coarser
    relation. *)
Lemma preserves_fs_write_changed {A} S (m : M A) :
  preserves (fs_write S) m → preserves (changed S) m.
Proof. apply preserves_weaken. intros w w'. apply fs_write_changed. Qed.

#[local] Hint Resolve preserves_fs_write_changed | 10 : frame.

Ltac frames := frame; eauto with frame.

Lemma ensureDirectoryExists_write S d dry :
  preserves (fs_write S) (ensureDirectoryExists d dry).
Proof. unfold ensureDirectoryExists. frames. Qed.

Lemma copyFile_write (S : string → Prop) src tgt dry overwrite :
  S tgt → preserves (fs_write S) (copyFile src tgt dry overwrite).
Proof. intros. unfold copyFile. pose proof ensureDirectoryExists_write. frames. Qed.

Lemma removeFile_write (S : string → Prop) p dry :
  S p → preserves (fs_write S) (removeFile p dry).
Proof. intros. unfold removeFile. frames. Qed.

Lemma removeDirectory_write (S : string → Prop) p dry :
  (∀ q, under p q → S q) → preserves (fs_write S) (removeDirectory p dry).
Proof. intros. unfold removeDirectory. frames. Qed.

Lemma writeJSON_write (S : string → Prop) p m dry :
  S p → preserves (fs_write S) (writeJSON p m dry).
Proof. intros. unfold writeJSON. frames. Qed.

Lemma backupFile_changed (S : string → Prop) p dry :
  (∀ q, backup_of p q → S q) → preserves (changed S) (backupFile p dry).
Proof.
  intros HS. unfold backupFile. frames.
  apply preserves_fs_write_changed, copyFileSync_write, HS. by eexists.
Qed.

#[local] Hint Resolve ensureDirectoryExists_write copyFile_write removeFile_write
  removeDirectory_write writeJSON_write backupFile_changed : frame.

(** ** Customization detection *)

(** C4, amended: [getCustomizedFiles] returns exactly the names of the
    manifest components whose entry in the record is there (and not
    [null], [false], [0] or the empty string), whose target file exists,
    and whose recomputed hash is not the stored one.  A component whose
    target is gone is never in the list.  The [preserveOnUpdate] flag plays
    no part: it is not among the conditions.  Where there is no record to
    read, or the record is [null], [false], [0] or the empty string, the
    list is empty.  Where the record is anything else and has no
    [installedComponents], or [null] for it, the call throws a TypeError.
    Either way it changes nothing in the system. *)
Theorem getCustomizedFiles_exact (w : World) :
  ∃ metadata w',
    fst (readMetadata w) = Ok metadata ∧ same_system w w' ∧
    if truthy metadata && nullish (prop "installedComponents" metadata)
    then ∃ e, getCustomizedFiles w = (Throw e, w')
    else
      ∃ customized,
        getCustomizedFiles w = (Ok customized, w') ∧
        ∀ n, n ∈ customized ↔
          ∃ component currentHash,
            component ∈ getAllComponents ∧ name component = n ∧
            truthy metadata = true ∧
            truthy (prop n (prop "installedComponents" metadata)) = true ∧
            existsSync (target component) w = true ∧
            fst (calculateFileHash (target component) w) = Ok currentHash ∧
            strict_eq (of_hash currentHash)
              (prop "hash" (prop n (prop "installedComponents" metadata))) = false.
Proof.
  destruct (readMetadata_run w) as (w''&Er&_).
  exists (stored_record w). rewrite Er. simpl.
  fold (without_components (stored_record w)).
  destruct (without_components (stored_record w)) eqn:Hw.
  { destruct (getCustomizedFiles_throws w Hw) as (e&w'&E&Hw').
    exists w'. split; [done|]. split; [|by exists e].
    destruct Hw' as [->|[e' ->]]; [reflexivity | apply same_system_printed]. }
  destruct (getCustomizedFiles_run w Hw) as (w'&E&Hw').
  exists w'. split; [done|]. split.
  { destruct Hw' as [->|[e ->]]; [reflexivity | apply same_system_printed]. }
  exists (customized_of w). split; [done|].
  intros n. unfold customized_of.
  destruct (truthy (stored_record w)) eqn:Ht.
  - rewrite list_elem_of_fmap. split.
    + intros (c&->&Hc). apply list_elem_of_filter in Hc as [Hd Hin].
      unfold differs, entry_of in Hd.
      apply andb_prop_elim in Hd as [Hd Hne].
      apply andb_prop_elim in Hd as [He Hex].
      exists c, (hash_of (target c) w). repeat split; try done.
      * by apply Is_true_true.
      * by apply Is_true_true.
      * by rewrite calculateFileHash_run.
      * apply negb_prop_elim in Hne. by destruct (strict_eq _ _).
    + intros (c&h&Hin&<-&_&He&Hex&Hh&Hne).
      exists c. split; [done|]. apply list_elem_of_filter. split; [|done].
      unfold differs, entry_of. rewrite He, Hex. simpl.
      rewrite calculateFileHash_run in Hh. simpl in Hh. injection Hh as <-.
      by rewrite Hne.
  - split; [by intros ?%elem_of_nil|]. by intros (?&?&?&?&?&_).
Qed.

(** ** Copying a file *)

Lemma ensureDirectoryExists_real d w r w' :
  ensureDirectoryExists d false w = (r, w') →
  (r = Ok false ∧ w' = w ∧ existsSync d w = true)
  ∨ (r = Ok true ∧ existsSync d w = false ∧ (d ∉ deny_write w)
     ∧ w' = set_dirs (dirs w ∪ list_to_set (ancestors (S (String.length d)) d)) w)
  ∨ (∃ e, r = Throw ("Failed to create directory " +:+ d +:+ ": " +:+ e) ∧ w' = w
          ∧ (existsSync d w = false ∧ (d ∈ deny_write w ∨ blocked d w = true))).
Proof.
  unfold ensureDirectoryExists, mkdirSync. unfold_M.
  destruct (existsSync d w) eqn:Hex; simpl.
  - intros [= <- <-]. by left.
  - case_bool_decide; simpl.
    + intros [= <- <-]. right; right. eauto 10.
    + case_bool_decide as Hf; simpl.
      * exfalso. apply existsSync_false in Hex as [Hnone _].
        rewrite Hnone in Hf. by destruct Hf.
      * destruct (blocked d w) eqn:Hb; simpl.
        -- intros [= <- <-]. right; right. eauto 10.
        -- intros [= <- <-]. right; left. done.
Qed.

Lemma ancestors_head fuel d : d ∈ ancestors (S fuel) d.
Proof. simpl. apply list_elem_of_here. Qed.

(** A directory that [mkdir -p] was asked for exists afterwards. *)
Lemma existsSync_after_mkdir d w :
  existsSync d (set_dirs (dirs w ∪ list_to_set (ancestors (S (String.length d)) d)) w) = true.
Proof.
  unfold existsSync. apply bool_decide_eq_true. right. cbn [dirs set_dirs].
  apply elem_of_union_r, elem_of_list_to_set, ancestors_head.
Qed.

(** [dirname] never lengthens a path, and shortens one with a directory part. *)
Lemma beforeLastSlash_length p d :
  beforeLastSlash p = Some d → (String.length d < String.length p)%nat.
Proof.
  revert d. induction p as [|a p IH]; intros d; simpl; [done|].
  destruct (beforeLastSlash p) as [d'|].
  - intros [= <-]. simpl. specialize (IH d' eq_refl). lia.
  - destruct (Ascii.eqb a "/"); [|done]. intros [= <-]. simpl. lia.
Qed.

Lemma dirname_length p : p ≠ "" → (String.length (dirname p) ≤ String.length p)%nat.
Proof.
  intros Hp. unfold dirname. destruct (beforeLastSlash p) as [d|] eqn:E.
  - apply beforeLastSlash_length in E. destruct d; simpl in *; lia.
  - destruct p; [done|]. simpl. lia.
Qed.

Lemma dirname_nonempty p : dirname p ≠ "".
Proof. unfold dirname. by destruct (beforeLastSlash p) as [[|]|]. Qed.

Lemma ancestors_length fuel p q :
  p ≠ "" → q ∈ ancestors fuel p → (String.length q ≤ String.length p)%nat.
Proof.
  revert p. induction fuel as [|fuel IH]; intros p Hp; simpl; [by intros ?%elem_of_nil|].
  intros [->|Hq]%elem_of_cons; [done|].
  case_bool_decide; [by apply elem_of_nil in Hq|].
  apply IH in Hq; [|apply dirname_nonempty].
  pose proof (dirname_length p Hp). lia.
Qed.

(** A path is not among the directories above it. *)
Lemma not_own_ancestor fuel p :
  p ≠ "/" → p ≠ "." → p ∉ ancestors fuel (dirname p).
Proof.
  intros H1 H2 Hin. unfold dirname in Hin.
  destruct (beforeLastSlash p) as [d|] eqn:E.
  - destruct d as [|a d].
    + destruct fuel; simpl in Hin; [by apply elem_of_nil in Hin|].
      by apply list_elem_of_singleton in Hin.
    + apply beforeLastSlash_length in E.
      apply ancestors_length in Hin; [lia|done].
  - destruct fuel; simpl in Hin; [by apply elem_of_nil in Hin|].
    by apply list_elem_of_singleton in Hin.
Qed.

Lemma chmod_bits_perm old mode :
  Z.land (chmod_bits old mode) PERM_MASK = Z.land mode PERM_MASK.
Proof.
  unfold chmod_bits. rewrite Z.land_lor_distr_l, <- !Z.land_assoc.
  rewrite (Z.land_comm (Z.lnot PERM_MASK)), Z.land_lnot_diag, Z.land_0_r, Z.land_diag.
  apply Z.lor_0_l.
Qed.

(** The copy proper: [copyFileSync], then the permissions of the source. *)
Lemma copy_then_chmod source target w r w' :
  try_catch
    (copyFileSync source target;;
     let* mode := statSync source in
     chmodSync target mode;;
     ret true)
    (λ e, throw ("Failed to copy " +:+ source +:+ " to " +:+ target +:+ ": " +:+ e)) w
  = (r, w') →
  match r with
  | Ok copied =>
      copied = true ∧ dirs w' = dirs w
      ∧ (∀ p, p ≠ target → files w' !! p = files w !! p)
      ∧ ∃ s t, files w !! source = Some s ∧ files w' !! target = Some t
               ∧ f_data t = f_data s
               ∧ Z.land (f_mode t) PERM_MASK = Z.land (f_mode s) PERM_MASK
  | Throw e =>
      w' = w ∧ ∃ e', e = "Failed to copy " +:+ source +:+ " to " +:+ target +:+ ": " +:+ e'
  end.
Proof.
  unfold copyFileSync, store, statSync, chmodSync. unfold_M.
  destruct (files w !! source) as [s|] eqn:Hs; simpl.
  2: { case_bool_decide; intros [= <- <-]; eauto. }
  case_bool_decide; simpl; [intros [= <- <-]; eauto|].
  case_bool_decide as Hdw; simpl; [intros [= <- <-]; eauto|].
  destruct (files w !! target) as [t|] eqn:Ht; simpl.
  - destruct (decide (source = target)) as [->|Hne].
    + rewrite lookup_insert_eq. simpl. rewrite lookup_insert_eq.
      rewrite bool_decide_eq_false_2 by done. simpl.
      intros [= <- <-]. simpl. rewrite lookup_insert_eq.
      do 2 (split; [done|]).
      split; [intros p Hp; by rewrite !lookup_insert_ne|].
      exists s. eexists. repeat split; try done.
      simpl. rewrite chmod_bits_perm. congruence.
    + rewrite lookup_insert_ne by done. rewrite Hs. simpl. rewrite lookup_insert_eq.
      rewrite bool_decide_eq_false_2 by done. simpl.
      intros [= <- <-]. simpl. rewrite lookup_insert_eq.
      do 2 (split; [done|]).
      split; [intros p Hp; by rewrite !lookup_insert_ne|].
      exists s. eexists. repeat split; try done.
      simpl. by rewrite chmod_bits_perm.
  - case_bool_decide; simpl; [intros [= <- <-]; eauto|].
    destruct (blocked target w); simpl; [intros [= <- <-]; eauto|].
    case_bool_decide; simpl; [|intros [= <- <-]; eauto].
    assert (source ≠ target) as Hne by congruence.
    rewrite lookup_insert_ne by done. rewrite Hs. simpl. rewrite lookup_insert_eq.
    rewrite bool_decide_eq_false_2 by done. simpl.
    intros [= <- <-]. simpl. rewrite lookup_insert_eq.
    do 2 (split; [done|]).
    split; [intros p Hp; by rewrite !lookup_insert_ne|].
    exists s. eexists. repeat split; try done.
    simpl. by rewrite chmod_bits_perm.
Qed.

(** Without faults the copy proper succeeds. *)
Lemma copy_then_chmod_succeeds source target s w :
  files w !! source = Some s → source ∉ deny_read w → target ∉ deny_write w →
  (is_Some (files w !! target)
   ∨ (target ∉ dirs w) ∧ blocked target w = false ∧ dirname target ∈ dirs w) →
  ∃ w', try_catch
          (copyFileSync source target;;
           let* mode := statSync source in
           chmodSync target mode;;
           ret true)
          (λ e, throw ("Failed to copy " +:+ source +:+ " to " +:+ target +:+ ": " +:+ e)) w
        = (Ok true, w').
Proof.
  intros Hs Hr Hw Ht.
  unfold copyFileSync, store, statSync, chmodSync. unfold_M.
  rewrite Hs. simpl. rewrite !bool_decide_eq_false_2 by done. simpl.
  destruct (files w !! target) as [t|] eqn:Htgt; simpl.
  - destruct (decide (source = target)) as [->|Hne].
    + rewrite lookup_insert_eq. simpl. rewrite lookup_insert_eq.
      rewrite bool_decide_eq_false_2 by done. eauto.
    + rewrite lookup_insert_ne by done. rewrite Hs. simpl. rewrite lookup_insert_eq.
      rewrite bool_decide_eq_false_2 by done. eauto.
  - destruct Ht as [[? ?]|(Ht&->&Hd)]; [done|].
    rewrite bool_decide_eq_false_2 by done. rewrite bool_decide_eq_true_2 by done. simpl.
    assert (source ≠ target) as Hne by congruence.
    rewrite lookup_insert_ne by done. rewrite Hs. simpl. rewrite lookup_insert_eq.
    rewrite bool_decide_eq_false_2 by done. eauto.
Qed.

(** Past its two guards [copyFile] makes the directory and copies. *)
Lemma copyFile_copying source target overwrite w :
  existsSync source w = true → existsSync target w = false ∨ overwrite = true →
  copyFile source target false overwrite w
  = (ensureDirectoryExists (dirname target) false;;
     try_catch
       (copyFileSync source target;;
        let* mode := statSync source in
        chmodSync target mode;;
        ret true)
       (λ e, throw ("Failed to copy " +:+ source +:+ " to " +:+ target +:+ ": " +:+ e))) w.
Proof.
  intros Hsrc Hcase. unfold copyFile. unfold gets, bind at 1. rewrite Hsrc.
  cbn [negb]. unfold bind at 1.
  by destruct Hcase as [-> | ->]; [|rewrite andb_false_r].
Qed.

(** A real copy that returns has copied bytes and permission bits, and the
    parent directory of the target exists. *)
Lemma copyFile_copies source target overwrite w copied w' :
  existsSync source w = true → existsSync target w = false ∨ overwrite = true →
  copyFile source target false overwrite w = (Ok copied, w') →
  copied = true ∧ existsSync (dirname target) w' = true
  ∧ ∃ s t, files w !! source = Some s ∧ files w' !! target = Some t
           ∧ f_data t = f_data s
           ∧ Z.land (f_mode t) PERM_MASK = Z.land (f_mode s) PERM_MASK.
Proof.
  intros Hsrc Hcase. rewrite copyFile_copying by done.
  unfold bind at 1.
  destruct (ensureDirectoryExists (dirname target) false w) as [r1 w1] eqn:Hdir.
  apply ensureDirectoryExists_real in Hdir as [(->&->&Hex)|[(->&_&_&->)|(e&->&->&_)]];
    [| |done]; intros Hcopy; apply copy_then_chmod in Hcopy as (->&Hd&Hfr&Hst);
    (split; [done|]); (split; [|exact Hst]).
  - apply bool_decide_eq_true. apply bool_decide_eq_true in Hex as [Hf|Hin].
    + left. destruct (decide (dirname target = target)) as [Heq|Hne].
      * rewrite Heq. destruct Hst as (?&?&_&->&_). by eexists.
      * by rewrite Hfr.
    + right. by rewrite Hd.
  - apply bool_decide_eq_true. right. rewrite Hd. cbn [dirs set_dirs].
    apply elem_of_union_r, elem_of_list_to_set, ancestors_head.
Qed.

(** A real copy returns when nothing it reads or writes is denied, the
    target is an existing file or a name free for one, and the directory of
    the target exists or can be made. *)
Lemma copyFile_returns source target overwrite w s :
  files w !! source = Some s → source ∉ deny_read w →
  existsSync target w = false ∨ overwrite = true →
  target ∉ deny_write w →
  is_Some (files w !! target) ∨ (target ∉ dirs w) ∧ blocked target w = false →
  existsSync (dirname target) w = true
  ∧ (is_Some (files w !! target) ∨ dirname target ∈ dirs w)
  ∨ existsSync (dirname target) w = false ∧ (dirname target ∉ deny_write w)
    ∧ blocked (dirname target) w = false ∧ target ≠ "/" ∧ target ≠ "." →
  ∃ w', copyFile source target false overwrite w = (Ok true, w').
Proof.
  intros Hs Hr Hcase Hw Hnd Hparent.
  rewrite copyFile_copying by eauto using existsSync_file.
  unfold bind at 1.
  destruct (ensureDirectoryExists (dirname target) false w) as [r1 w1] eqn:Hdir.
  apply ensureDirectoryExists_real in Hdir
    as [(->&->&Hex)|[(->&Hex&Hdw&->)|(e&->&->&Hex&Hwhy)]].
  - apply (copy_then_chmod_succeeds _ _ s); auto.
    destruct Hparent as [[_ [?|Hd]]|(Hno&_)]; [by left| |congruence].
    destruct Hnd as [?|[? ?]]; [by left|by right].
  - apply (copy_then_chmod_succeeds _ _ s); auto.
    destruct Hnd as [?|[Hnd Hb]]; [by left|right]. cbn [dirs set_dirs].
    destruct Hparent as [[Hp _]|(_&_&_&?&?)]; [congruence|].
    split; [|split; [exact Hb|]].
    + intros [?|Hin%elem_of_list_to_set]%elem_of_union; [done|].
      by apply not_own_ancestor in Hin.
    + apply elem_of_union_r, elem_of_list_to_set, ancestors_head.
  - exfalso. destruct Hparent as [[Hp _]|(_&Hdw&Hb&_)]; [congruence|].
    destruct Hwhy as [?|?]; [done|congruence].
Qed.


(** ** Writing the installation record *)

(** *** Properties of objects *)

Lemma own_put_eq k x props : own k (put k x props) = Some x.
Proof.
  induction props as [|[k' v] props IH]; simpl.
  - by rewrite String.eqb_refl.
  - destruct (String.eqb k' k) eqn:E; simpl; rewrite E; done.
Qed.

Lemma own_put_ne k k' x props : k ≠ k' → own k' (put k x props) = own k' props.
Proof.
  intros Hne. induction props as [|[k0 v] props IH]; simpl.
  - by apply String.eqb_neq in Hne as ->.
  - destruct (String.eqb k0 k) eqn:E; simpl.
    + apply String.eqb_eq in E as ->. by apply String.eqb_neq in Hne as ->.
    + by rewrite IH.
Qed.

Lemma prop_with_prop_ne k k' x v : k ≠ k' → prop k' (with_prop k x v) = prop k' v.
Proof. intros Hne. destruct v; simpl; try done; by rewrite own_put_ne. Qed.

Lemma prop_with_prop_eq k x props : prop k (with_prop k x (JObject props)) = x.
Proof. simpl. by rewrite own_put_eq. Qed.


(** Giving the component [n] the entry [entry] leaves the shape of the
    record and the other entries. *)
Lemma entry_replaced metadata n entry :
  entries_are_objects metadata → (∃ props, entry = JObject props) →
  let metadata' :=
    with_prop "installedComponents"
      (with_prop n entry (prop "installedComponents" metadata)) metadata in
  entries_are_objects metadata'
  ∧ entry_of metadata' n = entry
  ∧ ∀ n', n' ≠ n → entry_of metadata' n' = entry_of metadata n'.
Proof.
  intros ([props ->]&[entries He]&Hobj) [e ->] metadata'.
  assert (prop "installedComponents" metadata' = JObject (put n (JObject e) entries)) as Hc.
  { unfold metadata'. rewrite He. apply prop_with_prop_eq. }
  assert (entry_of metadata' n = JObject e) as Hn.
  { unfold entry_of. rewrite Hc. simpl. by rewrite own_put_eq. }
  assert (∀ n', n' ≠ n → entry_of metadata' n' = entry_of (JObject props) n') as Hn'.
  { intros n' Hne. unfold entry_of. rewrite Hc, He. simpl. by rewrite own_put_ne. }
  split; [|done]. split; [by eexists|]. split; [by eexists|].
  intros c Hc' Ht. destruct (decide (name c = n)) as [<-|Hne].
  - rewrite Hn. by eexists.
  - rewrite Hn' in * by done. by apply Hobj.
Qed.

(** What one turn of a hashing loop does to the record. *)
Definition rehashed (m : Value) (c : Component) (m' : Value) (w : World) : Prop :=
  if existsSync (target c) w then
    truthy (entry_of m' (name c)) = true
    ∧ prop "hash" (entry_of m' (name c)) = of_hash (hash_of (target c) w)
    ∧ ∀ n, n ≠ name c → entry_of m' n = entry_of m n
  else m' = m.

Lemma created_turn_run m c w :
  entries_are_objects m →
  ∃ m', created_turn m c w = (Ok m', w) ∧ entries_are_objects m' ∧ rehashed m c m' w.
Proof.
  intros Hm. unfold created_turn, rehashed, isoNow. unfold gets, bind at 1.
  destruct (existsSync (target c) w); [|by eexists].
  unfold bind at 1. rewrite calculateFileHash_run. unfold gets, bind at 1.
  pose proof Hm as ([props ->]&[entries He]&_).
  unfold set_component. unfold bind at 1. rewrite get_run by done.
  unfold bind at 1. rewrite set_run by by rewrite He. unfold ret.
  eexists. split; [done|].
    lazymatch goal with
    | |- context [with_prop (name c) ?e _] =>
        destruct (entry_replaced (JObject props) (name c) e Hm) as (H1&H2&H3);
          [by eexists|]
    end.
  split; [exact H1|]. rewrite H2. done.
Qed.


Lemma manifest_names c c' :
  c ∈ getAllComponents → c' ∈ getAllComponents → name c = name c' → target c = target c'.
Proof.
  unfold getAllComponents.
  intros [->|[->|?%elem_of_nil]%elem_of_cons]%elem_of_cons
         [->|[->|?%elem_of_nil]%elem_of_cons]%elem_of_cons; done.
Qed.

Lemma rehash_loop (body : Value → Component → M Value) w cs :
  (∀ m c, c ∈ getAllComponents → entries_are_objects m →
     ∃ m', body m c w = (Ok m', w) ∧ entries_are_objects m' ∧ rehashed m c m' w) →
  ∀ seen m,
    (∀ c, c ∈ seen ++ cs → c ∈ getAllComponents) →
    entries_are_objects m → hashes_match m seen w →
    ∃ m', for_of cs body m w = (Ok m', w) ∧ entries_are_objects m'
          ∧ hashes_match m' (seen ++ cs) w.
Proof.
  intros Hbody. induction cs as [|c cs IH]; intros seen m Hall Hm Hseen; simpl.
  - exists m. by rewrite app_nil_r.
  - destruct (Hbody m c) as (m1&E&Hm1&Hturn); [|done|].
    { apply Hall, elem_of_app. right. by left. }
    unfold bind. rewrite E.
    replace (seen ++ c :: cs) with ((seen ++ [c]) ++ cs) in * by by rewrite <- List.app_assoc.
    apply IH; [done|done|].
    intros c0 Hc0 Hex. unfold rehashed in Hturn.
    destruct (existsSync (target c) w) eqn:Hc.
    + destruct Hturn as (Ht&Hh&Hothers).
      destruct (decide (name c0 = name c)) as [Hn|Hn].
      * rewrite Hn. split; [done|]. rewrite Hh. do 2 f_equal.
        apply manifest_names; [| |done]; apply Hall, elem_of_app; left; [|done].
        apply elem_of_app. right. by left.
      * rewrite Hothers by done.
        apply elem_of_app in Hc0 as [Hc0|Hc0%list_elem_of_singleton]; [|congruence].
        by apply Hseen.
    + subst m1.
      apply elem_of_app in Hc0 as [Hc0|Hc0%list_elem_of_singleton]; [|congruence].
      by apply Hseen.
Qed.


Lemma writeJSON_real p m w r w' :
  writeJSON p m false w = (r, w') →
  (r = Ok tt ∧ ∃ mode, w' = set_files (<[p := mkFile (JSON_stringify m) mode]> (files w)) w)
  ∨ (∃ e, r = Throw e ∧ w' = w).
Proof.
  unfold writeJSON, writeFileSync, store. unfold_M.
  case_bool_decide; simpl; [intros [= <- <-]; eauto|].
  destruct (files w !! p); simpl; [intros [= <- <-]; eauto|].
  destruct (blocked p w); repeat (case_bool_decide; simpl); intros [= <- <-]; eauto.
Qed.

Lemma fresh_metadata_run w :
  ∃ m, fresh_metadata w = (Ok m, w) ∧ entries_are_objects m.
Proof.
  unfold fresh_metadata, isoNow. unfold_M. eexists. split; [done|].
  split; [by eexists|]. split; [by eexists|]. by intros c _ [=].
Qed.



Lemma createMetadata_real w m w' :
  createMetadata false w = (Ok m, w') →
  entries_are_objects m ∧ hashes_match m getAllComponents w
  ∧ ∃ mode, w' = set_files (<[getMetadataPath := mkFile (JSON_stringify m) mode]> (files w)) w.
Proof.
  unfold createMetadata. unfold bind at 1.
  destruct (fresh_metadata_run w) as (m0&->&Hm0).
  unfold bind at 1.
  edestruct (rehash_loop created_turn w getAllComponents
               (λ m c _, created_turn_run m c w) []) as (m1&E&Hshape&Hm1);
    [by intros c Hc | exact Hm0 | by intros c ?%elem_of_nil |].
  rewrite E. cbn [negb]. unfold bind.
  destruct (writeJSON getMetadataPath m1 false w) as [r1 w1] eqn:Ew.
  apply writeJSON_real in Ew as [(->&mode&->)|(e&->&->)]; [|done].
  intros [= <- <-]. eauto.
Qed.




(** ** Backups *)

Lemma backupFile_real filePath w :
  backupFile filePath false w =
  if existsSync filePath w then
    match copyFileSync filePath (backupPath_of filePath w) w with
    | (Ok _, w') => (Ok (Some (backupPath_of filePath w)), w')
    | (Throw e, w') =>
        (Ok None, printed Warn ("Failed to backup " +:+ filePath +:+ ": " +:+ e) w')
    end
  else (Ok None, w).
Proof.
  unfold backupFile, backupPath_of. unfold_M.
  destruct (existsSync filePath w); simpl; [|done].
  by destruct (copyFileSync _ _ w) as [[?|?] ?].
Qed.

Lemma copyFileSync_throw_same src dst w e w' :
  copyFileSync src dst w = (Throw e, w') → w' = w.
Proof.
  unfold copyFileSync, store.
  destruct (files w !! src), (files w !! dst), (blocked dst w);
    repeat case_bool_decide; by intros [= <-].
Qed.

(** [resolveSourcePath] only looks at which files exist. *)
Lemma resolveSourcePath_run rel w :
  ∃ r, ∀ w1, same_fs w w1 → resolveSourcePath rel w1 = (r, w1).
Proof.
  unfold resolveSourcePath. unfold_M.
  destruct (existsSync (join (join package_dir "dist") rel) w) eqn:E1.
  - eexists. intros w1 Hs. rewrite (existsSync_same _ _ _ Hs), E1. reflexivity.
  - destruct (existsSync (join (dirname package_dir) rel) w) eqn:E2.
    + eexists. intros w1 Hs. rewrite (existsSync_same _ _ _ Hs), E1. cbv beta iota.
      rewrite (existsSync_same _ _ _ Hs), E2. reflexivity.
    + eexists. intros w1 Hs. rewrite (existsSync_same _ _ _ Hs), E1. cbv beta iota.
      rewrite (existsSync_same _ _ _ Hs), E2. reflexivity.
Qed.

Lemma resolveSourcePath_same rel w r w' : resolveSourcePath rel w = (r, w') → w' = w.
Proof.
  destruct (resolveSourcePath_run rel w) as [r' H].
  rewrite (H w); [|reflexivity]. by intros [= _ <-].
Qed.

(** C10: [backupFile] never raises.  When the file exists but copying it
    fails, it logs a warning, returns [null] and changes nothing else; the
    loop body of [update] then goes on to copy the shipped file over a
    customized component that is not preserved, although no backup exists. *)
Theorem backupFile_never_raises (filePath : string) (w : World) :
  (∀ dry, ∃ backupPath w', backupFile filePath dry w = (Ok backupPath, w'))
  ∧ (∀ e, existsSync filePath w = true →
       fst (copyFileSync filePath (backupPath_of filePath w) w) = Throw e →
       backupFile filePath false w
       = (Ok None, printed Warn ("Failed to backup " +:+ filePath +:+ ": " +:+ e) w))
  ∧ (∀ customized component e sourcePath s,
       target component = filePath →
       name component ∈ customized → preserveOnUpdate component = false →
       existsSync filePath w = true →
       fst (copyFileSync filePath (backupPath_of filePath w) w) = Throw e →
       resolveSourcePath (source component) w = (Ok sourcePath, w) →
       files w !! sourcePath = Some s → sourcePath ∉ deny_read w →
       filePath ∉ deny_write w → is_Some (files w !! filePath) →
       existsSync (dirname filePath) w = true →
       ∃ w' t,
         update_component false customized component w = (Ok turn_updated, w')
         ∧ (Warn, "Failed to backup " +:+ filePath +:+ ": " +:+ e) ∈ console w'
         ∧ files w' !! filePath = Some t ∧ f_data t = f_data s
         ∧ files w' !! backupPath_of filePath w = files w !! backupPath_of filePath w).
Proof.
  split; [|split].
  - intros [|].
    + unfold backupFile. unfold_M. destruct (existsSync filePath w); simpl; eauto.
    + rewrite backupFile_real. destruct (existsSync filePath w); [|eauto].
      destruct (copyFileSync _ _ w) as [[?|?] ?]; eauto.
  - intros e Hex Hcopy. rewrite backupFile_real, Hex.
    destruct (copyFileSync _ _ w) as [[?|e'] w'] eqn:E; simpl in Hcopy; [done|].
    injection Hcopy as ->. by rewrite (copyFileSync_throw_same _ _ _ _ _ E).
  - intros customized component e sourcePath s <- Hin Hpres Hex Hcopy Hres Hs Hr Hw Ht Hdir.
    set (w1 := printed Warn ("Failed to backup " +:+ target component +:+ ": " +:+ e) w).
    destruct (copyFile_returns sourcePath (target component) true w1 s) as [w' Hw'];
      [exact Hs | exact Hr | by right | exact Hw | left; exact Ht
      | left; split; [exact Hdir | left; exact Ht] |].
    destruct (copyFile_copies sourcePath (target component) true w1 true w'
                (existsSync_file sourcePath w1 s Hs) (or_intror eq_refl) Hw')
      as (_&_&s'&t&Hs'&Ht'&Hdata&_).
    assert (s' = s) as -> by (cbn in Hs'; congruence).
    assert (backupPath_of (target component) w ≠ target component) as Hbp.
    { intros Heq%(f_equal String.length). unfold backupPath_of in Heq.
      rewrite !string_app_length in Heq. simpl in Heq. lia. }
    exists w', t. split; [|split; [|split; [done|split; [done|]]]].
    + unfold update_component. unfold try_catch, bind at 1.
      rewrite bool_decide_eq_true_2, Hpres by done. cbn [andb negb].
      unfold bind at 1. unfold bind at 1.
      assert (backupFile (target component) false w = (Ok None, w1)) as ->.
      { rewrite backupFile_real, Hex.
        destruct (copyFileSync _ _ w) as [[?|e'] w2] eqn:E; simpl in Hcopy; [done|].
        injection Hcopy as ->. by rewrite (copyFileSync_throw_same _ _ _ _ _ E). }
      unfold ret at 1. unfold bind at 1.
      assert (resolveSourcePath (source component) w1 = (Ok sourcePath, w1)) as ->.
      { destruct (resolveSourcePath_run (source component) w) as [r' H].
        rewrite (H w) in Hres by reflexivity. injection Hres as ->.
        apply H, same_system_printed. }
      unfold bind at 1. by rewrite Hw'.
    + destruct (copyFile_write (eq (target component)) _ _ _ _ eq_refl _ _ _ Hw')
        as (_&_&->).
      apply elem_of_app. right. by left.
    + destruct (copyFile_write (eq (target component)) _ _ _ _ eq_refl _ _ _ Hw')
        as ((Hf&_)&_).
      by rewrite Hf.
Qed.


(** ** The service controller leaves the filesystem alone *)

Lemma bind_inv {A B} (m : M A) (k : A → M B) w r w' :
  bind m k w = (r, w') →
  (∃ a w1, m w = (Ok a, w1) ∧ k a w1 = (r, w'))
  ∨ (∃ e, m w = (Throw e, w') ∧ r = Throw e).
Proof.
  unfold bind. destruct (m w) as [[a|e] w1]; [eauto|].
  intros [= <- <-]. eauto.
Qed.

Lemma execSync_same_fs c : preserves same_fs (execSync c).
Proof.
  intros w r w'. unfold execSync, effect, answer.
  destruct c; repeat case_match; intros [= _ <-]; by repeat split.
Qed.

(** The queries do not change the supervisor's table either. *)
Lemma execSync_query c :
  (∀ p, c ≠ LaunchctlLoad p) → (∀ p, c ≠ LaunchctlUnload p) →
  preserves same_system (execSync c).
Proof.
  intros H1 H2 w r w'. unfold execSync, effect, answer.
  destruct c; try (by destruct (H1 plist)); try (by destruct (H2 plist));
    repeat case_match; intros [= _ <-]; by repeat split.
Qed.

#[local] Hint Resolve execSync_same_fs : frame.

Lemma error_same_fs s : preserves same_fs (error s).
Proof. eapply preserves_weaken; [apply same_system_fs|apply error_same]. Qed.

Lemma warn_same_fs s : preserves same_fs (warn s).
Proof. eapply preserves_weaken; [apply same_system_fs|apply warn_same]. Qed.

Lemma sleep_same_fs ms : preserves same_fs (sleep ms).
Proof. eapply preserves_weaken; [apply same_system_fs|apply sleep_same]. Qed.

#[local] Hint Resolve error_same_fs warn_same_fs sleep_same_fs : frame.

Lemma exec_same_fs c dry silent ignoreError :
  preserves same_fs (exec c dry silent ignoreError).
Proof. unfold exec. frames. Qed.

Lemma execOutput_query c dry ignoreError :
  (∀ p, c ≠ LaunchctlLoad p) → (∀ p, c ≠ LaunchctlUnload p) →
  preserves same_system (execOutput c dry ignoreError).
Proof. intros. unfold execOutput. pose proof (execSync_query c). frames. Qed.

Lemma isRunning_same : preserves same_system isRunning.
Proof.
  unfold isRunning.
  pose proof (execOutput_query LsofPort false true).
  pose proof (execOutput_query CurlHealth false true).
  frames.
Qed.

Lemma isLoaded_same : preserves same_system isLoaded.
Proof.
  unfold isLoaded. pose proof (execOutput_query (LaunchctlListGrep service_name) false true).
  frames.
Qed.

#[local] Hint Resolve isRunning_same isLoaded_same : frame.

Lemma getStatus_same : preserves same_system getStatus.
Proof. unfold getStatus. frames. Qed.

Lemma load_same_fs dry : preserves same_fs (load dry).
Proof. unfold load. pose proof exec_same_fs. frames. Qed.

Lemma unload_same_fs dry : preserves same_fs (unload dry).
Proof. unfold unload. pose proof exec_same_fs. frames. Qed.

(** ** Waiting for the daemon *)

Lemma isRunning_total w :
  ∃ b w', isRunning w = (Ok b, w')
    ∧ daemon w' = daemon w ∧ (now w ≤ now w')%Z
    ∧ ∃ cmds, journal w' = journal w ++ cmds ∧ Forall probe_command cmds.
Proof.
  unfold isRunning, execOutput, execSync, probe_command. unfold_M. cbn [answer effect].
  destruct (exit_ok (lsof (daemon w (now w)))); cbn -[trim].
  - destruct (bool_decide _ || bool_decide _); cbn -[trim].
    + do 2 eexists. split; [done|]. split; [done|]. split; [cbn [now tick ran]; lia|].
      exists [render LsofPort]. split; [done|]. constructor; [by left|constructor].
    + destruct (exit_ok (curl _)); cbn -[trim];
        (do 2 eexists; split; [done|]; split; [done|]; split; [cbn [now tick ran]; lia|];
         exists [render LsofPort; render CurlHealth]; split;
           [cbn [journal tick ran]; by rewrite <- List.app_assoc
           |constructor; [by left|constructor; [by right|constructor]]]).
  - do 2 eexists. split; [done|]. split; [done|]. split; [cbn [now tick ran]; lia|].
    exists [render LsofPort]. split; [done|]. constructor; [by left|constructor].
Qed.

Lemma waitForStart_loop_total fuel start tms w :
  (tms - (now w - start) ≤ 1000 * Z.of_nat fuel)%Z →
  ∃ b w', waitForStart_loop fuel start tms w = Some (Ok b, w')
    ∧ daemon w' = daemon w ∧ same_system w w' ∧ (now w ≤ now w')%Z
    ∧ (∃ cmds, journal w' = journal w ++ cmds ∧ Forall probe_command cmds)
    ∧ (b = false → (tms ≤ now w' - start)%Z).
Proof.
  revert w. induction fuel as [|fuel IH]; intros w Hfuel.
  - simpl. case_bool_decide; [lia|].
    exists false, w. repeat split; try done; try lia.
    exists []. by rewrite app_nil_r.
  - cbn [waitForStart_loop]. case_bool_decide.
    + destruct (isRunning_total w) as (b&w1&E&Hd&Hn&cmds&Hj&Hc).
      pose proof (isRunning_same _ _ _ E) as Hs. rewrite E.
      destruct b.
      * exists true, w1. repeat split; try done; try apply Hs. eauto.
      * unfold sleep, modify.
        destruct (IH (tick 1000 w1)) as (b&w'&E'&Hd'&Hs'&Hn'&(cmds'&Hj'&Hc')&Hb).
        { cbn [now tick]. lia. }
        exists b, w'. split; [done|]. split; [by rewrite Hd'|].
        split; [by etrans; [|apply Hs']; etrans; [apply Hs|apply same_system_tick]|].
        split; [cbn [now tick] in Hn'; lia|]. split; [|done].
        exists (cmds ++ cmds'). split; [|by apply Forall_app].
        rewrite Hj'. cbn [journal tick]. by rewrite Hj, <- List.app_assoc.
    + exists false, w. repeat split; try done; try lia.
      exists []. by rewrite app_nil_r.
Qed.

Lemma waitForStart_loop_down fuel start tms w0 w (L : Z) :
  (∀ w1, daemon w1 = daemon w0 →
     fst (isRunning w1) = Ok false ∧ (now (snd (isRunning w1)) - now w1 ≤ L)%Z) →
  daemon w = daemon w0 →
  (tms - (now w - start) ≤ 1000 * Z.of_nat fuel)%Z →
  ∃ w', waitForStart_loop fuel start tms w = Some (Ok false, w')
    ∧ ((now w - start < tms)%Z → (now w' - start < tms + 1000 + L)%Z)
    ∧ ((tms ≤ now w - start)%Z → w' = w).
Proof.
  intros Hdown. revert w. induction fuel as [|fuel IH]; intros w Hd Hfuel.
  - simpl. case_bool_decide; [lia|]. exists w. split; [done|]. split; [lia|done].
  - cbn [waitForStart_loop]. case_bool_decide.
    + destruct (isRunning_total w) as (b&w1&E&Hd1&Hn&_).
      destruct (Hdown w Hd) as [Hb HL]. rewrite E in Hb, HL. simpl in Hb, HL.
      injection Hb as ->. rewrite E. unfold sleep, modify.
      destruct (IH (tick 1000 w1)) as (w'&E'&Hlt&Hge).
      { cbn [daemon tick]. congruence. }
      { cbn [now tick]. lia. }
      exists w'. split; [done|]. split; [|lia]. intros _.
      destruct (decide (now (tick 1000 w1) - start < tms)%Z) as [Hc|Hc].
      * by apply Hlt.
      * rewrite Hge by lia. cbn [now tick]. lia.
    + exists w. split; [done|]. split; [lia|done].
Qed.

Lemma after_failed_polls_now k w :
  (now w + 1000 * Z.of_nat k ≤ now (Nat.iter k after_failed_poll w))%Z.
Proof.
  induction k as [|k IH]; [simpl; lia|].
  change (Nat.iter (S k) after_failed_poll w)
    with (after_failed_poll (Nat.iter k after_failed_poll w)).
  set (wk := Nat.iter k after_failed_poll w) in *. unfold after_failed_poll.
  destruct (isRunning_total wk) as (b&w1&E&_&Hn&_).
  rewrite E. cbn [snd now tick]. lia.
Qed.

Lemma waitForStart_loop_up k : ∀ fuel start tms w,
  (k < fuel)%nat →
  (∀ j, (j < k)%nat →
     fst (isRunning (Nat.iter j after_failed_poll w)) = Ok false
     ∧ (now (Nat.iter j after_failed_poll w) - start < tms)%Z) →
  (now (Nat.iter k after_failed_poll w) - start < tms)%Z →
  fst (isRunning (Nat.iter k after_failed_poll w)) = Ok true →
  waitForStart_loop fuel start tms w
  = Some (Ok true, snd (isRunning (Nat.iter k after_failed_poll w))).
Proof.
  induction k as [|k IH]; intros fuel start tms w Hfuel Hbefore Hin Hup.
  - destruct fuel; [lia|]. cbn [waitForStart_loop].
    change (Nat.iter 0 after_failed_poll w) with w in *.
    rewrite bool_decide_eq_true_2 by done.
    destruct (isRunning w) as [[[|]|] w1]; simpl in Hup; [done|discriminate Hup..].
  - destruct fuel; [lia|]. cbn [waitForStart_loop].
    destruct (Hbefore 0%nat) as [H0 Hn0]; [lia|].
    change (Nat.iter 0 after_failed_poll w) with w in *.
    rewrite bool_decide_eq_true_2 by done.
    rewrite Nat.iter_succ_r in Hin, Hup.
    destruct (isRunning w) as [[[|]|] w1] eqn:E; simpl in H0; try discriminate H0.
    unfold sleep, modify.
    assert (after_failed_poll w = tick 1000 w1) as Hw by (unfold after_failed_poll; by rewrite E).
    rewrite Hw in Hin, Hup. rewrite Nat.iter_succ_r, Hw.
    apply IH; [lia| |done|done].
    intros j Hj. specialize (Hbefore (S j)). rewrite Nat.iter_succ_r, Hw in Hbefore.
    apply Hbefore. lia.
Qed.

(** C6, amended: [waitForStart] always resolves, sleeping one second
    between probes and running nothing but the two commands of the health
    probe (never [launchctl load]), and leaves the filesystem and the
    supervisor's table as they were.  Against a daemon whose probe never
    succeeds it resolves [false], no sooner than [timeout] seconds after it
    started and sooner than [timeout] seconds plus one poll interval plus
    the time one probe takes (at most [L] milliseconds; with probes that
    take no time this is [timeout] plus one poll interval).  When the probe
    of some poll succeeds before the deadline, it resolves [true] right
    after that probe. *)
Theorem waitForStart_converges (timeout : Z) (w : World) :
  (∃ started w',
     waitForStart timeout w = (Ok started, w')
     ∧ same_system w w'
     ∧ (∃ cmds, journal w' = journal w ++ cmds ∧ Forall probe_command cmds)
     ∧ (started = false → (timeout * 1000 ≤ now w' - now w)%Z))
  ∧ (∀ L : Z,
       (∀ w1, daemon w1 = daemon w →
          fst (isRunning w1) = Ok false
          ∧ (now (snd (isRunning w1)) - now w1 ≤ L)%Z) →
       ∃ w', waitForStart timeout w = (Ok false, w')
         ∧ (timeout * 1000 ≤ now w' - now w)%Z
         ∧ ((0 < timeout)%Z → (now w' - now w < timeout * 1000 + 1000 + L)%Z))
  ∧ (∀ k : nat,
       (∀ j, (j < k)%nat →
          fst (isRunning (Nat.iter j after_failed_poll w)) = Ok false
          ∧ (now (Nat.iter j after_failed_poll w) - now w < timeout * 1000)%Z) →
       (now (Nat.iter k after_failed_poll w) - now w < timeout * 1000)%Z →
       fst (isRunning (Nat.iter k after_failed_poll w)) = Ok true →
       waitForStart timeout w
       = (Ok true, snd (isRunning (Nat.iter k after_failed_poll w)))).
Proof.
  assert (timeout * 1000 - (now w - now w) ≤ 1000 * Z.of_nat (Z.to_nat timeout))%Z
    as Hfuel by lia.
  split; [|split].
  - destruct (waitForStart_loop_total _ _ _ _ Hfuel) as (b&w'&E&_&Hs&_&Hj&Hb).
    exists b, w'. unfold waitForStart. by rewrite E.
  - intros L Hdown.
    destruct (waitForStart_loop_down _ _ _ w w L Hdown eq_refl Hfuel) as (w'&E&Hlt&Hge).
    destruct (waitForStart_loop_total _ _ _ _ Hfuel) as (b&w''&E'&_&_&_&_&Hb).
    rewrite E in E'. injection E' as <- <-.
    exists w'. unfold waitForStart. rewrite E. split; [done|].
    split; [by apply Hb|]. intros HT. apply Hlt. lia.
  - intros k Hbefore Hin Hup. unfold waitForStart.
    rewrite (waitForStart_loop_up k _ _ _ w); try done.
    pose proof (after_failed_polls_now k w). lia.
Qed.

(** ** Nothing to update *)

(** A record that counts as one was read without a warning. *)
Lemma readMetadata_some w :
  truthy (stored_record w) = true → readMetadata w = (Ok (stored_record w), w).
Proof.
  unfold stored_record, readMetadata, readJSON, readFileSync. unfold_M.
  destruct (files w !! getMetadataPath) as [f|] eqn:Hf; [|done].
  rewrite (existsSync_file _ _ _ Hf). simpl.
  rewrite Hf. case_bool_decide; [done|]. simpl.
  by destruct (JSON_parse (f_data f)).
Qed.

Lemma getInstalledVersion_run w :
  ∃ w', getInstalledVersion w
        = (Ok (if truthy (stored_record w) then prop "version" (stored_record w)
               else JNull), w')
        ∧ (w' = w ∨ ∃ e, w' = printed Warn e w)
        ∧ (truthy (stored_record w) = true → w' = w).
Proof.
  unfold getInstalledVersion. unfold bind.
  destruct (truthy (stored_record w)) eqn:Ht.
  - rewrite readMetadata_some by done. rewrite Ht.
    rewrite get_run by by apply truthy_not_nullish. eauto.
  - destruct (readMetadata_run w) as (w1&->&Hw1). rewrite Ht. unfold ret.
    exists w1. by repeat split.
Qed.

(** C9: when the installation exists, the recorded version is the
    manifest's and [force] is off, [update] answers that everything is up
    to date and leaves the world exactly as it found it: no file, no
    directory, no record, no supervisor state changes, and no command is
    run. *)
Theorem update_already_up_to_date (options : Options) (w : World) :
  fst (isInstalled w) = Ok true →
  fst (getInstalledVersion w) = Ok (JString package_version) →
  force options = false →
  update options w = (Ok update_alreadyUpToDate, w).
Proof.
  intros Hinst Hver Hforce. unfold update.
  unfold isInstalled, gets in *. unfold bind at 1. simpl in Hinst.
  injection Hinst as ->. cbn [negb].
  destruct (getInstalledVersion_run w) as (w1&E&_&Hquiet).
  rewrite E in Hver. simpl in Hver. injection Hver as Hver.
  destruct (truthy (stored_record w)); [|done]. rewrite (Hquiet eq_refl) in E.
  unfold bind at 1. rewrite E, Hver.
  unfold interpolate. cbn [converts]. unfold ret, bind. cbn [strict_eq].
  by rewrite String.eqb_refl, Hforce.
Qed.

(** ** What [update] touches *)

Lemma waitForStart_same timeout : preserves same_system (waitForStart timeout).
Proof.
  intros w r w' E. unfold waitForStart in E.
  destruct (waitForStart_loop_total (Z.to_nat timeout) (now w) (timeout * 1000) w)
    as (b&w''&E'&_&Hs&_); [lia|].
  rewrite E' in E. by injection E as <- <-.
Qed.

Lemma waitForStart_same_fs timeout : preserves same_fs (waitForStart timeout).
Proof. eapply preserves_weaken; [apply same_system_fs|apply waitForStart_same]. Qed.

Lemma isRunning_same_fs : preserves same_fs isRunning.
Proof. eapply preserves_weaken; [apply same_system_fs|apply isRunning_same]. Qed.

#[local] Hint Resolve load_same_fs unload_same_fs waitForStart_same_fs isRunning_same_fs
  : frame.

Lemma update_stop_same_fs dry : preserves same_fs (update_stop dry).
Proof. unfold update_stop. frames. Qed.

Lemma update_restart_same_fs dry wasRunning :
  preserves same_fs (update_restart dry wasRunning).
Proof. unfold update_restart. frames. Qed.

Lemma resolveSourcePath_write S rel : preserves (fs_write S) (resolveSourcePath rel).
Proof. unfold resolveSourcePath. frames. Qed.

Lemma getBunPath_write S : preserves (fs_write S) getBunPath.
Proof. unfold getBunPath. frames. Qed.

#[local] Hint Resolve resolveSourcePath_write getBunPath_write : frame.

Lemma createPlist_write (S : string → Prop) dry :
  S getLaunchAgentPath → preserves (fs_write S) (createPlist dry).
Proof. intros. unfold createPlist, generatePlist. frames. Qed.

#[local] Hint Resolve createPlist_write : frame.

Lemma update_launchagent_changed (S : string → Prop) dry :
  S getLaunchAgentPath → preserves (changed S) (update_launchagent dry).
Proof. intros. unfold update_launchagent. frames. Qed.

Lemma readMetadata_changed S : preserves (changed S) readMetadata.
Proof.
  eapply preserves_weaken; [|apply readMetadata_same].
  intros w w' H. by apply same_fs_changed, same_system_fs.
Qed.

#[local] Hint Resolve readMetadata_changed : frame.

Lemma updateAfterInstall_changed (S : string → Prop) dry isUpdate :
  S getMetadataPath → preserves (changed S) (updateAfterInstall dry isUpdate).
Proof.
  intros. unfold updateAfterInstall, updateMetadata, updated_turn, set_component,
    fresh_metadata, isoNow.
  frames.
Qed.

Lemma update_metadata_changed (S : string → Prop) dry :
  S getMetadataPath → preserves (changed S) (update_metadata dry).
Proof.
  intros. unfold update_metadata. pose proof updateAfterInstall_changed. frames.
Qed.

Lemma update_component_changed dry customized c :
  preserves (changed (λ q, q = target c ∨ backup_of (target c) q))
    (update_component dry customized c).
Proof.
  unfold update_component. frames.
Qed.

Lemma update_components_changed (S : string → Prop) dry customized cs :
  (∀ c, c ∈ cs → preserves (changed S) (update_component dry customized c)) →
  ∀ updated preserved,
    preserves (changed S) (update_components dry customized cs updated preserved).
Proof.
  induction cs as [|c cs IH]; intros Hcs updated preserved; cbn [update_components].
  - frames.
  - apply preserves_bind; [apply Hcs; by left|].
    intros []; try apply IH; try (intros; apply Hcs; by right). frames.
Qed.

Lemma getInstalledVersion_same : preserves same_system getInstalledVersion.
Proof. unfold getInstalledVersion. pose proof readMetadata_same. frames. Qed.

Lemma getCustomizedFiles_same : preserves same_system getCustomizedFiles.
Proof.
  intros w r w' E. destruct (without_components (stored_record w)) eqn:Hc.
  - destruct (getCustomizedFiles_throws w Hc) as (e&w''&E'&Hw).
    rewrite E in E'. injection E' as -> ->.
    destruct Hw as [->|[e' ->]]; [reflexivity|apply same_system_printed].
  - destruct (getCustomizedFiles_run w Hc) as (w''&E'&Hw).
    rewrite E in E'. injection E' as -> ->.
    destruct Hw as [->|[e ->]]; [reflexivity|apply same_system_printed].
Qed.

(** A [try]/[catch] whose handler only warns never throws. *)
Lemma try_warn_returns (body : M unit) (f : string → string) w r w' :
  try_catch body (λ e, warn (f e)) w = (r, w') → r = Ok tt.
Proof.
  unfold try_catch, warn, modify.
  destruct (body w) as [[[]|e] w1]; by intros [= <- _].
Qed.

Lemma update_launchagent_returns dry w r w' :
  update_launchagent dry w = (r, w') → r = Ok tt.
Proof. apply try_warn_returns. Qed.

Lemma update_metadata_returns dry w r w' :
  update_metadata dry w = (r, w') → r = Ok tt.
Proof. apply try_warn_returns. Qed.

Lemma update_restart_returns dry wasRunning w r w' :
  update_restart dry wasRunning w = (r, w') → r = Ok tt.
Proof.
  unfold update_restart. destruct wasRunning; [apply try_warn_returns|].
  by intros [= <- _].
Qed.

(** A customized component that is to be preserved is skipped. *)
Lemma update_component_preserved dry customized c w :
  name c ∈ customized → preserveOnUpdate c = true →
  update_component dry customized c w = (Ok turn_preserved, w).
Proof.
  intros Hin Hp. unfold update_component, try_catch.
  by rewrite bool_decide_eq_true_2, Hp.
Qed.

(** The loop only ever returns early with a failed required component. *)
Lemma update_component_return dry customized c w r w' :
  update_component dry customized c w = (Ok (turn_return r), w') →
  ∃ e, r = update_failed (name c) e.
Proof.
  unfold update_component, try_catch. cbv zeta.
  destruct (bool_decide (name c ∈ customized) && preserveOnUpdate c); [by intros [= ?]|].
  match goal with |- context [match ?m w with _ => _ end] =>
    destruct (m w) as [[t|e] w1] eqn:E end.
  - intros [= -> <-]. exfalso.
    apply bind_inv in E as [(?&?&_&E)|(?&_&?)]; [|done].
    apply bind_inv in E as [(?&?&_&E)|(?&_&?)]; [|done].
    apply bind_inv in E as [(?&?&_&E)|(?&_&?)]; [|done].
    by injection E.
  - destruct (bool_decide (type c = required)); unfold_M; intros Hr;
      inversion Hr; subst. by eexists.
Qed.

Lemma update_components_return dry customized cs : ∀ updated preserved w r w',
  update_components dry customized cs updated preserved w = (Ok (inl r), w') →
  ∃ c e, r = update_failed c e.
Proof.
  induction cs as [|c cs IH]; intros updated preserved w r w'; cbn [update_components].
  - by intros [= ?].
  - intros [(t&w1&E1&E2)|(e&_&?)]%bind_inv; [|done].
    destruct t; try by eapply IH.
    injection E2 as -> ->. apply update_component_return in E1 as [e ->]. eauto.
Qed.

Lemma update_components_cons dry customized c rest updated preserved :
  update_components dry customized (c :: rest) updated preserved
  = (let* turn := update_component dry customized c in
     match turn with
     | turn_updated =>
         update_components dry customized rest (updated ++ [name c]) preserved
     | turn_preserved =>
         update_components dry customized rest updated (preserved ++ [name c])
     | turn_skipped => update_components dry customized rest updated preserved
     | turn_return r => ret (inl r)
     end).
Proof. reflexivity. Qed.

Lemma voices_not_server_backup : ¬ backup_of getServerPath getVoicesPath.
Proof.
  intros [stamp H]. rewrite getServerPath_eq, getVoicesPath_eq, !string_app_assoc in H.
  apply (inj (String.app _)) in H. cbv [String.append] in H. discriminate H.
Qed.

Lemma metadata_not_server_backup : ¬ backup_of getServerPath getMetadataPath.
Proof.
  intros [stamp H]. rewrite getServerPath_eq, getMetadataPath_eq, !string_app_assoc in H.
  apply (inj (String.app _)) in H. cbv [String.append] in H. discriminate H.
Qed.

(** What [update] may write before it comes to the record, when the
    voices are preserved: the server, its backups, the plist. *)
Definition update_writes (q : string) : Prop :=
  (q = getServerPath ∨ backup_of getServerPath q) ∨ q = getLaunchAgentPath.

Lemma update_writes_not_voices : ¬ update_writes getVoicesPath.
Proof.
  intros [[H|H]|H].
  - by apply server_not_voices.
  - by apply voices_not_server_backup.
  - by apply plist_not_voices.
Qed.

Lemma update_writes_not_metadata : ¬ update_writes getMetadataPath.
Proof.
  intros [[H|H]|H].
  - by apply server_not_metadata.
  - by apply metadata_not_server_backup.
  - by apply plist_not_metadata.
Qed.

(** Turns a run [E : m w = (r, w')] and a goal [R w w'] into the frame
    property [preserves R m]. *)
Ltac run_frame E :=
  revert E;
  lazymatch goal with
  | |- ?m ?a = (?r, ?b) → ?R ?a ?b =>
      generalize a, r, b; change (preserves R m)
  end.


(** ** The command line *)

Lemma double_dash_is_dash arg : startsWith "--" arg = true → startsWith "-" arg = true.
Proof.
  unfold startsWith. destruct arg as [|a arg]; [done|]. cbn [String.prefix].
  destruct (Ascii.ascii_dec "-" a); [|done]. by destruct arg.
Qed.

(** A command word, as the loop of [parseArgs] tests it. *)
Lemma command_word_test arg :
  negb (startsWith "--" arg) && negb (startsWith "-" arg) = negb (startsWith "-" arg).
Proof.
  destruct (startsWith "--" arg) eqn:E; [|done].
  by rewrite (double_dash_is_dash _ E).
Qed.

(** The command [main] will look up, given what [parseArgs] has so far. *)
Definition effective (parsed : Parsed) : option string :=
  if no_command parsed then None else command parsed.

(** The options of both. *)
Definition or_options (o1 o2 : Options) : Options :=
  mkOptions (dryRun o1 || dryRun o2) (yes o1 || yes o2) (verbose o1 || verbose o2)
    (force o1 || force o2) (preserveLogs o1 || preserveLogs o2) (backup o1 || backup o2).

Lemma flags_nil : flags [] = mkOptions false false false false false false.
Proof. reflexivity. Qed.

Lemma or_options_false o :
  or_options o (mkOptions false false false false false false) = o.
Proof. destruct o. unfold or_options. simpl. by rewrite !orb_false_r. Qed.

Lemma or_options_false_l o :
  or_options (mkOptions false false false false false false) o = o.
Proof. by destruct o. Qed.

Lemma bool_decide_elem_cons (x a : string) (args : list string) :
  bool_decide (x ∈ a :: args) = bool_decide (x ∈ [a]) || bool_decide (x ∈ args).
Proof.
  rewrite <- bool_decide_or. apply bool_decide_ext.
  rewrite elem_of_cons, list_elem_of_singleton. done.
Qed.

(** The flags of a list are those of its head and those of its tail. *)
Lemma flags_cons arg rest : flags (arg :: rest) = or_options (flags [arg]) (flags rest).
Proof.
  unfold flags, or_options. cbn [dryRun yes verbose force preserveLogs backup].
  rewrite !bool_decide_or, !(bool_decide_elem_cons _ arg rest).
  f_equal;
    repeat match goal with
           | |- context [bool_decide ?P] => destruct (bool_decide P)
           end; reflexivity.
Qed.

Lemma or_options_assoc o1 o2 o3 :
  or_options (or_options o1 o2) o3 = or_options o1 (or_options o2 o3).
Proof. unfold or_options. simpl. by rewrite !orb_assoc. Qed.

Lemma words_cons arg rest : words (arg :: rest) = words [arg] ++ words rest.
Proof.
  unfold words. rewrite (filter_cons _ arg rest), (filter_cons _ arg []), filter_nil.
  by destruct (decide _).
Qed.

Lemma words_dash arg : startsWith "-" arg = true → words [arg] = [].
Proof.
  intros H. unfold words. rewrite filter_cons, filter_nil, H. simpl.
  by repeat case_decide.
Qed.

Lemma words_word arg :
  startsWith "-" arg = false →
  head (words [arg]) = if bool_decide (arg = "") then None else Some arg.
Proof.
  intros H. unfold words. rewrite filter_cons, filter_nil, H. simpl.
  case_bool_decide; simpl; by repeat case_decide.
Qed.

(** An argument that is none of the flags sets no option. *)
Lemma flags_other arg :
  arg ∉ ["--dry-run"; "--yes"; "-y"; "--verbose"; "--force"; "-f";
         "--preserve-logs"; "--backup"] →
  flags [arg] = mkOptions false false false false false false.
Proof.
  intros H. unfold flags.
  rewrite !bool_decide_eq_false_2; [done|..];
    rewrite ?list_elem_of_singleton; intros Hin;
    try (destruct Hin as [Hin|Hin]); subst arg; apply H;
    repeat first [apply list_elem_of_here | apply list_elem_of_further].
Qed.

(** What one turn of the loop of [parseArgs] does, by the argument. *)
Lemma parse_arg_cases parsed arg :
  (exit_flag arg = true ∧ parse_arg parsed arg = inl 0%Z)
  ∨ (exit_flag arg = false
     ∧ ∃ parsed', parse_arg parsed arg = inr parsed'
         ∧ options parsed' = or_options (options parsed) (flags [arg])
         ∧ effective parsed' = match effective parsed with
                               | Some c => Some c
                               | None => head (words [arg])
                               end).
Proof.
  destruct (decide (arg ∈ ["--help"; "-h"; "--version"; "-v"])) as [Hexit|Hexit].
  { left. repeat (apply elem_of_cons in Hexit as [->|Hexit]; [by vm_compute|]).
    by apply elem_of_nil in Hexit. }
  right. split; [by apply bool_decide_eq_false|].
  destruct (decide (arg ∈ ["--dry-run"; "--yes"; "-y"; "--verbose"; "--force"; "-f";
                            "--preserve-logs"; "--backup"])) as [Hflag|Hflag].
  { repeat (apply elem_of_cons in Hflag as [->|Hflag];
            [eexists; split; [reflexivity|]; split;
               [destruct parsed as [c [? ? ? ? ? ?]]; unfold or_options; cbn;
                by rewrite ?orb_true_r, ?orb_false_r
               |by destruct (effective parsed) eqn:E;
                  unfold effective, no_command in *; cbn in *; rewrite E]|]).
    by apply elem_of_nil in Hflag. }
  rewrite (flags_other _ Hflag), or_options_false.
  unfold parse_arg.
  rewrite !bool_decide_eq_false_2;
    [|intros ->;
      first [ solve [apply Hexit;
                     repeat first [apply list_elem_of_here | apply list_elem_of_further]]
            | solve [apply Hflag;
                     repeat first [apply list_elem_of_here | apply list_elem_of_further]] ]..].
  cbn [orb]. rewrite command_word_test.
  destruct (startsWith "-" arg) eqn:Hdash; cbn [negb].
  - exists parsed. rewrite (words_dash _ Hdash). by destruct (effective parsed).
  - rewrite (words_word _ Hdash). unfold effective.
    destruct (no_command parsed) eqn:Hno.
    + eexists. split; [reflexivity|]. split; [done|].
      unfold no_command, with_command. cbn [command].
      done.
    + exists parsed. do 2 (split; [done|]). rewrite Hno. unfold no_command in Hno.
      by destruct (command parsed).
Qed.

Lemma head_app {A} (l1 l2 : list A) :
  head (l1 ++ l2) = match head l1 with Some c => Some c | None => head l2 end.
Proof. by destruct l1. Qed.

(** The loop of [parseArgs]: it ends the process at the first exit flag, and
    otherwise collects the flags and keeps the first command word. *)
Lemma parse_loop_run args : ∀ parsed,
  if existsb exit_flag args then parse_loop args parsed = inl 0%Z
  else ∃ parsed', parse_loop args parsed = inr parsed'
         ∧ options parsed' = or_options (options parsed) (flags args)
         ∧ effective parsed' = match effective parsed with
                               | Some c => Some c
                               | None => head (words args)
                               end.
Proof.
  induction args as [|arg rest IH]; intros parsed.
  - simpl. exists parsed. rewrite flags_nil, or_options_false.
    by destruct (effective parsed).
  - cbn [existsb parse_loop].
    destruct (parse_arg_cases parsed arg) as [[-> ->]|(->&parsed1&->&Ho&He)]; [done|].
    cbn [orb]. specialize (IH parsed1).
    destruct (existsb exit_flag rest); [done|].
    destruct IH as (parsed'&->&Ho'&He'). exists parsed'. split; [done|].
    rewrite Ho', Ho, or_options_assoc, <- flags_cons. split; [done|].
    rewrite He', He, (words_cons arg rest), head_app. by destruct (effective parsed).
Qed.

(** [parseArgs] on the whole command line. *)
Lemma parseArgs_parse (argv : list string) :
  if existsb exit_flag (drop 2 argv) then parseArgs argv = inl 0%Z
  else ∃ parsed,
         parseArgs argv = inr parsed
         ∧ options parsed = flags (drop 2 argv)
         ∧ effective parsed = head (words (drop 2 argv)).
Proof.
  unfold parseArgs.
  pose proof (parse_loop_run (drop 2 argv)
                (mkParsed None (mkOptions false false false false false false))) as H.
  destruct (existsb exit_flag (drop 2 argv)); [done|].
  destruct H as (parsed&E&Ho&He). exists parsed. split; [done|].
  by rewrite Ho, or_options_false_l.
Qed.

(** The command [main] looks up is the effective one, or [status]. *)
Lemma effective_command parsed :
  (if no_command parsed then "status" else default "status" (command parsed))
  = default "status" (effective parsed).
Proof. unfold effective. by destruct (no_command parsed). Qed.

(** ** Dry runs *)

#[local] Instance only_asked_preorder : PreOrder only_asked.
Proof.
  split.
  - intros w. split; [reflexivity|]. exists []. by rewrite app_nil_r.
  - intros w1 w2 w3 [H1 (c1&E1&F1)] [H2 (c2&E2&F2)]. split; [by etrans|].
    exists (c1 ++ c2). rewrite E2, E1, app_assoc. split; [done|by apply Forall_app].
Qed.

Lemma only_asked_same w w' : only_asked w w' → same_system w w'.
Proof. by intros [? _]. Qed.

Lemma only_asked_printed l s w : only_asked w (printed l s w).
Proof. split; [apply same_system_printed|]. exists []. by rewrite app_nil_r. Qed.

Lemma only_asked_tick ms w : only_asked w (tick ms w).
Proof. split; [apply same_system_tick|]. exists []. by rewrite app_nil_r. Qed.

Create HintDb asked discriminated.

Lemma warn_asked s : preserves only_asked (warn s).
Proof. apply preserves_modify. intros w. apply only_asked_printed. Qed.

Lemma error_asked s : preserves only_asked (error s).
Proof. apply preserves_modify. intros w. apply only_asked_printed. Qed.

Lemma sleep_asked ms : preserves only_asked (sleep ms).
Proof. apply preserves_modify. intros w. apply only_asked_tick. Qed.

Lemma readFileSync_asked p : preserves only_asked (readFileSync p).
Proof.
  intros w r w'. unfold readFileSync.
  destruct (files w !! p); repeat case_bool_decide; intros [= _ <-]; reflexivity.
Qed.

(** A query leaves its line in the journal and takes its time. *)
Lemma execSync_asked c :
  query_command (render c) → preserves only_asked (execSync c).
Proof.
  intros Hq w r w' E.
  assert (w' = tick (Z.of_nat (took (answer c w))) (ran (render c) w)) as ->.
  { revert E. unfold execSync.
    assert (effect c (answer c w) (ran (render c) w) = ran (render c) w) as ->.
    { destruct Hq as [Hq|[Hq|Hq]]; destruct c; try done; simpl in Hq;
        by apply (inj (String.app _)) in Hq. }
    by destruct (exit_ok _); intros [= _ <-]. }
  split; [etrans; [apply same_system_ran|apply same_system_tick]|].
  exists [render c]. split; [done|]. by apply Forall_singleton.
Qed.

#[local] Hint Resolve warn_asked error_asked sleep_asked readFileSync_asked : asked.

(** One step along the structure of a computation, a dry run's tests
    evaluated. *)
Ltac ask_step :=
  first [ progress cbn [negb andb orb] | rewrite andb_false_r | frame_step ].
Ltac asks := repeat ask_step; eauto with asked.

Lemma execOutput_asked c dry ignoreError :
  query_command (render c) → preserves only_asked (execOutput c dry ignoreError).
Proof. intros. unfold execOutput. pose proof (execSync_asked c). asks. Qed.

Lemma lsof_asked dry ignoreError :
  preserves only_asked (execOutput LsofPort dry ignoreError).
Proof. apply execOutput_asked. right. by left. Qed.

Lemma curl_asked dry ignoreError :
  preserves only_asked (execOutput CurlHealth dry ignoreError).
Proof. apply execOutput_asked. right. by right. Qed.

Lemma launchctl_list_asked dry ignoreError :
  preserves only_asked (execOutput (LaunchctlListGrep service_name) dry ignoreError).
Proof. apply execOutput_asked. by left. Qed.

#[local] Hint Resolve lsof_asked curl_asked launchctl_list_asked : asked.

Lemma isRunning_asked : preserves only_asked isRunning.
Proof. unfold isRunning. asks. Qed.

Lemma isLoaded_asked : preserves only_asked isLoaded.
Proof. unfold isLoaded. asks. Qed.

#[local] Hint Resolve isRunning_asked isLoaded_asked : asked.

Lemma getStatus_asked : preserves only_asked getStatus.
Proof. unfold getStatus. asks. Qed.

Lemma calculateFileHash_asked p : preserves only_asked (calculateFileHash p).
Proof. unfold calculateFileHash. asks. Qed.

Lemma readMetadata_asked : preserves only_asked readMetadata.
Proof. unfold readMetadata, readJSON. asks. Qed.

#[local] Hint Resolve getStatus_asked calculateFileHash_asked readMetadata_asked : asked.

Lemma getCustomizedFiles_asked : preserves only_asked getCustomizedFiles.
Proof. unfold getCustomizedFiles, customized_turn. asks. Qed.

Lemma getInstalledVersion_asked : preserves only_asked getInstalledVersion.
Proof. unfold getInstalledVersion. asks. Qed.

Lemma resolveSourcePath_asked rel : preserves only_asked (resolveSourcePath rel).
Proof. unfold resolveSourcePath. asks. Qed.

#[local] Hint Resolve getCustomizedFiles_asked getInstalledVersion_asked
  resolveSourcePath_asked : asked.

(** The operations that write, in a dry run. *)
Lemma copyFile_dry source target overwrite :
  preserves only_asked (copyFile source target true overwrite).
Proof. unfold copyFile. asks. Qed.

Lemma ensureDirectoryExists_dry d : preserves only_asked (ensureDirectoryExists d true).
Proof. unfold ensureDirectoryExists. asks. Qed.

Lemma removeFile_dry p : preserves only_asked (removeFile p true).
Proof. unfold removeFile. asks. Qed.

Lemma removeDirectory_dry p : preserves only_asked (removeDirectory p true).
Proof. unfold removeDirectory. asks. Qed.

Lemma backupFile_dry p : preserves only_asked (backupFile p true).
Proof. unfold backupFile. asks. Qed.

Lemma createPlist_dry : preserves only_asked (createPlist true).
Proof. unfold createPlist. asks. Qed.

Lemma removePlist_dry : preserves only_asked (removePlist true).
Proof. unfold removePlist. asks. Qed.

Lemma load_dry : preserves only_asked (load true).
Proof. unfold load. asks. Qed.

Lemma unload_dry : preserves only_asked (unload true).
Proof. unfold unload. asks. Qed.

Lemma createMetadata_dry : preserves only_asked (createMetadata true).
Proof. unfold createMetadata, fresh_metadata, created_turn, set_component, isoNow. asks. Qed.

Lemma updateAfterInstall_dry isUpdate :
  preserves only_asked (updateAfterInstall true isUpdate).
Proof.
  unfold updateAfterInstall, fresh_metadata, updated_turn, set_component, isoNow. asks.
Qed.

#[local] Hint Resolve copyFile_dry ensureDirectoryExists_dry removeFile_dry
  removeDirectory_dry backupFile_dry createPlist_dry removePlist_dry load_dry
  unload_dry createMetadata_dry updateAfterInstall_dry : asked.

Lemma isInstalled_asked : preserves only_asked isInstalled.
Proof. unfold isInstalled. asks. Qed.

#[local] Hint Resolve isInstalled_asked : asked.

Lemma update_component_dry customized c :
  preserves only_asked (update_component true customized c).
Proof. unfold update_component. asks. Qed.

Lemma update_components_dry customized cs : ∀ updated preserved,
  preserves only_asked (update_components true customized cs updated preserved).
Proof.
  induction cs as [|c cs IH]; intros updated preserved; cbn [update_components].
  - asks.
  - apply preserves_bind; [apply update_component_dry|]. intros []; try apply IH. asks.
Qed.

#[local] Hint Resolve update_components_dry : asked.

(** X9: A dry run of [update] writes no file, makes and removes no
    directory, does not change what the supervisor has loaded, and runs no
    command but queries (the supervisor's list and the two probes of the
    daemon): whatever is installed, whatever it returns. *)
Theorem update_dry_run (options : Options) (w : World) (r : Res UpdateResult)
    (w' : World) :
  dryRun options = true → update options w = (r, w') → only_asked w w'.
Proof.
  intros Hdry. revert w r w'. change (preserves only_asked (update options)).
  unfold update, update_stop, update_launchagent, update_metadata, update_restart.
  rewrite Hdry. asks.
Qed.

(** X10: A dry run of [uninstall] removes nothing and makes no backup: it
    writes no file, makes and removes no directory, does not change what
    the supervisor has loaded, and runs no command but queries. *)
Theorem uninstall_dry_run (options : Options) (w : World) (r : Res UninstallResult)
    (w' : World) :
  dryRun options = true → uninstall options w = (r, w') → only_asked w w'.
Proof.
  intros Hdry. revert w r w'. change (preserves only_asked (uninstall options)).
  unfold uninstall. rewrite Hdry. asks.
Qed.

Lemma start_dry options : dryRun options = true → preserves only_asked (start options).
Proof. intros Hdry. unfold start. rewrite Hdry. asks. Qed.

Lemma stop_dry options : dryRun options = true → preserves only_asked (stop options).
Proof. intros Hdry. unfold stop. rewrite Hdry. asks. Qed.

(** X12: Dry runs of [start], [stop] and [restart] ask the supervisor and
    probe the daemon, and do nothing else: the agent is neither loaded
    nor unloaded. *)
Theorem service_dry_run (options : Options) (w w' : World) :
  dryRun options = true →
  (∀ r, start options w = (r, w') → only_asked w w')
  ∧ (∀ r, stop options w = (r, w') → only_asked w w')
  ∧ (∀ r, restart options w = (r, w') → only_asked w w').
Proof.
  intros Hdry. split; [|split]; intros r.
  - by apply start_dry.
  - by apply stop_dry.
  - revert w r w'. change (preserves only_asked (restart options)).
    unfold restart. rewrite Hdry.
    pose proof (start_dry (only_dryRun true) eq_refl).
    pose proof (stop_dry (only_dryRun true) eq_refl).
    asks.
Qed.

(** X8: The file operations in a dry run.  None changes anything.
    [removeFile], [removeDirectory] and [ensureDirectoryExists] do their
    existence check before they look at the flag and answer what it
    found, which is the answer of every real run that returns.
    [copyFile] looks at nothing: its dry run returns [true] also when the
    source does not exist, where the real run throws. *)
Theorem file_operations_dry_run (filePath source target : string)
    (overwrite : bool) (w : World) :
  removeFile filePath true w = (Ok (existsSync filePath w), w)
  ∧ removeDirectory filePath true w = (Ok (existsSync filePath w), w)
  ∧ ensureDirectoryExists filePath true w = (Ok (negb (existsSync filePath w)), w)
  ∧ copyFile source target true overwrite w = (Ok true, w)
  ∧ (∀ b w', removeFile filePath false w = (Ok b, w') → b = existsSync filePath w)
  ∧ (∀ b w', removeDirectory filePath false w = (Ok b, w') → b = existsSync filePath w)
  ∧ (∀ b w', ensureDirectoryExists filePath false w = (Ok b, w') →
       b = negb (existsSync filePath w))
  ∧ (existsSync source w = false →
     copyFile source target false overwrite w
     = (Throw ("Source file not found: " +:+ source), w)).
Proof.
  split; [|split; [|split; [|split; [|split; [|split; [|split]]]]]].
  - unfold removeFile. unfold_M. by destruct (existsSync filePath w).
  - unfold removeDirectory. unfold_M. by destruct (existsSync filePath w).
  - unfold ensureDirectoryExists. unfold_M. by destruct (existsSync filePath w).
  - reflexivity.
  - intros b w'. unfold removeFile, unlinkSync. unfold_M.
    destruct (existsSync filePath w); cbn [negb]; [|by intros [= <- _]].
    destruct (files w !! filePath); repeat case_bool_decide; by intros [= <- _].
  - intros b w'. unfold removeDirectory, rmSync. unfold_M.
    destruct (existsSync filePath w); cbn [negb]; [|by intros [= <- _]].
    repeat case_bool_decide; by intros [= <- _].
  - intros b w'. unfold ensureDirectoryExists, mkdirSync. unfold_M.
    destruct (existsSync filePath w); cbn [negb]; [by intros [= <- _]|].
    fs_cases; by intros [= <- _].
  - intros Hsrc. unfold copyFile. unfold_M. by rewrite Hsrc.
Qed.

(** ** What the service commands leave alone *)

Lemma getStatus_same_fs : preserves same_fs getStatus.
Proof. eapply preserves_weaken; [apply same_system_fs|apply getStatus_same]. Qed.

#[local] Hint Resolve getStatus_same_fs : frame.

Lemma start_same_fs options : preserves same_fs (start options).
Proof. unfold start, isInstalled. frames. Qed.

Lemma stop_same_fs options : preserves same_fs (stop options).
Proof. unfold stop, isInstalled. frames. Qed.

Lemma restart_same_fs options : preserves same_fs (restart options).
Proof.
  unfold restart. pose proof start_same_fs. pose proof stop_same_fs. frames.
Qed.

Lemma verify_asked options : preserves only_asked (verify options).
Proof. unfold verify, verify_component. asks. Qed.

(** ** Computations that never throw *)

Lemma returns_ret {A} (a : A) : returns (ret a).
Proof. intros w. by eexists _, _. Qed.

Lemma returns_gets {A} (f : World → A) : returns (gets f).
Proof. intros w. by eexists _, _. Qed.

Lemma returns_modify (f : World → World) : returns (modify f).
Proof. intros w. by eexists _, _. Qed.

Lemma returns_bind {A B} (m : M A) (k : A → M B) :
  returns m → (∀ a, returns (k a)) → returns (bind m k).
Proof.
  intros Hm Hk w. unfold bind. destruct (Hm w) as (a&w1&->). apply Hk.
Qed.

(** A [try] whose [catch] never throws never throws. *)
Lemma returns_try_catch {A} (body : M A) (handler : string → M A) :
  (∀ e, returns (handler e)) → returns (try_catch body handler).
Proof.
  intros Hh w. unfold try_catch. destruct (body w) as [[a|e] w1]; [by eexists _, _|].
  apply Hh.
Qed.

Lemma returns_for_of {A S} (xs : list A) (body : S → A → M S) (s : S) :
  (∀ s x, returns (body s x)) → returns (for_of xs body s).
Proof.
  intros H. revert s. induction xs as [|x xs IH]; intros s; simpl.
  - apply returns_ret.
  - apply returns_bind; [apply H | intros s'; apply IH].
Qed.

Create HintDb returns discriminated.

Ltac returns_step :=
  lazymatch goal with
  | |- returns (ret _) => apply returns_ret
  | |- returns (gets _) => apply returns_gets
  | |- returns (modify _) => apply returns_modify
  | |- returns (warn _) => apply returns_modify
  | |- returns (error _) => apply returns_modify
  | |- returns (sleep _) => apply returns_modify
  | |- returns (bind _ _) => apply returns_bind; [|intros ?]
  | |- returns (try_catch _ _) => apply returns_try_catch; intros ?
  | |- returns (for_of _ _ _) => apply returns_for_of; intros ? ?
  | |- returns (if ?b then _ else _) => destruct b
  | |- returns (match ?x with _ => _ end) => destruct x
  end.

Ltac total := repeat returns_step; eauto with returns.

Lemma isInstalled_returns : returns isInstalled.
Proof. unfold isInstalled. total. Qed.

Lemma calculateFileHash_returns p : returns (calculateFileHash p).
Proof. unfold calculateFileHash. total. Qed.

Lemma readMetadata_returns : returns readMetadata.
Proof. unfold readMetadata. total. Qed.

#[local] Hint Resolve isInstalled_returns calculateFileHash_returns
  readMetadata_returns : returns.

Lemma getInstalledVersion_returns : returns getInstalledVersion.
Proof. intros w. destruct (getInstalledVersion_run w) as (w'&->&_). by eexists _, _. Qed.

Lemma isRunning_returns : returns isRunning.
Proof. unfold isRunning. total. Qed.

Lemma isLoaded_returns : returns isLoaded.
Proof. unfold isLoaded. total. Qed.

#[local] Hint Resolve getInstalledVersion_returns isRunning_returns isLoaded_returns
  : returns.

Lemma getStatus_returns : returns getStatus.
Proof. unfold getStatus. total. Qed.

#[local] Hint Resolve getStatus_returns : returns.

Lemma update_component_returns dry customized c :
  returns (update_component dry customized c).
Proof. unfold update_component. total. Qed.

Lemma update_components_returns dry customized cs : ∀ updated preserved,
  returns (update_components dry customized cs updated preserved).
Proof.
  induction cs as [|c cs IH]; intros updated preserved; cbn [update_components].
  - total.
  - apply returns_bind; [apply update_component_returns|]. intros []; try apply IH. total.
Qed.

#[local] Hint Resolve update_components_returns : returns.

(** What follows a computation that never throws returns where that
    computation has led. *)
Ltac rest_returns :=
  cbv beta iota;
  lazymatch goal with
  | |- ∃ a w', ?m ?w = (Ok a, w') =>
      let H := fresh in
      cut (returns m); [intros H; apply H|]
  end.

(** [update] returns where it can print the version of the record and
    [getCustomizedFiles] finds the entries of the record. *)
Lemma update_returns options w :
  without_components (stored_record w) = false →
  converts (prop "version" (stored_record w)) = true →
  ∃ r w', update options w = (Ok r, w').
Proof.
  intros Hc Hv. unfold update. unfold isInstalled, gets, bind at 1.
  destruct (existsSync getMetadataPath w && existsSync getServerPath w); cbn [negb].
  2: { rest_returns. total. }
  destruct (getInstalledVersion_run w) as (w1&E&Hw1&_).
  unfold bind at 1. rewrite E.
  assert (same_fs w w1) as Hs.
  { destruct Hw1 as [->|[e ->]]; [reflexivity | apply same_system_printed]. }
  unfold bind at 1. unfold interpolate at 1.
  replace (converts _) with true by by destruct (truthy (stored_record w)).
  unfold ret at 1. cbv beta iota.
  destruct (strict_eq _ _ && negb (force options)); [by eexists _, _|].
  rewrite <- (stored_record_same _ _ Hs) in Hc.
  destruct (getCustomizedFiles_run w1 Hc) as (w2&E2&_).
  unfold bind at 1. rewrite E2. rest_returns.
  unfold update_stop, update_launchagent, update_metadata, update_restart. total.
Qed.

(** [uninstall] returns where [getCustomizedFiles] finds the entries of
    the record. *)
Lemma uninstall_returns options w :
  without_components (stored_record w) = false →
  ∃ r w', uninstall options w = (Ok r, w').
Proof.
  intros Hc. unfold uninstall. unfold isInstalled, gets, bind at 1.
  destruct (existsSync getMetadataPath w && existsSync getServerPath w); cbn [negb].
  2: { rest_returns. total. }
  destruct (readMetadata_run w) as (w1&E&Hw1).
  unfold bind at 1. rewrite E.
  assert (same_fs w w1) as Hs.
  { destruct Hw1 as [->|[e ->]]; [reflexivity | apply same_system_printed]. }
  rewrite <- (stored_record_same _ _ Hs) in Hc.
  destruct (getCustomizedFiles_run w1 Hc) as (w2&E2&_).
  unfold bind at 1. rewrite E2. rest_returns. total.
Qed.

Lemma start_returns options : returns (start options).
Proof. unfold start. total. Qed.

Lemma stop_returns options : returns (stop options).
Proof. unfold stop. total. Qed.

Lemma restart_returns options : returns (restart options).
Proof. unfold restart. pose proof start_returns. pose proof stop_returns. total. Qed.

Lemma verify_returns options : returns (verify options).
Proof. unfold verify, verify_component. total. Qed.

(** ** What [verify] decides *)

Lemma ensures_ret {A} (P : A → Prop) (a : A) : P a → ensures P (ret a).
Proof. intros H w. by eexists _, _. Qed.

Lemma ensures_bind {A B} (P : B → Prop) (m : M A) (k : A → M B) :
  returns m → (∀ a, ensures P (k a)) → ensures P (bind m k).
Proof.
  intros Hm Hk w. unfold bind. destruct (Hm w) as (a&w1&->). apply Hk.
Qed.

Ltac ensures_step :=
  lazymatch goal with
  | |- ensures _ (ret _) => apply ensures_ret
  | |- ensures _ (bind _ _) => apply ensures_bind; [total|intros ?]
  | |- ensures _ (if ?b then _ else _) => destruct b
  | |- ensures _ (match ?x with _ => _ end) => destruct x
  end.

(** The component loop of [verify] on an installation: the server is
    there, so no issue is added; a missing voice configuration is a
    warning. *)
Lemma verify_components_run issues warnings w :
  existsSync getServerPath w = true →
  ∃ warnings' w',
    for_of getAllComponents verify_component (issues, warnings) w
    = (Ok (issues, warnings'), w')
    ∧ same_system w w'.
Proof.
  intros Hserver. unfold getAllComponents. cbn [for_of].
  unfold bind at 1. unfold verify_component at 1. unfold gets, bind at 1.
  change (target server) with getServerPath. rewrite Hserver. cbn [negb]. unfold ret at 1.
  unfold bind at 1. unfold verify_component. unfold_M.
  destruct (existsSync (target voices) w); cbn [negb fst snd type voices].
  - eexists _, _. split; reflexivity.
  - rewrite bool_decide_eq_false_2 by done. eexists _, _. split; [reflexivity|].
    apply same_system_printed.
Qed.

(** After the issues are settled [verify] only collects warnings. *)
Lemma verify_tail_run (issues warnings0 : list string) (k : Status → M (list string)) :
  (∀ s, returns (k s)) →
  ensures (λ r, ∃ warnings serviceStatus, r = verify_report issues warnings serviceStatus)
    (let* serviceStatus := getStatus in
     let* warnings := k serviceStatus in
     let* warnings :=
       if running serviceStatus then ret warnings
       else
         warn "Server not responding";;
         ret (warnings ++ ["Server not responding"]) in
     let* warnings :=
       if running serviceStatus then
         try_catch
           (let* response := execOutput CurlHealth false true in
            if negb (bool_decide (response = "")) && includes "healthy" response
            then ret warnings
            else
              warn "Health endpoint not responding correctly";;
              ret (warnings ++ ["Health endpoint not responding correctly"]))
           (λ _,
              warn "Failed to test health endpoint";;
              ret (warnings ++ ["Failed to test health endpoint"]))
       else ret warnings in
     (if Nat.eqb (length issues) 0 && Nat.eqb (length warnings) 0 then ret tt
      else if negb (Nat.eqb (length issues) 0) then
        error "Critical issues found:";;
        if negb (Nat.eqb (length warnings) 0) then warn "Warnings:" else ret tt
      else warn "Warnings found:");;
     ret (verify_report issues warnings serviceStatus)).
Proof. intros Hk. repeat ensures_step. eauto. Qed.

(** [verify] on an installation. *)
Lemma verify_installed (options : Options) (w : World) :
  fst (isInstalled w) = Ok true →
  ∃ issues warnings serviceStatus w',
    verify options w = (Ok (verify_report issues warnings serviceStatus), w')
    ∧ (verify_success (verify_report issues warnings serviceStatus) = true
       ↔ truthy (stored_record w) = true ∧ existsSync getLaunchAgentPath w = true).
Proof.
  unfold isInstalled, gets. cbn [fst]. intros [= Hinst].
  pose proof Hinst as Hi. apply andb_prop in Hi as [_ Hserver].
  unfold verify. unfold bind at 1. unfold isInstalled, gets. rewrite Hinst. cbn [negb].
  unfold bind at 1. destruct (readMetadata_run w) as (w1&->&H1).
  assert (same_system w w1) as S1.
  { destruct H1 as [->|[e ->]]; [reflexivity|apply same_system_printed]. }
  unfold bind at 1.
  set (settle := if negb (truthy (stored_record w)) then _ else _).
  assert (∃ w2, settle w1
                = (Ok (if truthy (stored_record w) then []
                       else ["Metadata file missing or corrupt"]), w2)
                ∧ same_system w1 w2) as (w2&->&S2).
  { unfold settle. destruct (truthy (stored_record w)); cbn [negb].
    - eexists. split; reflexivity.
    - unfold_M. eexists. split; [reflexivity|apply same_system_printed]. }
  clear settle. set (issues0 := if truthy (stored_record w) then [] else _).
  unfold bind at 1.
  destruct (verify_components_run issues0 [] w2) as (warnings0&w3&->&S3).
  { by rewrite (existsSync_same _ _ w2), (existsSync_same _ _ w1)
      by (by apply same_system_fs). }
  cbn [fst snd]. unfold bind at 1.
  assert (existsSync getLaunchAgentPath w3 = existsSync getLaunchAgentPath w) as ->.
  { by rewrite (existsSync_same _ _ w3), (existsSync_same _ _ w2),
      (existsSync_same _ _ w1) by (by apply same_system_fs). }
  unfold bind at 1.
  set (plist := existsSync getLaunchAgentPath w).
  set (settle := if negb plist then _ else _).
  assert (∃ w4, settle w3
                = (Ok (if plist then issues0 else issues0 ++ ["LaunchAgent plist missing"]),
                   w4)) as (w4&->).
  { unfold settle. destruct plist; unfold_M; eauto. }
  clear settle.
  set (issues := if plist then issues0 else _).
  match goal with
  | |- ∃ _ _ _ _, bind getStatus ?rest w4 = _ ∧ _ =>
      destruct (verify_tail_run issues warnings0
                  (λ serviceStatus,
                     if st_loaded serviceStatus then ret warnings0
                     else
                       warn "LaunchAgent not loaded";;
                       ret (warnings0 ++ ["LaunchAgent not loaded"])) ltac:(intros; cbv beta; total) w4)
        as (r&w'&E&warnings&serviceStatus&->)
  end.
  exists issues, warnings, serviceStatus, w'. split; [exact E|].
  cbn [verify_success]. unfold issues, issues0, plist.
  destruct (truthy (stored_record w)), (existsSync getLaunchAgentPath w); cbn;
    try rewrite length_app; cbn; split; try done;
    try (intros [? ?]; done); eauto.
Qed.

(** X15: [verify] runs nothing but queries and writes nothing.  Where
    nothing is installed it reports that, with one error.  On an
    installation it never throws, and its verdict depends on two things
    only: it reports success exactly when the record can be read (to
    something other than [null], [false], [0] or the empty string) and the
    plist of the LaunchAgent exists.  A missing voice configuration, an
    agent that is not loaded and a daemon that does not answer are
    warnings and leave the verdict alone; the required server file cannot
    be found missing, since [isInstalled] has seen it. *)
Theorem verify_verdict (options : Options) (w : World) :
  (∀ r w', verify options w = (r, w') → only_asked w w')
  ∧ (fst (isInstalled w) = Ok false →
     verify options w
     = (Ok verify_not_installed, printed Error "Installation not found" w))
  ∧ (fst (isInstalled w) = Ok true →
     ∃ issues warnings serviceStatus w',
       verify options w = (Ok (verify_report issues warnings serviceStatus), w')
       ∧ (verify_success (verify_report issues warnings serviceStatus) = true
          ↔ truthy (stored_record w) = true
            ∧ existsSync getLaunchAgentPath w = true)).
Proof.
  split; [|split].
  - intros r w'. apply verify_asked.
  - unfold isInstalled, gets. cbn [fst]. intros [= Hno].
    unfold verify, isInstalled. unfold_M. by rewrite Hno.
  - apply verify_installed.
Qed.

(** ** Node's [fs] calls when they succeed *)


Lemma store_ok call p data mode w a w' :
  store call p data mode w = (Ok a, w') →
  ∃ f, w' = set_files (<[p := f]> (files w)) w ∧ f_data f = data.
Proof.
  unfold store. case_bool_decide; [done|].
  destruct (files w !! p); [|fs_cases; try done]; intros [= _ <-]; by eexists.
Qed.


(** ** The record on disk *)

(** X20: What [writeJSON] has written, [readJSON] reads back: after a real
    write that returned, reading the same path gives the record that was
    written and changes nothing, provided the file may be read and
    [JSON.parse] gives the record back from its text.  For the
    installation record this means that [readMetadata] finds what
    [updateMetadata] stored.  A dry run of [writeJSON] writes nothing. *)
Theorem writeJSON_readJSON (filePath : string) (data : Value) (w w' : World) :
  JSON_parse (JSON_stringify data) = Some data →
  filePath ∉ deny_read w →
  writeJSON filePath data false w = (Ok tt, w') →
  readJSON filePath w' = (Ok data, w')
  ∧ writeJSON filePath data true w = (Ok tt, w)
  ∧ (filePath = getMetadataPath →
     updateMetadata data false w = (Ok tt, w')
     ∧ readMetadata w' = (Ok data, w')).
Proof.
  intros Hround Hread Hwrite.
  pose proof Hwrite as Hw. apply writeJSON_real in Hw as [(_&mode&->)|(e&?&_)]; [|done].
  assert (readJSON filePath
            (set_files (<[filePath:={| f_data := JSON_stringify data; f_mode := mode |}]>
                          (files w)) w)
          = (Ok data, set_files (<[filePath:={| f_data := JSON_stringify data;
                                                 f_mode := mode |}]> (files w)) w)) as Hr.
  { unfold readJSON, readFileSync. unfold_M. cbn [files deny_read set_files].
    rewrite lookup_insert_eq. rewrite bool_decide_eq_false_2 by done.
    cbn [f_data]. by rewrite Hround. }
  split; [exact Hr|]. split; [reflexivity|]. intros ->.
  split; [exact Hwrite|].
  unfold readMetadata. unfold gets, bind at 1.
  erewrite existsSync_file by (cbn [files set_files]; apply lookup_insert_eq).
  cbn [negb]. unfold try_catch. by rewrite Hr.
Qed.

(** ** Starting what runs, stopping what does not *)

(** X14: A real [start] of a daemon that answers, and a real [stop] of one
    that does not, do nothing: they return at once with [alreadyRunning] and
    [alreadyStopped], and no command has run but the queries of
    [getStatus].  [stop] does so also when the supervisor still has the
    agent loaded: it is not unloaded. *)
Theorem start_stop_idempotent (options : Options) (w : World) (s : Status)
    (w1 : World) :
  dryRun options = false → fst (isInstalled w) = Ok true →
  getStatus w = (Ok s, w1) →
  only_asked w w1
  ∧ (running s = true → start options w = (Ok start_alreadyRunning, w1))
  ∧ (running s = false →
     stop options w = (Ok stop_alreadyStopped, printed Warn "Server is not running" w1)
     ∧ loaded (printed Warn "Server is not running" w1) = loaded w).
Proof.
  intros Hdry Hinst Hstatus.
  pose proof (getStatus_asked _ _ _ Hstatus) as Hasked.
  unfold isInstalled, gets in Hinst. cbn [fst] in Hinst. injection Hinst as Hinst.
  split; [done|]. split; intros Hrun.
  - unfold start. unfold bind at 1. unfold isInstalled, gets. rewrite Hinst.
    cbn [negb]. unfold bind at 1. by rewrite Hstatus, Hrun, Hdry.
  - split.
    + unfold stop. unfold bind at 1. unfold isInstalled, gets. rewrite Hinst.
      cbn [negb]. unfold bind at 1. by rewrite Hstatus, Hrun, Hdry.
    + cbn [loaded printed]. by destruct Hasked as [[_ ?] _].
Qed.

(** ** A real [uninstall] *)

Lemma prefix_app (a b : string) : String.prefix a (a +:+ b) = true.
Proof.
  induction a as [|c a IH]; simpl; [by destruct b|].
  by destruct (Ascii.ascii_dec c c).
Qed.

Lemma prefix_app_same (a b c : string) :
  String.prefix (a +:+ b) (a +:+ c) = String.prefix b c.
Proof.
  induction a as [|x a IH]; simpl; [done|].
  by destruct (Ascii.ascii_dec x x).
Qed.

Lemma prefix_trans (a b c : string) :
  String.prefix a b = true → String.prefix b c = true → String.prefix a c = true.
Proof.
  revert a b. induction c as [|z c IH]; intros [|x a] [|y b]; simpl; try done.
  destruct (Ascii.ascii_dec x y) as [->|]; [|done].
  destruct (Ascii.ascii_dec y z) as [->|]; [|done]. apply IH.
Qed.

(** The files [cpSync] writes lie below its target. *)
Lemma cpSync_changed (S : string → Prop) src dst :
  (∀ q, startsWith dst q = true → S q) → preserves (changed S) (cpSync src dst).
Proof.
  intros HS w r w'. unfold cpSync. case_bool_decide; [intros [= _ <-]; reflexivity|].
  destruct (blocked dst w); intros [= _ <-]; [reflexivity|].
  split; [|done]. intros q Hq. cbn [files set_files set_dirs].
  apply (map_fold_weak_ind (λ acc _, acc !! q = files w !! q)); [done|].
  intros i x m acc _ IH. destruct (under src i); [|done].
  rewrite lookup_insert_ne; [done|].
  intros <-. apply Hq, HS, prefix_app.
Qed.

(** The directories only grow from [w] to [w']. *)
Definition dirs_grow (w w' : World) : Prop := dirs w ⊆ dirs w'.

#[local] Instance dirs_grow_preorder : PreOrder dirs_grow.
Proof.
  split.
  - intros w. unfold dirs_grow. done.
  - intros w1 w2 w3. unfold dirs_grow. intros H1 H2. by etrans.
Qed.

Lemma same_fs_grow {A} (m : M A) : preserves same_fs m → preserves dirs_grow m.
Proof.
  apply preserves_weaken. intros w w' (_&Hd&_). unfold dirs_grow. by rewrite Hd.
Qed.

Lemma cpSync_grow src dst : preserves dirs_grow (cpSync src dst).
Proof.
  intros w r w'. unfold cpSync. case_bool_decide; [intros [= _ <-]; reflexivity|].
  destruct (blocked dst w); intros [= _ <-]; [reflexivity|].
  unfold dirs_grow. cbn [dirs set_dirs set_files].
  apply (set_fold_ind_L (λ acc _, dirs w ⊆ acc)); [done|].
  intros x X acc _ IH. destruct (under src x); [|done].
  etrans; [exact IH|]. apply union_subseteq_r.
Qed.

Lemma unlinkSync_grow p : preserves dirs_grow (unlinkSync p).
Proof.
  intros w r w'. unfold unlinkSync.
  destruct (files w !! p); repeat case_bool_decide; intros [= _ <-]; by unfold dirs_grow.
Qed.

(** What a real [uninstall] may write: the installation, the plist of the
    LaunchAgent, the log unless it is to be preserved, and the backup
    beside the installation when one is asked for. *)
Definition uninstall_writes (options : Options) (q : string) : Prop :=
  under getInstallPath q = true
  ∨ q = getLaunchAgentPath
  ∨ (preserveLogs options = false ∧ q = getLogPath)
  ∨ (backup options = true ∧ startsWith (getInstallPath +:+ ".backup-") q = true).

Lemma log_outside_installation (options : Options) :
  preserveLogs options = true → ¬ uninstall_writes options getLogPath.
Proof.
  intros Hp [H|[H|[[H _]|[_ H]]]].
  - revert H. unfold under, startsWith.
    rewrite getLogPath_eq, getInstallPath_eq, !string_app_assoc, prefix_app_same.
    rewrite bool_decide_eq_false_2; [done|].
    intros H%(inj (String.app _)). discriminate H.
  - revert H. rewrite getLogPath_eq, getLaunchAgentPath_eq.
    intros H%(inj (String.app _)). discriminate H.
  - congruence.
  - revert H. unfold startsWith.
    by rewrite getLogPath_eq, getInstallPath_eq, !string_app_assoc, prefix_app_same.
Qed.

(** X24: Whatever [uninstall] does and however it ends, every file outside
    the installation directory, the plist, the log and the backup directory
    keeps its bytes and its permissions; with [--preserve-logs] the log
    does too, and without [--backup] nothing is written beside the
    installation. *)
Theorem uninstall_touches_only (options : Options) (w : World)
    (r : Res UninstallResult) (w' : World) :
  uninstall options w = (r, w') →
  changed (uninstall_writes options) w w'
  ∧ (preserveLogs options = true → keeps getLogPath w w').
Proof.
  intros E.
  assert (changed (uninstall_writes options) w w') as Hc.
  { run_frame E. unfold uninstall, isInstalled, removePlist, unload.
    destruct (preserveLogs options) eqn:Hlogs, (backup options) eqn:Hbackup;
      cbn [andb]; frame;
      lazymatch goal with
      | |- preserves _ getCustomizedFiles =>
          eapply preserves_weaken; [|apply getCustomizedFiles_same];
          intros ? ? ?; by apply same_fs_changed, same_system_fs
      | |- preserves _ getStatus =>
          eapply preserves_weaken; [|apply getStatus_same];
          intros ? ? ?; by apply same_fs_changed, same_system_fs
      | |- preserves _ (exec _ _ _ _) =>
          eapply preserves_weaken; [|apply exec_same_fs];
          intros ? ? ?; by apply same_fs_changed
      | |- preserves _ (unlinkSync _) =>
          apply preserves_fs_write_changed, unlinkSync_write; right; by left
      | |- preserves _ (cpSync _ _) =>
          apply cpSync_changed; intros q Hq; right; right; right;
          split; [done|]; eapply prefix_trans; [|exact Hq];
          rewrite <- string_app_assoc; apply prefix_app
      | |- preserves _ (removeDirectory _ _) =>
          apply preserves_fs_write_changed, removeDirectory_write;
          intros q Hq; left; by apply Is_true_true
      | |- preserves _ (removeFile _ _) =>
          apply preserves_fs_write_changed, removeFile_write;
          right; right; by left
      | |- _ => eauto with frame
      end. }
  split; [exact Hc|]. intros Hp.
  eapply changed_keeps; [|exact Hc]. by apply log_outside_installation.
Qed.

Lemma try_catch_inv {A} (body : M A) (handler : string → M A) w r w' :
  try_catch body handler w = (r, w') →
  (∃ a, body w = (Ok a, w') ∧ r = Ok a)
  ∨ (∃ e w1, body w = (Throw e, w1) ∧ handler e w1 = (r, w')).
Proof.
  unfold try_catch. destruct (body w) as [[a|e] w1]; [|eauto].
  intros [= <- <-]. eauto.
Qed.

(** Nothing is left of the installation in [w]. *)
Definition removed (w : World) : Prop :=
  ∀ q, under getInstallPath q = true → files w !! q = None ∧ q ∉ dirs w.

Lemma removeDirectory_removes w r w' :
  getInstallPath ∈ dirs w →
  removeDirectory getInstallPath false w = (Ok r, w') → removed w'.
Proof.
  intros Hdir.
  assert (existsSync getInstallPath w = true) as Hex
    by (apply bool_decide_eq_true; by right).
  unfold removeDirectory, rmSync. unfold_M. rewrite Hex. cbn [negb].
  case_bool_decide; [done|]. intros [= _ <-] q Hq.
  cbn [files dirs set_dirs set_files]. split.
  - apply map_lookup_filter_None. right. intros x _ Hn. apply Hn. cbn [fst].
    by apply Is_true_true.
  - rewrite elem_of_filter. intros [Hn _]. apply Hn. by apply Is_true_true.
Qed.

Lemma removeFile_removed p w r w' :
  removeFile p false w = (r, w') → removed w → removed w'.
Proof.
  unfold removeFile, unlinkSync. unfold_M.
  destruct (existsSync p w); cbn [negb]; [|by intros [= _ <-]].
  destruct (files w !! p); [|by intros [= _ <-]].
  case_bool_decide; intros [= _ <-]; [done|].
  intros Hgone q Hq. destruct (Hgone q Hq) as [Hf Hd]. split; [|done].
  cbn [files set_files]. destruct (decide (q = p)) as [->|Hne].
  - apply lookup_delete_eq.
  - by rewrite lookup_delete_ne.
Qed.

(** X23: A real [uninstall] that reports success has removed the
    installation: no file and no directory is left at or below the installation path,
    and [isInstalled] answers no from then on.  This holds also when the
    agent could not be unloaded, the plist not removed or the log not
    deleted, which are warnings. *)
Theorem uninstall_removes (options : Options) (w : World)
    (preservedLogs createdBackup dry : bool) (w' : World) :
  dryRun options = false → getInstallPath ∈ dirs w →
  uninstall options w = (Ok (uninstall_done preservedLogs createdBackup dry), w') →
  (∀ q, under getInstallPath q = true → files w' !! q = None ∧ q ∉ dirs w')
  ∧ fst (isInstalled w') = Ok false.
Proof.
  intros Hdry Hdir E.
  assert (removed w') as Hgone; [|split; [exact Hgone|]].
  2:{ unfold isInstalled, gets. cbn [fst]. f_equal.
      apply andb_false_intro1, bool_decide_eq_false_2.
      destruct (Hgone getMetadataPath) as [Hf Hd].
      { unfold under, getMetadataPath, join, startsWith.
        rewrite <- string_app_assoc, prefix_app. apply orb_true_r. }
      rewrite Hf. by intros [[? ?]|?]. }
  unfold uninstall in E. rewrite Hdry in E. cbn [negb] in E.
  apply bind_inv in E as [(installed&w1&E1&E)|(e&_&?)]; [|done].
  unfold isInstalled, gets in E1. injection E1 as _ <-.
  destruct (negb installed).
  { apply bind_inv in E as [(?&?&_&E)|(?&_&?)]; done. }
  apply bind_inv in E as [(meta&w2&E2&E)|(e&_&?)]; [|done].
  assert (dirs_grow w w2) as G2.
  { run_frame E2. apply same_fs_grow.
    eapply preserves_weaken; [apply same_system_fs|apply readMetadata_same]. }
  apply bind_inv in E as [(customized&w3&E3&E)|(e&_&?)]; [|done].
  assert (dirs_grow w2 w3) as G3.
  { run_frame E3. apply same_fs_grow.
    eapply preserves_weaken; [apply same_system_fs|apply getCustomizedFiles_same]. }
  apply bind_inv in E as [([]&w4&E4&E)|(e&_&?)]; [|done].
  assert (dirs_grow w3 w4) as G4.
  { run_frame E4. apply same_fs_grow. frames. }
  apply bind_inv in E as [(serviceStatus&w5&E5&E)|(e&_&?)]; [|done].
  assert (dirs_grow w4 w5) as G5.
  { run_frame E5. apply same_fs_grow, getStatus_same_fs. }
  apply bind_inv in E as [([]&w6&E6&E)|(e&_&?)]; [|done].
  assert (dirs_grow w5 w6) as G6.
  { run_frame E6. apply same_fs_grow. pose proof unload_same_fs. frames. }
  apply bind_inv in E as [([]&w7&E7&E)|(e&_&?)]; [|done].
  assert (dirs_grow w6 w7) as G7.
  { run_frame E7. unfold removePlist. frame;
      first [apply unlinkSync_grow | apply same_fs_grow; frames]. }
  apply bind_inv in E as [(removal&w8&E8&E)|(e&_&?)]; [|done].
  apply try_catch_inv in E8 as [(a&E8&[= <-])|(e&w8'&_&E8)].
  2:{ apply bind_inv in E8 as [(?&?&_&E8)|(?&_&?)]; [|done].
      injection E8 as <- _. done. }
  apply bind_inv in E8 as [([]&w7'&E8a&E8)|(e&_&?)]; [|done].
  assert (dirs_grow w7 w7') as G8.
  { run_frame E8a. frame; first [apply cpSync_grow | apply same_fs_grow; frames]. }
  apply bind_inv in E8 as [(b&w8'&E8b&E8)|(e&_&?)]; [|done].
  injection E8 as <- <-. cbv beta iota in E.
  apply removeDirectory_removes in E8b.
  2:{ apply G8, G7, G6, G5, G4, G3, G2, Hdir. }
  apply bind_inv in E as [([]&w9&E9&E)|(e&_&?)]; [|done].
  injection E as _ _ _ <-.
  destruct (preserveLogs options); [by injection E9 as <-|].
  apply try_catch_inv in E9 as [([]&E9&_)|(e&w9'&E9&E9')].
  - apply bind_inv in E9 as [(b'&w9'&E9&E9')|(?&_&?)]; [|done].
    injection E9' as <-. by eapply removeFile_removed.
  - apply bind_inv in E9 as [(b'&w9''&E9&?)|(e'&E9&_)]; [done|].
    apply removeFile_removed in E9; [|done].
    unfold warn, modify in E9'. injection E9' as <-. exact E9.
Qed.

(** ** Numbers in strings *)

(** A decimal digit. *)
Definition is_digit (a : ascii) : Prop := is_Some (digit_of a).

Lemma digit_of_digit (d : N) : (d < 10)%N → digit_of (ascii_of_N (48 + d)) = Some d.
Proof.
  intros Hd.
  assert (d = 0 ∨ d = 1 ∨ d = 2 ∨ d = 3 ∨ d = 4 ∨ d = 5 ∨ d = 6 ∨ d = 7 ∨ d = 8
          ∨ d = 9)%N as H by lia.
  repeat (destruct H as [->|H]; [reflexivity|]). by subst.
Qed.

Lemma size_nat_gt (n : N) : (n < 10 ^ N.of_nat (S (N.size_nat n)))%N.
Proof.
  assert (n < 2 ^ N.of_nat (N.size_nat n))%N as H.
  { destruct n as [|p]; [done|]. cbn [N.size_nat].
    induction p as [p IH|p IH|]; cbn [Pos.size_nat].
    - rewrite Nat2N.inj_succ, N.pow_succ_r'. lia.
    - rewrite Nat2N.inj_succ, N.pow_succ_r'. lia.
    - simpl. lia. }
  eapply N.lt_le_trans; [exact H|].
  etrans; [apply (N.pow_le_mono_l 2 10); lia|].
  apply N.pow_le_mono_r; lia.
Qed.

Lemma digits_head (fuel : nat) : ∀ (n : N) (acc : string),
  ∃ c t, digits (S fuel) n acc = String c t ∧ is_digit c.
Proof.
  assert (∀ n : N, is_digit (ascii_of_N (48 + n mod 10))) as Hd.
  { intros n. unfold is_digit. rewrite digit_of_digit; [by eexists|].
    apply N.mod_lt. lia. }
  induction fuel as [|fuel IH]; intros n acc.
  - exists (ascii_of_N (48 + n mod 10)), acc. split; [|by apply Hd].
    simpl. by destruct (n <? 10)%N.
  - change (digits (S (S fuel)) n acc)
      with (if (n <? 10)%N then String (ascii_of_N (48 + n mod 10)) acc
            else digits (S fuel) (n / 10)%N (String (ascii_of_N (48 + n mod 10)) acc)).
    destruct (n <? 10)%N; [|apply IH]. eexists _, _. split; [done|by apply Hd].
Qed.

(** Reading the digits [digits] has written gives the number back. *)
Lemma leading_number_digits (fuel : nat) : ∀ (n : N) (acc : string),
  (n < 10 ^ N.of_nat (S fuel))%N →
  ∃ k, ∀ s0, leading_number (digits (S fuel) n acc) s0
             = leading_number acc (Some (10 ^ k * default 0 s0 + n)%N).
Proof.
  assert (∀ n acc s0, (n < 10)%N →
            leading_number (String (ascii_of_N (48 + n mod 10)) acc) s0
            = leading_number acc (Some (10 ^ 1 * default 0 s0 + n)%N)) as Hone.
  { intros n acc s0 Hn. cbn [leading_number].
    rewrite N.mod_small by done. rewrite digit_of_digit by done.
    by rewrite N.pow_1_r. }
  induction fuel as [|fuel IH]; intros n acc Hn.
  - exists 1%N. intros s0. rewrite <- Hone by (simpl in Hn; lia).
    simpl. by destruct (n <? 10)%N.
  - change (digits (S (S fuel)) n acc)
      with (if (n <? 10)%N then String (ascii_of_N (48 + n mod 10)) acc
            else digits (S fuel) (n / 10)%N (String (ascii_of_N (48 + n mod 10)) acc)).
    destruct (n <? 10)%N eqn:Hlt.
    + apply N.ltb_lt in Hlt. exists 1%N. intros s0. by apply Hone.
    + apply N.ltb_ge in Hlt.
      destruct (IH (n / 10)%N (String (ascii_of_N (48 + n mod 10)) acc)) as [k Hk].
      { rewrite Nat2N.inj_succ, N.pow_succ_r' in Hn.
        apply N.Div0.div_lt_upper_bound. exact Hn. }
      exists (N.succ k). intros s0. rewrite Hk. cbn [leading_number].
      rewrite digit_of_digit by (apply N.mod_lt; lia). cbn [default].
      f_equal. f_equal. rewrite N.pow_succ_r'.
      pose proof (N.div_mod n 10 ltac:(lia)) as Hdm. unfold id.
      rewrite N.mul_add_distr_l, N.mul_assoc. lia.
Qed.

(** A string of decimal digits. *)
Fixpoint number (s : string) : Prop :=
  match s with
  | EmptyString => True
  | String a s' => is_digit a ∧ number s'
  end.

Lemma digits_number (fuel : nat) : ∀ (n : N) (acc : string),
  number acc → number (digits fuel n acc).
Proof.
  induction fuel as [|fuel IH]; intros n acc Hacc; [done|].
  assert (number (String (ascii_of_N (48 + n mod 10)) acc)) as Hd.
  { split; [|done]. unfold is_digit. rewrite digit_of_digit; [by eexists|].
    apply N.mod_lt. lia. }
  simpl. destruct (n <? 10)%N; [done|]. by apply IH.
Qed.

(** White space is skipped only where there is some. *)
Lemma trimStart_plain (c : ascii) (s : string) :
  begins_white_space c = false → trimStart (String c s) = String c s.
Proof.
  intros Hc. unfold trimStart. cbn [String.length skip].
  assert (strip white_spaces (String c s) = None) as ->; [|done].
  destruct c as [[] [] [] [] [] [] [] []]; try done; reflexivity.
Qed.

Lemma digit_plain (c : ascii) :
  is_digit c → begins_white_space c = false ∧ c ≠ "-"%char ∧ c ≠ "+"%char.
Proof.
  intros [d Hd]. destruct c as [[] [] [] [] [] [] [] []]; try done.
Qed.

(** Decimal digits are read as a decimal number: no [0x] among them. *)
Lemma unsigned_number (s : string) : number s → unsigned s = leading_number s None.
Proof.
  destruct s as [|c [|d t]]; [done| |].
  - intros _. by destruct c as [[] [] [] [] [] [] [] []].
  - intros (_&[n Hd]&_).
    destruct c as [[] [] [] [] [] [] [] []]; try reflexivity.
    destruct d as [[] [] [] [] [] [] [] []]; try reflexivity; done.
Qed.

Lemma parseInt_number (c : ascii) (t : string) :
  number (String c t) → parseInt (String c t) = Z.of_N <$> leading_number (String c t) None.
Proof.
  intros Hn. pose proof Hn as [Hc _]. apply digit_plain in Hc as (Hs&Hm&Hp).
  unfold parseInt. rewrite trimStart_plain by done.
  rewrite <- (unsigned_number _ Hn).
  destruct c as [[] [] [] [] [] [] [] []]; done.
Qed.

Lemma parseInt_decimal (n : N) : parseInt (decimal n) = Some (Z.of_N n).
Proof.
  pose proof (digits_number (S (N.size_nat n)) n "" I) as Hnum.
  unfold decimal in *.
  destruct (digits_head (N.size_nat n) n "") as (c&t&E&_).
  destruct (leading_number_digits (N.size_nat n) n "" (size_nat_gt n)) as [k Hk].
  rewrite E in Hnum. rewrite E, (parseInt_number _ _ Hnum), <- E, Hk.
  cbn [default leading_number fmap option_fmap option_map]. do 2 f_equal.
  rewrite N.mul_0_r. apply N.add_0_l.
Qed.

Lemma substring_all (s : string) : String.substring 0 (String.length s) s = s.
Proof. induction s as [|a s IH]; simpl; [done|]. by rewrite IH. Qed.

Lemma slice_1 (c : ascii) (s : string) : slice 1 (String c s) = s.
Proof. unfold slice. simpl. rewrite Nat.sub_0_r. apply substring_all. Qed.

Lemma split_number (s rest : string) :
  number s → hd "" (split "." (s +:+ String "." rest)) = s.
Proof.
  induction s as [|a s IH]; [done|]. intros [[d Hd] Hs]. specialize (IH Hs).
  assert (Ascii.eqb a "." = false) as Hne.
  { apply Ascii.eqb_neq. intros ->. done. }
  change (split "." (String a s +:+ String "." rest))
    with (if Ascii.eqb a "." then EmptyString :: split "." (s +:+ String "." rest)
          else match split "." (s +:+ String "." rest) with
               | part :: parts => String a part :: parts
               | [] => [String a EmptyString]
               end).
  rewrite Hne.
  destruct (split "." (s +:+ String "." rest)) as [|part parts]; simpl in *;
    by rewrite IH.
Qed.

Lemma parseInt_not_a_number (c : ascii) (rest : string) :
  digit_of c = None → begins_white_space c = false → c ≠ "-"%char → c ≠ "+"%char →
  parseInt (hd "" (split "." (String c rest))) = None.
Proof.
  intros Hd Hs Hm Hp. cbn [split].
  destruct (Ascii.eqb c "."); [done|].
  assert (∀ part, parseInt (String c part) = None) as H.
  { intros part. unfold parseInt. rewrite trimStart_plain by done.
    assert (unsigned (String c part) = None) as Hn.
    { assert (leading_number (String c part) None = None) as <-
        by (cbn [leading_number]; by rewrite Hd).
      destruct c as [[] [] [] [] [] [] [] []]; try reflexivity; done. }
    destruct c as [[] [] [] [] [] [] [] []]; try (by rewrite Hn); done. }
  destruct (split "." rest); apply H.
Qed.

(** ** A real [update] *)

(** The paths of the installation: the two components and their backups,
    the record and the plist of the LaunchAgent. *)
Definition installation_paths (q : string) : Prop :=
  (∃ c, c ∈ getAllComponents ∧ (q = target c ∨ backup_of (target c) q))
  ∨ q = getMetadataPath ∨ q = getLaunchAgentPath.

Lemma component_path c q :
  c ∈ getAllComponents → q = target c ∨ backup_of (target c) q → installation_paths q.
Proof. intros Hc Hq. left. eauto. Qed.

Lemma server_not_voices_backup : ¬ backup_of getVoicesPath getServerPath.
Proof.
  intros [stamp H]. rewrite getServerPath_eq, getVoicesPath_eq, !string_app_assoc in H.
  apply (inj (String.app _)) in H. cbv [String.append] in H. discriminate H.
Qed.

(** The two places [resolveSourcePath] looks at. *)
Lemma resolveSourcePath_found rel w sourcePath w' :
  resolveSourcePath rel w = (Ok sourcePath, w') →
  sourcePath = join (join package_dir "dist") rel
  ∨ sourcePath = join (dirname package_dir) rel.
Proof.
  unfold resolveSourcePath. unfold_M.
  destruct (existsSync (join (join package_dir "dist") rel) w); [intros [= <- _]; by left|].
  destruct (existsSync (join (dirname package_dir) rel) w); [intros [= <- _]; by right|].
  done.
Qed.

(** The turn of the loop of [update] for the server, when it does not
    end the loop. *)
Lemma update_component_server customized w turn w' :
  update_component false customized server w = (Ok turn, w') →
  (∃ e, turn = turn_return (update_failed "server" e))
  ∨ turn = turn_updated
    ∧ ∃ w1 sourcePath copied,
        changed (backup_of getServerPath) w w1
        ∧ resolveSourcePath "server.ts" w1 = (Ok sourcePath, w1)
        ∧ copyFile sourcePath getServerPath false true w1 = (Ok copied, w').
Proof.
  unfold update_component. cbn [preserveOnUpdate server name target source type].
  rewrite andb_false_r, andb_true_r. intros E.
  apply try_catch_inv in E as [(a&E&[= <-])|(e&w1&_&E)].
  - right.
    apply bind_inv in E as [([]&w1&E1&E)|(?&_&?)]; [|done].
    apply bind_inv in E as [(sourcePath&w2&E2&E)|(?&_&?)]; [|done].
    apply bind_inv in E as [(copied&w3&E3&E)|(?&_&?)]; [|done].
    injection E as <- <-. split; [done|].
    pose proof (resolveSourcePath_same _ _ _ _ E2) as ->.
    exists w1, sourcePath, copied. split; [|done].
    run_frame E1. frames.
  - left. rewrite bool_decide_eq_true_2 in E by done.
    apply bind_inv in E as [(?&?&_&E)|(?&_&?)]; [|done].
    injection E as <- _. eauto.
Qed.

(** X25: A real [update] that completes has replaced the server by the one
    shipped: the installed server has the bytes of the source file the
    package holds, whether or not the user had edited it, and [update]
    lists the server as updated.  The package is assumed to lie outside
    the installation. *)
Theorem update_replaces_server (options : Options) (w : World)
    (fromVersion : Value) (toVersion : string)
    (updated preserved : list string) (dry : bool) (w' : World) :
  dryRun options = false →
  ¬ installation_paths (join (join package_dir "dist") "server.ts") →
  ¬ installation_paths (join (dirname package_dir) "server.ts") →
  update options w
  = (Ok (update_done fromVersion toVersion updated preserved dry), w') →
  "server" ∈ updated
  ∧ ∃ sourcePath s t,
      (sourcePath = join (join package_dir "dist") "server.ts"
       ∨ sourcePath = join (dirname package_dir) "server.ts")
      ∧ files w !! sourcePath = Some s
      ∧ files w' !! getServerPath = Some t
      ∧ f_data t = f_data s.
Proof.
  intros Hdry Hpkg Hdev E. unfold update in E. rewrite Hdry in E.
  apply bind_inv in E as [(installed&w1&E1&E)|(?&_&?)]; [|done].
  unfold isInstalled, gets in E1. injection E1 as _ <-.
  destruct (negb installed).
  { apply bind_inv in E as [(?&?&_&E)|(?&_&?)]; done. }
  apply bind_inv in E as [(currentVersion&w2&E2&E)|(?&_&?)]; [|done].
  apply getInstalledVersion_same, same_system_fs in E2 as S2.
  apply bind_inv in E as [([]&w2'&Ei&E)|(?&_&?)]; [|done].
  apply (preserves_interpolate (R:=same_fs)) in Ei as Si.
  destruct (_ && _); [done|].
  apply bind_inv in E as [(customized&w3&E3&E)|(?&_&?)]; [|done].
  apply getCustomizedFiles_same, same_system_fs in E3 as S3.
  apply bind_inv in E as [([]&w4&E4&E)|(?&_&?)]; [|done].
  assert (same_fs w3 w4) as S4 by (run_frame E4; destruct (negb _); frames).
  apply bind_inv in E as [(wasRunning&w5&E5&E)|(?&_&?)]; [|done].
  apply update_stop_same_fs in E5 as S5.
  assert (files w5 = files w) as Hf5.
  { destruct S2 as [F2 _], Si as [Fi _], S3 as [F3 _], S4 as [F4 _], S5 as [F5 _].
    congruence. }
  clear E2 Ei E3 E4 E5 S2 Si S3 S4 S5.
  apply bind_inv in E as [(looped&w6&E6&E)|(?&_&?)]; [|done].
  unfold getAllComponents in E6. rewrite update_components_cons in E6.
  apply bind_inv in E6 as [(turn&w5a&Ea&E6)|(?&_&?)]; [|done].
  apply update_component_server in Ea
    as [[e ->]|(->&w5b&sourcePath&copied&Hb&Hr&Hc)].
  { injection E6 as <- _. done. }
  pose proof (resolveSourcePath_found _ _ _ _ Hr) as Hsource.
  assert (¬ installation_paths sourcePath) as Hout by (by destruct Hsource as [->| ->]).
  assert (files w5b !! sourcePath = files w !! sourcePath) as Hsrc.
  { rewrite <- Hf5. apply Hb. intros Hq. apply Hout.
    eapply component_path; [apply list_elem_of_here|by right]. }
  assert (∃ s t, files w5b !! sourcePath = Some s ∧ files w5a !! getServerPath = Some t
                 ∧ f_data t = f_data s) as (s&t&Hs&Ht&Hdata).
  { destruct (existsSync sourcePath w5b) eqn:Hex.
    - apply copyFile_copies in Hc as (_&_&s&t&?&?&?&_); [eauto|done|by right].
    - revert Hc. unfold copyFile. unfold_M. by rewrite Hex. }
  rewrite Hsrc in Hs.
  (* the turn of the voice configuration *)
  cbn [app name server] in E6. rewrite update_components_cons in E6.
  apply bind_inv in E6 as [(turn&w5c&Ev&E6)|(?&_&?)]; [|done].
  assert (files w5c !! getServerPath = Some t) as Ht5.
  { rewrite <- Ht. apply (update_component_changed _ _ _ _ _ _ Ev).
    cbn [target voices]. intros [Hq|Hq]; [by apply server_not_voices|].
    by apply server_not_voices_backup. }
  assert (∃ updated0 preserved0,
            looped = inr (updated0, preserved0) ∧ "server" ∈ updated0 ∧ w6 = w5c)
    as (updated0&preserved0&->&Hin&->).
  { destruct turn as [| | |r]; cbn [update_components] in E6.
    - injection E6 as <- <-. eexists _, _. split; [done|]. split; [|done].
      apply list_elem_of_here.
    - injection E6 as <- <-. eexists _, _. split; [done|]. split; [|done].
      apply list_elem_of_here.
    - injection E6 as <- <-. eexists _, _. split; [done|]. split; [|done].
      apply list_elem_of_here.
    - apply update_component_return in Ev as [e ->]. by injection E6 as <- <-. }
  apply bind_inv in E as [([]&w7&E7&E)|(?&_&?)]; [|done].
  apply bind_inv in E as [([]&w8&E8&E)|(?&_&?)]; [|done].
  apply bind_inv in E as [([]&w9&E9&E)|(?&_&?)]; [|done].
  injection E as _ _ <- _ _ <-. split; [done|].
  exists sourcePath, s, t. split; [done|]. split; [done|]. split; [|done].
  apply update_restart_same_fs in E9 as [-> _].
  pose proof (update_metadata_changed (λ q, q = getMetadataPath) false eq_refl
                _ _ _ E8) as [H8 _].
  rewrite H8 by apply server_not_metadata.
  pose proof (update_launchagent_changed (λ q, q = getLaunchAgentPath) false eq_refl
                _ _ _ E7) as [H7 _].
  rewrite H7; [exact Ht5|]. intros H. by apply plist_not_server.
Qed.

(** ** The LaunchAgent without its plist *)

(** X26: When the plist of the LaunchAgent is missing, [unload] and
    [removePlist] have nothing to do and return [false]; [load] throws,
    in a dry run too, since it looks for the plist before it looks at the
    flag.  So on an installation without plist [start] fails with that
    message, having run nothing but the queries of [getStatus], unless it
    is a real run and the daemon answers. *)
Theorem launchagent_without_plist (dry : bool) (options : Options) (w : World) :
  existsSync getLaunchAgentPath w = false →
  load dry w = (Throw "LaunchAgent plist not found. Run install first.", w)
  ∧ unload dry w = (Ok false, w)
  ∧ removePlist dry w = (Ok false, w)
  ∧ (fst (isInstalled w) = Ok true →
     ∀ s w1, getStatus w = (Ok s, w1) →
       dryRun options = true ∨ running s = false →
       start options w
       = (Ok (start_failed "LaunchAgent plist not found. Run install first."),
          printed Error
            "Failed to start server: LaunchAgent plist not found. Run install first."
            w1)).
Proof.
  intros Hplist.
  assert (∀ d w0, existsSync getLaunchAgentPath w0 = false →
            load d w0 = (Throw "LaunchAgent plist not found. Run install first.", w0))
    as Hload.
  { intros d w0 H0. unfold load. unfold_M. by rewrite H0. }
  split; [by apply Hload|].
  split; [unfold unload; unfold_M; by rewrite Hplist|].
  split; [unfold removePlist; unfold_M; by rewrite Hplist|].
  unfold isInstalled, gets. cbn [fst]. intros [= Hinst] s w1 Hstatus Hcase.
  pose proof (getStatus_same _ _ _ Hstatus) as [Hfs _].
  unfold start. unfold bind at 1. unfold isInstalled, gets. rewrite Hinst. cbn [negb].
  unfold bind at 1. rewrite Hstatus.
  assert (running s && negb (dryRun options) = false) as ->.
  { destruct Hcase as [-> | ->]; [apply andb_false_r|done]. }
  unfold try_catch, bind at 1.
  by rewrite Hload by (by rewrite (existsSync_same _ _ _ Hfs)).
Qed.

Section HostProperties.

Variable host : Host.

(** [main] from the command line to the exit code. *)
Lemma main_run (argv : list string) (w : World) :
  if existsb exit_flag (drop 2 argv) then main host argv w = (Ok 0%Z, w)
  else
    match commands host (default "status" (head (words (drop 2 argv)))) with
    | None =>
        main host argv w
        = (Ok 1%Z,
           printed Error
             ("Unknown command: " +:+ default "status" (head (words (drop 2 argv)))) w)
    | Some run =>
        main host argv w
        = exit_code (λ result, negb (reports_failure result))
            (run (flags (drop 2 argv)) w)
    end.
Proof.
  unfold main. pose proof (parseArgs_parse argv) as H.
  destruct (existsb exit_flag (drop 2 argv)); [by rewrite H|].
  destruct H as (parsed&->&Ho&He). rewrite effective_command, He, Ho.
  destruct (commands host _) as [run|]; [|done].
  unfold try_catch, bind, exit_code.
  destruct (run (flags (drop 2 argv)) w) as [[result|e] w']; [|done].
  by destruct (reports_failure result).
Qed.

(** X1: The command line as [main] reads it.  An exit flag ([--help], [-h],
    [--version], [-v]) anywhere after the script name ends the process
    with code 0, also behind a command word: no command runs.  Without
    one, the options are the flags that occur, in any order and any number
    of times, other arguments with a dash are ignored, and the command is
    the first argument without a leading dash that is not empty. *)
Theorem parseArgs_run (argv : list string) (w : World) :
  if existsb exit_flag (drop 2 argv)
  then parseArgs argv = inl 0%Z ∧ main host argv w = (Ok 0%Z, w)
  else ∃ parsed,
         parseArgs argv = inr parsed
         ∧ options parsed = flags (drop 2 argv)
         ∧ effective parsed = head (words (drop 2 argv)).
Proof.
  pose proof (parseArgs_parse argv) as Hparse. pose proof (main_run argv w) as Hmain.
  by destruct (existsb exit_flag (drop 2 argv)).
Qed.

(** The exit code of a handler is that of the command behind it. *)
Lemma handler_exit_code {R} (run : Options → M R) (success : R → bool) o w :
  exit_code (λ result, negb (reports_failure result)) (handler run success o w)
  = exit_code success (run o w).
Proof.
  unfold handler, exit_code, bind, ret.
  destruct (run o w) as [[result|e] w']; [|done]. simpl. by destruct (success result).
Qed.

(** A name that is neither a command nor inherited is not a property of
    [commands]. *)
Lemma commands_unknown c :
  c ∉ command_names → c ∉ prototype_names → commands host c = None.
Proof.
  intros Hc Hp. unfold commands.
  rewrite !bool_decide_eq_false_2;
    [done|
     intros ->;
     first [ solve [apply Hc;
                    repeat first [apply list_elem_of_here | apply list_elem_of_further]]
           | solve [apply Hp;
                    repeat first [apply list_elem_of_here | apply list_elem_of_further]] ]..].
Qed.

(** X3: An unknown subcommand does not fall back to [status]: [main]
    reports it and exits with code 1.  No command runs and nothing changes but the
    console. *)
Theorem main_unknown_command (argv : list string) (c : string) (w : World) :
  existsb exit_flag (drop 2 argv) = false →
  head (words (drop 2 argv)) = Some c →
  c ∉ command_names → c ∉ prototype_names →
  main host argv w = (Ok 1%Z, printed Error ("Unknown command: " +:+ c) w).
Proof.
  intros Hexit Hc Hn Hp. pose proof (main_run argv w) as H.
  rewrite Hexit, Hc in H. change (default "status" (Some c)) with c in H.
  by rewrite commands_unknown in H.
Qed.

(** X2: Without a command word [main] runs [status]: it exits with code 0
    when [status] reports success, and with code 1 when it reports that nothing
    is installed or throws, in which case the message is printed. *)
Theorem main_default_status (argv : list string) (w : World) :
  existsb exit_flag (drop 2 argv) = false →
  words (drop 2 argv) = [] →
  main host argv w = exit_code status_success (status host (flags (drop 2 argv)) w).
Proof.
  intros Hexit Hc. pose proof (main_run argv w) as H.
  rewrite Hexit, Hc in H. cbn [head default] in H.
  change (commands host "status") with (Some (handler (status host) status_success)) in H.
  cbv beta iota in H. by rewrite handler_exit_code in H.
Qed.

(** X4: For each of the eight commands [main] runs its handler with the
    parsed options and turns what it returns into the exit code: 0 when the
    result says success, 1 when it says failure, and 1 with the message
    printed when the handler throws.  [main] itself never throws. *)
Theorem main_exit_code (argv : list string) (c : string) (w : World) :
  existsb exit_flag (drop 2 argv) = false →
  head (words (drop 2 argv)) = Some c →
  let o := flags (drop 2 argv) in
  (c = "install" → main host argv w = exit_code install_success (install host o w))
  ∧ (c = "update" → main host argv w = exit_code update_success (update o w))
  ∧ (c = "uninstall" → main host argv w = exit_code uninstall_success (uninstall o w))
  ∧ (c = "start" → main host argv w = exit_code start_success (start o w))
  ∧ (c = "stop" → main host argv w = exit_code stop_success (stop o w))
  ∧ (c = "restart" → main host argv w = exit_code restart_success (restart o w))
  ∧ (c = "status" → main host argv w = exit_code status_success (status host o w))
  ∧ (c = "verify" → main host argv w = exit_code verify_success (verify o w)).
Proof.
  intros Hexit Hc o. pose proof (main_run argv w) as H.
  rewrite Hexit, Hc in H. change (default "status" (Some c)) with c in H.
  repeat split; intros ->.
  - change (commands host "install")
      with (Some (handler (install host) install_success)) in H.
    cbv beta iota in H. by rewrite handler_exit_code in H.
  - change (commands host "update") with (Some (handler update update_success)) in H.
    cbv beta iota in H. by rewrite handler_exit_code in H.
  - change (commands host "uninstall")
      with (Some (handler uninstall uninstall_success)) in H.
    cbv beta iota in H. by rewrite handler_exit_code in H.
  - change (commands host "start") with (Some (handler start start_success)) in H.
    cbv beta iota in H. by rewrite handler_exit_code in H.
  - change (commands host "stop") with (Some (handler stop stop_success)) in H.
    cbv beta iota in H. by rewrite handler_exit_code in H.
  - change (commands host "restart") with (Some (handler restart restart_success)) in H.
    cbv beta iota in H. by rewrite handler_exit_code in H.
  - change (commands host "status")
      with (Some (handler (status host) status_success)) in H.
    cbv beta iota in H. by rewrite handler_exit_code in H.
  - change (commands host "verify") with (Some (handler verify verify_success)) in H.
    cbv beta iota in H. by rewrite handler_exit_code in H.
Qed.

(** X5: The names [commands] inherits from [Object.prototype] pass for
    commands.  Nine of them make [main] exit with code 0 having run and
    printed nothing; the other three make the call throw, and [main]
    exits with code 1. *)
Theorem main_inherited_names (argv : list string) (c : string) (w : World) :
  existsb exit_flag (drop 2 argv) = false →
  head (words (drop 2 argv)) = Some c →
  (c ∈ ["constructor"; "valueOf"; "hasOwnProperty"; "isPrototypeOf";
        "propertyIsEnumerable"; "toString"; "toLocaleString";
        "__lookupGetter__"; "__lookupSetter__"] →
   main host argv w = (Ok 0%Z, w))
  ∧ (c ∈ ["__defineGetter__"; "__defineSetter__"; "__proto__"] →
     ∃ e, main host argv w = (Ok 1%Z, printed Error e w)).
Proof.
  intros Hexit Hc. pose proof (main_run argv w) as H.
  rewrite Hexit, Hc in H. change (default "status" (Some c)) with c in H.
  split; intros Hin.
  - repeat (apply elem_of_cons in Hin as [->|Hin]; [exact H|]).
    by apply elem_of_nil in Hin.
  - repeat (apply elem_of_cons in Hin as [->|Hin]; [eexists; exact H|]).
    by apply elem_of_nil in Hin.
Qed.

(** C7, amended: an absent subcommand falls back to [status]; an unknown
    one does not: [main] prints [Unknown command] and exits with code 1,
    and nothing has run.  A subcommand that [commands] holds is called
    with the parsed options, and [main] exits with code 0 unless the
    result has [success] [false] or the call throws, when it exits with
    code 1.  Whatever the command line, [main] returns an exit code, 0 or
    1. *)
Theorem main_subcommand (argv : list string) (w : World) :
  existsb exit_flag (drop 2 argv) = false →
  (words (drop 2 argv) = [] →
   main host argv w = exit_code status_success (status host (flags (drop 2 argv)) w))
  ∧ (∀ c, head (words (drop 2 argv)) = Some c →
       (c ∉ command_names → c ∉ prototype_names →
        main host argv w = (Ok 1%Z, printed Error ("Unknown command: " +:+ c) w))
       ∧ (∀ run, commands host c = Some run →
            main host argv w
            = exit_code (λ result, negb (reports_failure result))
                (run (flags (drop 2 argv)) w)))
  ∧ ∃ code w', main host argv w = (Ok code, w') ∧ (code = 0 ∨ code = 1)%Z.
Proof.
  intros Hexit. pose proof (main_run argv w) as H. rewrite Hexit in H.
  split; [|split].
  - intros Hc. rewrite Hc in H. cbn [head default] in H.
    change (commands host "status") with (Some (handler (status host) status_success)) in H.
    cbv beta iota in H. by rewrite handler_exit_code in H.
  - intros c Hc. rewrite Hc in H. change (default "status" (Some c)) with c in H. split.
    + intros Hn Hp. by rewrite commands_unknown in H.
    + intros run Hrun. by rewrite Hrun in H.
  - destruct (commands host _) as [run|]; [|rewrite H; eauto].
    rewrite H. unfold exit_code.
    destruct (run (flags (drop 2 argv)) w) as [[result|e] w']; [|eauto].
    destruct (negb (reports_failure result)); eauto.
Qed.

(** ** Commands on a machine where nothing is installed *)

(** X6: [update] and [uninstall] first ask [isInstalled] and, when the
    record or the server file is missing, report failure having printed
    one error and done nothing else: no command is run, no file is read or
    written.  [install], the other way round, refuses when the
    installation exists and [--force] is not given. *)
Theorem commands_need_installation (options : Options) (w : World) :
  (fst (isInstalled w) = Ok false →
   update options w
   = (Ok update_not_installed, printed Error "PAI Voice Server is not installed" w)
   ∧ uninstall options w
     = (Ok uninstall_not_installed, printed Error "PAI Voice Server is not installed" w))
  ∧ (fst (isInstalled w) = Ok true → force options = false →
     install host options w
     = (Ok install_already_installed,
        printed Error "PAI Voice Server is already installed" w)).
Proof.
  unfold isInstalled, gets. cbn [fst]. split.
  - intros [= Hno]. unfold update, uninstall, isInstalled.
    unfold_M. rewrite Hno. by split.
  - intros [= Hyes] Hforce. unfold install, isInstalled. unfold_M.
    by rewrite Hyes, Hforce.
Qed.

(** ** What the commands leave alone *)

Lemma toolSync_same t : preserves same_system (toolSync host t).
Proof.
  intros w r w'. unfold toolSync. destruct (exit_ok _); intros [= _ <-];
    (etrans; [apply same_system_ran|apply same_system_tick]).
Qed.

Lemma readFileSync_same p : preserves same_system (readFileSync p).
Proof. eapply preserves_weaken; [apply only_asked_same|apply readFileSync_asked]. Qed.

Create HintDb same discriminated.

#[local] Hint Resolve toolSync_same readFileSync_same readMetadata_same warn_same
  error_same sleep_same getStatus_same isRunning_same isLoaded_same
  getCustomizedFiles_same : same.

Ltac sames := repeat ask_step; eauto with same.

Lemma execOutput_tool_same t dry ignoreError :
  preserves same_system (execOutput_tool host t dry ignoreError).
Proof. unfold execOutput_tool. sames. Qed.

Lemma commandExists_same command : preserves same_system (commandExists host command).
Proof. unfold commandExists. sames. Qed.

#[local] Hint Resolve execOutput_tool_same commandExists_same : same.

Lemma getLogs_same lines : preserves same_system (getLogs host lines).
Proof. unfold getLogs. sames. Qed.

Lemma checkElevenLabsConfig_same : preserves same_system checkElevenLabsConfig.
Proof. unfold checkElevenLabsConfig. sames. Qed.

#[local] Hint Resolve getLogs_same checkElevenLabsConfig_same : same.

Lemma status_same options : preserves same_system (status host options).
Proof. unfold status, isInstalled. sames. Qed.

(** X13: [start], [stop] and [restart] never write a file nor make or
    remove a directory, in real runs as in dry runs: they change the
    supervisor's table at most.  They never throw.  Where nothing is
    installed they report failure having printed one error and run no
    command; [restart] fails through [stop] and does not go on to
    [start]. *)
Theorem service_commands_keep_files (options : Options) (w w' : World) :
  ((∀ r, start options w = (r, w') → same_fs w w')
   ∧ (∀ r, stop options w = (r, w') → same_fs w w')
   ∧ (∀ r, restart options w = (r, w') → same_fs w w'))
  ∧ (returns (start options) ∧ returns (stop options) ∧ returns (restart options))
  ∧ (fst (isInstalled w) = Ok false →
     start options w
     = (Ok start_not_installed, printed Error "PAI Voice Server is not installed" w)
     ∧ stop options w
       = (Ok stop_not_installed, printed Error "PAI Voice Server is not installed" w)
     ∧ restart options w
       = (Ok (restart_stop_failed stop_not_installed),
          printed Error "PAI Voice Server is not installed" w)).
Proof.
  split; [|split].
  - split; [|split]; intros r.
    + apply start_same_fs.
    + apply stop_same_fs.
    + apply restart_same_fs.
  - split; [|split].
    + apply start_returns.
    + apply stop_returns.
    + apply restart_returns.
  - unfold isInstalled, gets. cbn [fst]. intros [= Hno].
    unfold restart, start, stop, isInstalled.
    unfold_M. cbn [dryRun only_dryRun]. rewrite Hno. by repeat split.
Qed.

(** ** Which commands can throw *)

Lemma commandExists_returns command : returns (commandExists host command).
Proof. unfold commandExists. total. Qed.

#[local] Hint Resolve commandExists_returns : returns.

Lemma validateEnvironment_returns : returns (validateEnvironment host).
Proof.
  unfold validateEnvironment, validateBun, validateLaunchctl, checkPort,
    checkElevenLabsConfig, checkDirectoryPermissions.
  total.
Qed.

Lemma displayEnvironmentCheck_returns result : returns (displayEnvironmentCheck result).
Proof. unfold displayEnvironmentCheck. total. Qed.

Lemma install_component_returns dry c : returns (install_component dry c).
Proof. unfold install_component. total. Qed.

Lemma install_components_returns dry cs : ∀ installed,
  returns (install_components dry cs installed).
Proof.
  induction cs as [|c cs IH]; intros installed; cbn [install_components].
  - total.
  - apply returns_bind; [apply install_component_returns|].
    intros [r|[n|]]; try apply IH. total.
Qed.

#[local] Hint Resolve validateEnvironment_returns displayEnvironmentCheck_returns
  install_components_returns : returns.

Lemma install_returns options : returns (install host options).
Proof. unfold install. total. Qed.

Lemma checkElevenLabsConfig_returns : returns checkElevenLabsConfig.
Proof. unfold checkElevenLabsConfig. total. Qed.

Lemma getLogs_returns lines : returns (getLogs host lines).
Proof. unfold getLogs. total. Qed.

#[local] Hint Resolve checkElevenLabsConfig_returns getLogs_returns : returns.

(** What is [undefined], [null], [false], [0] or the empty string can be
    printed. *)
Lemma converts_falsy v : truthy v = false → converts v = true.
Proof. by destruct v. Qed.

(** [status] on an installation. *)
Lemma status_installed (options : Options) (w : World) :
  fst (isInstalled w) = Ok true →
  if reportable (stored_record w)
  then
    ∃ serviceStatus elevenLabsConfigured customized w',
      status host options w
      = (Ok (status_report (prop "version" (stored_record w)) serviceStatus
               elevenLabsConfigured customized), w')
  else ∃ e w', status host options w = (Throw e, w').
Proof.
  unfold isInstalled, gets. cbn [fst]. intros [= Hinst].
  set (meta := stored_record w).
  assert (∃ serviceStatus w2,
            same_fs w w2
            ∧ status host options w
              = (let* version := get meta "version" in
                 interpolate version;;
                 let* installDate := get meta "installDate" in
                 interpolate installDate;;
                 let* lastUpdate := get meta "lastUpdate" in
                 (if truthy lastUpdate then interpolate lastUpdate else ret tt);;
                 let* elevenLabsCheck := checkElevenLabsConfig in
                 let* customized := getCustomizedFiles in
                 (if verbose options then getLogs host 20;; ret tt else ret tt);;
                 ret (status_report version serviceStatus
                        (configured elevenLabsCheck)
                        (negb (Nat.eqb (length customized) 0)))) w2)
    as (serviceStatus&w2&S2&->).
  { unfold status. unfold bind at 1. unfold isInstalled, gets. rewrite Hinst. cbn [negb].
    unfold bind at 1. destruct (readMetadata_run w) as (w1&->&H1).
    assert (same_fs w w1) as S1.
    { destruct H1 as [->|[e ->]]; [reflexivity|apply same_system_printed]. }
    unfold bind at 1. destruct (getStatus_returns w1) as (serviceStatus&w2&E2).
    rewrite E2. apply getStatus_same, same_system_fs in E2 as S2.
    exists serviceStatus, w2. split; [by etrans|done]. }
  match goal with |- context [?m w2] => set (rest := m) end.
  assert (∃ r w', rest w2 = (r, w')
            ∧ match r with
              | Ok x =>
                  reportable meta = true
                  ∧ ∃ el cu, x = status_report (prop "version" meta) serviceStatus el cu
              | Throw _ => reportable meta = false
              end) as (r&w'&E&H).
  2: { rewrite E. destruct r as [x|e].
       - destruct H as (->&el&cu&->). eauto.
       - rewrite H. eauto. }
  unfold rest, reportable. clear rest.
  destruct (nullish meta) eqn:Hn; cbn [negb andb].
  { unfold bind at 1. destruct (get_throws meta "version" w2 Hn) as [e ->].
    by eexists _, _. }
  unfold bind at 1. rewrite get_run by done. cbv beta iota.
  unfold bind at 1. unfold interpolate at 1.
  destruct (converts (prop "version" meta)); cbn [andb]; [|by eexists _, _].
  unfold ret at 1. cbv beta iota.
  unfold bind at 1. rewrite get_run by done. cbv beta iota.
  unfold bind at 1. unfold interpolate at 1.
  destruct (converts (prop "installDate" meta)); cbn [andb]; [|by eexists _, _].
  unfold ret at 1. cbv beta iota.
  unfold bind at 1. rewrite get_run by done. cbv beta iota.
  unfold bind at 1.
  destruct (converts (prop "lastUpdate" meta)) eqn:Hl; cbn [andb].
  2: { destruct (truthy (prop "lastUpdate" meta)) eqn:Ht.
       - unfold interpolate. rewrite Hl. by eexists _, _.
       - apply converts_falsy in Ht. congruence. }
  assert ((if truthy (prop "lastUpdate" meta)
           then interpolate (prop "lastUpdate" meta) else ret tt) w2 = (Ok tt, w2)) as ->.
  { unfold interpolate. rewrite Hl. by destruct (truthy _). }
  unfold bind at 1.
  destruct (checkElevenLabsConfig_returns w2) as (el&w3&E3). rewrite E3.
  apply checkElevenLabsConfig_same, same_system_fs in E3 as S3.
  assert (stored_record w3 = meta) as Hrec.
  { unfold meta. rewrite (stored_record_same _ _ S3). apply (stored_record_same _ _ S2). }
  unfold bind at 1.
  destruct (without_components meta) eqn:Hc; cbn [negb].
  { rewrite <- Hrec in Hc.
    destruct (getCustomizedFiles_throws w3 Hc) as (e&w4&->&_). by eexists _, _. }
  rewrite <- Hrec in Hc.
  destruct (getCustomizedFiles_run w3 Hc) as (w4&->&_).
  unfold bind at 1. destruct (verbose options).
  - unfold bind at 1. destruct (getLogs_returns 20 w4) as (l&w5&->).
    unfold ret. eexists _, _. split; [done|]. split; [done|]. by eexists _, _.
  - unfold ret. eexists _, _. split; [done|]. split; [done|]. by eexists _, _.
Qed.

(** X7: [install] never throws: whatever the filesystem, the supervisor
    and the daemon do, it catches it and returns a result.  [update] and
    [uninstall] call [getCustomizedFiles] outside any [try]: they return a
    result where it finds the entries of the record (or no record), and
    [update] can print the version of the record; [uninstall] throws on an
    installation whose record has no [installedComponents]. *)
Theorem installer_commands_return (options : Options) :
  returns (install host options)
  ∧ (∀ w, without_components (stored_record w) = false →
          converts (prop "version" (stored_record w)) = true →
          ∃ r w', update options w = (Ok r, w'))
  ∧ (∀ w, without_components (stored_record w) = false →
          ∃ r w', uninstall options w = (Ok r, w'))
  ∧ (∀ w, fst (isInstalled w) = Ok true →
          without_components (stored_record w) = true →
          ∃ e w', uninstall options w = (Throw e, w')).
Proof.
  split; [|split; [|split]].
  - apply install_returns.
  - intros w. apply update_returns.
  - intros w. apply uninstall_returns.
  - intros w. unfold isInstalled, gets. cbn [fst]. intros [= Hinst] Hc.
    unfold uninstall. unfold isInstalled, gets, bind at 1. rewrite Hinst. cbn [negb].
    destruct (readMetadata_run w) as (w1&E&Hw1).
    unfold bind at 1. rewrite E.
    assert (same_fs w w1) as Hs.
    { destruct Hw1 as [->|[e ->]]; [reflexivity | apply same_system_printed]. }
    rewrite <- (stored_record_same _ _ Hs) in Hc.
    destruct (getCustomizedFiles_throws w1 Hc) as (e&w2&E2&_).
    unfold bind at 1. rewrite E2. eauto.
Qed.

(** X16: [status] changes nothing: no file, no directory, nothing the
    supervisor has loaded.  Where nothing is installed it reports that,
    with one error.  On an installation it throws, after it has probed
    the service, when the record cannot be read or is [null], when its
    version or one of its dates cannot be printed (an object with a
    property [toString]), and when it has no [installedComponents] for
    [getCustomizedFiles]; with any other record it returns a report of
    that record's version. *)
Theorem status_report_or_throw (options : Options) (w : World) :
  (∀ r w', status host options w = (r, w') → same_system w w')
  ∧ (fst (isInstalled w) = Ok false →
     status host options w
     = (Ok status_not_installed, printed Error "PAI Voice Server is not installed" w))
  ∧ (fst (isInstalled w) = Ok true →
     if reportable (stored_record w)
     then
       ∃ serviceStatus elevenLabsConfigured customized w',
         status host options w
         = (Ok (status_report (prop "version" (stored_record w)) serviceStatus
                  elevenLabsConfigured customized), w')
     else ∃ e w', status host options w = (Throw e, w')).
Proof.
  split; [|split].
  - intros r w'. apply status_same.
  - unfold isInstalled, gets. cbn [fst]. intros [= Hno].
    unfold status, isInstalled. unfold_M. by rewrite Hno.
  - apply status_installed.
Qed.

(** ** The permission check, and what a dry run of [install] does *)

#[local] Instance only_probed_preorder : PreOrder only_probed.
Proof.
  split.
  - intros w. split; [reflexivity|]. split; [done|]. split; [done|].
    apply union_subseteq_l.
  - intros w1 w2 w3 (C1&L1&D1&U1) (C2&L2&D2&U2).
    split; [by etrans|]. split; [congruence|]. split; [by etrans|].
    intros x [Hx|Hx]%U2%elem_of_union; [by apply U1|by apply elem_of_union_r].
Qed.

(** A world that differs in files at the test path at most, with the same
    directories. *)
Lemma only_probed_files w fs :
  (∀ q, q ≠ write_test_path → fs !! q = files w !! q) →
  only_probed w (set_files fs w).
Proof.
  intros H. split; [by split|]. split; [done|]. split; [done|].
  apply union_subseteq_l.
Qed.

Lemma same_system_probed w w' : same_system w w' → only_probed w w'.
Proof.
  intros [Hfs Hl]. split; [by apply same_fs_changed|]. split; [done|].
  destruct Hfs as (_&->&_). split; [done|]. apply union_subseteq_l.
Qed.

Lemma preserves_same_probed {A} (m : M A) :
  preserves same_system m → preserves only_probed m.
Proof. apply preserves_weaken. apply same_system_probed. Qed.

Lemma preserves_asked_same {A} (m : M A) :
  preserves only_asked m → preserves same_system m.
Proof. apply preserves_weaken. apply only_asked_same. Qed.

Lemma validateBun_same : preserves same_system (validateBun host).
Proof.
  unfold validateBun, getBunPath. sames.
Qed.

Lemma validateLaunchctl_same : preserves same_system (validateLaunchctl host).
Proof. unfold validateLaunchctl. sames. Qed.

Lemma checkPort_same : preserves same_system (checkPort host).
Proof.
  unfold checkPort. pose proof (preserves_asked_same _ (lsof_asked false true)). sames.
Qed.

Lemma displayEnvironmentCheck_same result :
  preserves same_system (displayEnvironmentCheck result).
Proof. unfold displayEnvironmentCheck. sames. Qed.

(** [checkDirectoryPermissions] on the base directory. *)
Lemma checkDirectoryPermissions_probed :
  preserves only_probed (checkDirectoryPermissions "~/.claude").
Proof.
  assert (∀ w, only_probed w
                 (set_dirs (dirs w ∪ list_to_set
                              (ancestors (S (String.length getInstallBasePath))
                                 getInstallBasePath)) w)) as Hmk.
  { intros w. split; [done|]. split; [done|]. cbn [dirs set_dirs].
    split; [apply union_subseteq_l|done]. }
  assert (∀ w f, only_probed w (set_files (<[write_test_path := f]> (files w)) w)) as Hwr.
  { intros w f. apply only_probed_files. intros q Hq. by rewrite lookup_insert_ne. }
  assert (∀ w, only_probed w (set_files (delete write_test_path (files w)) w)) as Hrm.
  { intros w. apply only_probed_files. intros q Hq. by rewrite lookup_delete_ne. }
  assert (preserves only_probed (mkdirSync getInstallBasePath)) as Hmkdir.
  { intros w r w'. unfold mkdirSync. fs_cases; intros [= _ <-];
      first [reflexivity | apply Hmk]. }
  assert (preserves only_probed (writeFileSync write_test_path "test")) as Hwrite.
  { intros w r w'. unfold writeFileSync, store.
    destruct (files w !! write_test_path); fs_cases; intros [= _ <-];
      first [reflexivity | apply Hwr]. }
  assert (preserves only_probed (unlinkSync write_test_path)) as Hunlink.
  { intros w r w'. unfold unlinkSync.
    destruct (files w !! write_test_path); repeat case_bool_decide; intros [= _ <-];
      first [reflexivity | apply Hrm]. }
  unfold checkDirectoryPermissions.
  change (expandHome "~/.claude") with getInstallBasePath.
  change (join getInstallBasePath ".write-test") with write_test_path.
  frame; eauto.
Qed.

Create HintDb probed discriminated.

#[local] Hint Resolve preserves_asked_same | 10 : same.
#[local] Hint Resolve validateBun_same validateLaunchctl_same checkPort_same
  displayEnvironmentCheck_same : same.
#[local] Hint Resolve preserves_same_probed | 10 : probed.
#[local] Hint Resolve checkDirectoryPermissions_probed : probed.

Ltac probes := repeat ask_step; eauto with probed same asked.

Lemma validateEnvironment_probed : preserves only_probed (validateEnvironment host).
Proof. unfold validateEnvironment. probes. Qed.

Lemma install_component_dry c : preserves only_asked (install_component true c).
Proof. unfold install_component. asks. Qed.

Lemma install_components_dry cs : ∀ installed,
  preserves only_asked (install_components true cs installed).
Proof.
  induction cs as [|c cs IH]; intros installed; cbn [install_components].
  - asks.
  - apply preserves_bind; [apply install_component_dry|].
    intros [r|[n|]]; try apply IH. asks.
Qed.

#[local] Hint Resolve validateEnvironment_probed : probed.
#[local] Hint Resolve install_components_dry : asked.

(** X11: A dry run of [install] is not free of effects: the validation of
    the environment knows nothing of the flag, and its permission check makes
    the base directory [~/.claude] when it is missing, writes the file
    [.write-test] into it and removes that file again.  Beyond that a dry
    run writes nothing: every other file is as it was, no other directory
    is made, none is removed, and the agent is not loaded. *)
Theorem install_dry_run (options : Options) (w : World) (r : Res InstallResult)
    (w' : World) :
  dryRun options = true → install host options w = (r, w') → only_probed w w'.
Proof.
  intros Hdry. revert w r w'. change (preserves only_probed (install host options)).
  unfold install. rewrite Hdry. probes.
Qed.




(** ** The verdict of the environment check *)

Lemma push_if_length cond message l :
  length (push_if cond message l) = (length l + if cond then 1 else 0)%nat.
Proof. unfold push_if. destruct cond; [|lia]. rewrite length_app. simpl. lia. Qed.

(** X17: [validateEnvironment] never throws, and the environment is valid
    exactly when the five hard checks pass: platform, Node version, Bun,
    [launchctl] and write permission.  A busy port and a missing
    ElevenLabs key are warnings: every failed hard check gives one error,
    each of the two soft checks one warning, and the verdict does not
    depend on the warnings. *)
Theorem validateEnvironment_verdict (w : World) :
  ∃ result w',
    validateEnvironment host w = (Ok result, w')
    ∧ ck_platform (checks result) = validatePlatform host
    ∧ ck_nodeVersion (checks result) = validateNodeVersion host
    ∧ env_valid result
      = valid (ck_platform (checks result)) && valid (ck_nodeVersion (checks result))
        && valid (ck_bun (checks result)) && valid (ck_launchctl (checks result))
        && writable (ck_permissions (checks result))
    ∧ length (errors result)
      = length (filter (λ ok : bool, ok = false)
                  [valid (ck_platform (checks result));
                   valid (ck_nodeVersion (checks result));
                   valid (ck_bun (checks result));
                   valid (ck_launchctl (checks result));
                   writable (ck_permissions (checks result))])
    ∧ length (warnings result)
      = length (filter (λ ok : bool, ok = false)
                  [available (ck_port (checks result));
                   configured (ck_elevenLabs (checks result))]).
Proof.
  destruct (validateEnvironment_returns w) as (result&w'&E). exists result, w'.
  split; [exact E|]. revert E. unfold validateEnvironment.
  intros E.
  apply bind_inv in E as [(c_bun&w1&_&E)|(?&_&?)]; [|done].
  apply bind_inv in E as [(c_launchctl&w2&_&E)|(?&_&?)]; [|done].
  apply bind_inv in E as [(c_port&w3&_&E)|(?&_&?)]; [|done].
  apply bind_inv in E as [(c_elevenLabs&w4&_&E)|(?&_&?)]; [|done].
  apply bind_inv in E as [(c_permissions&w5&_&E)|(?&_&?)]; [|done].
  injection E as <- _. cbn [checks ck_platform ck_nodeVersion ck_bun ck_launchctl
    ck_port ck_elevenLabs ck_permissions env_valid errors warnings].
  split; [done|]. split; [done|].
  rewrite !push_if_length. cbn [length].
  destruct (valid (validatePlatform host)), (valid (validateNodeVersion host)),
    (valid c_bun), (valid c_launchctl), (writable c_permissions),
    (available c_port), (configured c_elevenLabs); done.
Qed.

(** ** A real [install] *)

(** The last character of a string. *)
Fixpoint last_char (s : string) : option ascii :=
  match s with
  | EmptyString => None
  | String a EmptyString => Some a
  | String _ s' => last_char s'
  end.

Lemma last_char_app (a : string) (c : ascii) (b : string) :
  last_char (a +:+ String c b) = last_char (String c b).
Proof.
  induction a as [|x a IH]; [done|].
  change (String x a +:+ String c b) with (String x (a +:+ String c b)).
  cbn [last_char]. rewrite IH. by destruct a.
Qed.

(** A source of the server is not the test file of the permission check. *)
Lemma source_not_write_test (d : string) : join d "server.ts" ≠ write_test_path.
Proof.
  unfold write_test_path, join. intros H%(f_equal last_char).
  change (last_char (d +:+ String "/" "server.ts")
          = last_char (getInstallBasePath +:+ String "/" ".write-test")) in H.
  rewrite !last_char_app in H. discriminate H.
Qed.

Lemma install_component_server w turn w' :
  install_component false server w = (Ok (inr turn), w') →
  turn = Some "server"
  ∧ ∃ sourcePath s t,
      (sourcePath = join (join package_dir "dist") "server.ts"
       ∨ sourcePath = join (dirname package_dir) "server.ts")
      ∧ files w !! sourcePath = Some s
      ∧ files w' !! getServerPath = Some t
      ∧ f_data t = f_data s.
Proof.
  unfold install_component. intros E.
  apply try_catch_inv in E as [(a&E&[= <-])|(e&w1&_&E)].
  - apply bind_inv in E as [(sourcePath&w1&E1&E)|(?&_&?)]; [|done].
    apply bind_inv in E as [(copied&w2&E2&E)|(?&_&?)]; [|done].
    injection E as <- <-. split; [done|].
    pose proof (resolveSourcePath_same _ _ _ _ E1) as ->.
    apply resolveSourcePath_found in E1. cbn [source target server] in *.
    exists sourcePath. destruct (existsSync sourcePath w) eqn:Hsrc.
    + apply copyFile_copies in E2 as (_&_&s&t&?&?&?&_); [eauto 10|done|by right].
    + revert E2. unfold copyFile. unfold_M. by rewrite Hsrc.
  - rewrite bool_decide_eq_true_2 in E by done.
    apply bind_inv in E as [(?&?&_&E)|(?&_&?)]; done.
Qed.

Lemma install_component_failed dry c w r w' :
  install_component dry c w = (Ok (inl r), w') →
  ∃ e, r = install_component_install_failed (name c) e.
Proof.
  unfold install_component. intros E.
  apply try_catch_inv in E as [(a&E&[= <-])|(e&w1&_&E)].
  - apply bind_inv in E as [(sourcePath&w1&_&E)|(?&_&?)]; [|done].
    apply bind_inv in E as [(copied&w2&E2&E)|(?&_&?)]; done.
  - destruct (bool_decide _).
    + apply bind_inv in E as [(?&?&_&E)|(?&_&?)]; [|done]. injection E as <- _. eauto.
    + apply bind_inv in E as [(?&?&_&E)|(?&_&?)]; done.
Qed.

Lemma install_component_voices dry :
  preserves (changed (λ q, q = getVoicesPath)) (install_component dry voices).
Proof. unfold install_component. frames. Qed.

Lemma createPlist_written w created w' :
  createPlist false w = (Ok created, w') →
  is_Some (files w' !! getLaunchAgentPath).
Proof.
  unfold createPlist. intros E.
  apply try_catch_inv in E as [(a&E&_)|(e&w1&_&E)]; [|done].
  apply bind_inv in E as [(present&w1&_&E)|(?&_&?)]; [|done].
  apply bind_inv in E as [([]&w2&_&E)|(?&_&?)]; [|done].
  apply bind_inv in E as [(plistContent&w3&_&E)|(?&_&?)]; [|done].
  apply bind_inv in E as [([]&w4&E4&E)|(?&_&?)]; [|done].
  injection E as _ <-. apply store_ok in E4 as (f&->&_).
  cbn [files set_files]. rewrite lookup_insert_eq. by eexists.
Qed.

(** X21: A real [install] that reports success has installed the server
    that was shipped: the installed server has the bytes of the source
    file the package holds, the plist of the LaunchAgent is in place, and
    the server is listed among the installed components.  The record is
    another matter: when writing it fails, [install] warns and still
    reports success.  So after a successful [install] either
    [isInstalled] holds or the warning is on the console. *)
Theorem install_installs (options : Options) (w : World)
    (installed : list string) (installPath : string) (dry : bool) (w' : World) :
  dryRun options = false →
  install host options w = (Ok (install_done installed installPath dry), w') →
  "server" ∈ installed
  ∧ (∃ sourcePath s t,
       (sourcePath = join (join package_dir "dist") "server.ts"
        ∨ sourcePath = join (dirname package_dir) "server.ts")
       ∧ files w !! sourcePath = Some s
       ∧ files w' !! getServerPath = Some t
       ∧ f_data t = f_data s)
  ∧ is_Some (files w' !! getLaunchAgentPath)
  ∧ (fst (isInstalled w') = Ok true
     ∨ ∃ e, (Warn, "Failed to create metadata: " +:+ e) ∈ console w').
Proof. clear JSON_parse.
  intros Hdry E. unfold install in E. rewrite Hdry in E. cbn [negb] in E.
  apply bind_inv in E as [(present&w1&E1&E)|(?&_&?)]; [|done].
  unfold isInstalled, gets in E1. injection E1 as _ <-.
  destruct (_ && negb (force options)).
  { apply bind_inv in E as [(?&?&_&E)|(?&_&?)]; done. }
  apply bind_inv in E as [(envCheck&w2&E2&E)|(?&_&?)]; [|done].
  apply validateEnvironment_probed in E2 as [[F2 _] _].
  apply bind_inv in E as [([]&w3&E3&E)|(?&_&?)]; [|done].
  apply displayEnvironmentCheck_same in E3 as [[F3 _] _].
  destruct (negb (env_valid envCheck)); [done|].
  apply bind_inv in E as [(created&w4&E4&E)|(?&_&?)]; [|done].
  assert (changed (λ _, False) w3 w4) as [F4 _].
  { run_frame E4. frames. }
  destruct created as [e|]; [done|].
  apply bind_inv in E as [(copied&w5&E5&E)|(?&_&?)]; [|done].
  assert (∃ installedComponents,
            copied = inr installedComponents
            ∧ "server" ∈ installedComponents
            ∧ ∃ sourcePath s t,
                (sourcePath = join (join package_dir "dist") "server.ts"
                 ∨ sourcePath = join (dirname package_dir) "server.ts")
                ∧ files w !! sourcePath = Some s
                ∧ files w5 !! getServerPath = Some t
                ∧ f_data t = f_data s)
    as (installedComponents&->&Hin&sourcePath&s&t&Hsource&Hs&Ht&Hdata).
  { revert E5. unfold getAllComponents. cbn [install_components]. intros E5.
    apply bind_inv in E5 as [(turn&w4a&Ea&E5)|(?&_&?)]; [|done].
    destruct turn as [r|turn].
    { apply install_component_failed in Ea as [e ->]. by injection E5 as <- <-. }
    apply install_component_server in Ea as (->&sourcePath&s&t&Hsource&Hs&Ht&Hdata).
    rewrite F4, F3, F2 in Hs
      by first [tauto | destruct Hsource as [->| ->]; apply source_not_write_test].
    cbn [app] in E5.
    apply bind_inv in E5 as [(turn&w4b&Eb&E5)|(?&_&?)]; [|done].
    pose proof (install_component_voices _ _ _ _ Eb) as [Hb _].
    rewrite <- (Hb getServerPath) in Ht by apply server_not_voices.
    destruct turn as [r|[n|]].
    - apply install_component_failed in Eb as [e ->]. by injection E5 as <- <-.
    - injection E5 as <- <-. eexists. split; [done|]. split; [|eauto 10].
      apply list_elem_of_here.
    - injection E5 as <- <-. eexists. split; [done|]. split; [|eauto 10].
      apply list_elem_of_here. }
  apply bind_inv in E as [(plist&w6&E6&E)|(?&_&?)]; [|done].
  destruct plist as [e|]; [done|].
  apply try_catch_inv in E6 as [(a&E6&_)|(e&w6'&_&E6)].
  2:{ apply bind_inv in E6 as [(?&?&_&E6)|(?&_&?)]; done. }
  apply bind_inv in E6 as [(created&w6'&E6&E6')|(?&_&?)]; [|done].
  injection E6' as _ <-.
  pose proof (createPlist_written _ _ _ E6) as Hplist.
  assert (files w6' !! getServerPath = files w5 !! getServerPath) as Hs6.
  { apply (createPlist_write (λ q, q = getLaunchAgentPath)) in E6 as [[Hf _] _];
      [|done].
    apply Hf. intros H. by apply plist_not_server. }
  apply bind_inv in E as [([]&w7&E7&E)|(?&_&?)]; [|done].
  assert (same_fs w6' w7) as (Hf7&_).
  { run_frame E7. frames. }
  apply bind_inv in E as [([]&w8&E8&E)|(?&_&?)]; [|done].
  apply bind_inv in E as [([]&w9&E9&E)|(?&_&?)]; [|done].
  injection E as <- _ _ <-.
  assert (same_system w8 w9) as ((Hf9&_)&_).
  { run_frame E9. frames. }
  assert (∀ l, l ∈ console w8 → l ∈ console w9) as Hc9.
  { revert E9. destruct (negb _); unfold warn, modify, ret; intros [= <-]; [|done].
    intros l Hl. cbn [console printed]. apply elem_of_app. by left. }
  rewrite Hf9. split; [done|].
  apply try_catch_inv in E8 as [([]&E8&_)|(e&w8'&E8&E8')].
  - apply bind_inv in E8 as [(m&w8'&E8&E8')|(?&_&?)]; [|done].
    injection E8' as <-. apply createMetadata_real in E8 as (_&_&mode&->).
    cbn [files set_files].
    rewrite !lookup_insert_ne by
      first [apply not_eq_sym, server_not_metadata | apply not_eq_sym, plist_not_metadata].
    rewrite Hf7, Hs6. split; [eauto 10|]. split; [done|]. left.
    unfold isInstalled, gets. cbn [fst]. f_equal. apply andb_true_intro. split.
    + apply bool_decide_eq_true. left. rewrite Hf9. cbn [files set_files].
      rewrite lookup_insert_eq. by eexists.
    + apply bool_decide_eq_true. left. rewrite Hf9. cbn [files set_files].
      rewrite lookup_insert_ne by apply not_eq_sym, server_not_metadata.
      rewrite Hf7, Hs6, Ht. by eexists.
  - apply bind_inv in E8 as [(?&?&_&?)|(e'&E8&_)]; [done|].
    assert (changed (λ q, q = getMetadataPath) w7 w8') as [Hf8 _].
    { run_frame E8. unfold createMetadata, fresh_metadata, created_turn, set_component, isoNow.
      frames. }
    unfold warn, modify in E8'. injection E8' as <-. cbn [files printed].
    rewrite !Hf8 by
      first [apply server_not_metadata | apply plist_not_metadata].
    rewrite Hf7, Hs6. split; [eauto 10|]. split; [done|]. right.
    exists e. apply Hc9. cbn [console printed]. apply elem_of_app. right.
    apply list_elem_of_here.
Qed.

(** ** The Node version *)

(** X18: [validateNodeVersion] compares major versions: a version
    [vN.rest] is accepted exactly when [N] is at least 18, whatever follows the
    first dot.  A version whose first character is ASCII and whose first
    segment starts with no digit, no sign and no byte that begins white
    space is accepted too: [parseInt] gives [NaN], and [NaN < 18] is
    false. *)
Theorem validateNodeVersion_major :
  (∀ (major : N) (rest : string),
     process_version host = "v" +:+ decimal major +:+ "." +:+ rest →
     valid (validateNodeVersion host) = bool_decide (18 ≤ major)%N)
  ∧ (∀ (c0 c : ascii) (rest : string),
       process_version host = String c0 (String c rest) →
       (N_of_ascii c0 < 128)%N →
       digit_of c = None → begins_white_space c = false →
       c ≠ "-"%char → c ≠ "+"%char →
       valid (validateNodeVersion host) = true).
Proof.
  split.
  - intros major rest Hv. unfold validateNodeVersion. rewrite Hv.
    change ("v" +:+ decimal major +:+ "." +:+ rest)
      with (String "v" (decimal major +:+ String "." rest)).
    rewrite slice_1, split_number by (by apply digits_number).
    rewrite parseInt_decimal.
    change (parseInt (hd "" (split "." minNodeVersion))) with (Some 18%Z).
    cbn [js_lt]. destruct (Z.ltb_spec (Z.of_N major) 18).
    + by rewrite bool_decide_eq_false_2 by lia.
    + by rewrite bool_decide_eq_true_2 by lia.
  - intros c0 c rest Hv _ Hd Hs Hm Hp. unfold validateNodeVersion. rewrite Hv.
    by rewrite slice_1, parseInt_not_a_number.
Qed.

(** ** The permission check of the environment validation *)


(** ** What [install] and [update] may write *)

Lemma install_components_changed (S : string → Prop) dry cs :
  (∀ c, c ∈ cs → S (target c)) →
  ∀ installed, preserves (changed S) (install_components dry cs installed).
Proof.
  induction cs as [|c cs IH]; intros HS installed; cbn [install_components].
  - frames.
  - apply preserves_bind.
    + unfold install_component. frames.
      apply preserves_fs_write_changed, copyFile_write, HS, list_elem_of_here.
    + intros [r|[n|]]; try (apply IH; intros c' Hc'; apply HS; by right). frames.
Qed.

(** X22: Whatever [update] and [install] do and however they end, every
    file that is not a component of the installation, a backup of one, the
    record or the plist keeps its bytes and its permissions; [install]
    may besides remove the file [.write-test] in [~/.claude]. *)
Theorem installer_touches_only (options : Options) (w w' : World) :
  (∀ r, update options w = (r, w') → changed installation_paths w w')
  ∧ (∀ r, install host options w = (r, w') →
       changed (λ q, installation_paths q ∨ q = write_test_path) w w').
Proof.
  split; intros r E.
  - run_frame E. unfold update, isInstalled.
    pose proof (update_launchagent_changed installation_paths) as Hplist.
    pose proof (update_metadata_changed installation_paths) as Hrecord.
    frame;
      lazymatch goal with
      | |- preserves _ (update_components _ _ _ _ _) =>
          apply update_components_changed; intros c Hc;
          eapply preserves_weaken; [|apply update_component_changed];
          intros ? ?; apply changed_weaken; intros q Hq; by eapply component_path
      | |- preserves _ (update_launchagent _) => apply Hplist; right; by right
      | |- preserves _ (update_metadata _) => apply Hrecord; right; by left
      | |- preserves _ getInstalledVersion =>
          eapply preserves_weaken; [|apply getInstalledVersion_same];
          intros ? ? ?; by apply same_fs_changed, same_system_fs
      | |- preserves _ getCustomizedFiles =>
          eapply preserves_weaken; [|apply getCustomizedFiles_same];
          intros ? ? ?; by apply same_fs_changed, same_system_fs
      | |- preserves _ (update_stop _) =>
          eapply preserves_weaken; [|apply update_stop_same_fs];
          intros ? ? ?; by apply same_fs_changed
      | |- preserves _ (update_restart _ _) =>
          eapply preserves_weaken; [|apply update_restart_same_fs];
          intros ? ? ?; by apply same_fs_changed
      | |- _ => eauto with frame
      end.
  - run_frame E. unfold install, isInstalled.
    frame;
      lazymatch goal with
      | |- preserves _ (validateEnvironment _) =>
          eapply preserves_weaken; [|apply validateEnvironment_probed];
          intros ? ? [Hc _]; revert Hc; apply changed_weaken; intros q Hq; by right
      | |- preserves _ (displayEnvironmentCheck _) =>
          eapply preserves_weaken; [|apply displayEnvironmentCheck_same];
          intros ? ? ?; by apply same_fs_changed, same_system_fs
      | |- preserves _ (install_components _ _ _) =>
          apply install_components_changed; intros c Hc; left;
          eapply component_path; [exact Hc|by left]
      | |- preserves _ (createPlist _) =>
          apply preserves_fs_write_changed, createPlist_write; left; right; by right
      | |- preserves _ (createMetadata _) =>
          unfold createMetadata, fresh_metadata, created_turn, set_component, isoNow;
          frame;
          first [ apply preserves_fs_write_changed, writeJSON_write; left; right; by left
                | eauto with frame ]
      | |- preserves _ (load _) =>
          eapply preserves_weaken; [|apply load_same_fs];
          intros ? ? ?; by apply same_fs_changed
      | |- preserves _ (waitForStart _) =>
          eapply preserves_weaken; [|apply waitForStart_same_fs];
          intros ? ? ?; by apply same_fs_changed
      | |- _ => eauto with frame
      end.
Qed.

End HostProperties.

End Installer.

(** * The model on sample worlds *)

(** ** Customization detection on sample worlds *)

Abbreviation sample_getCustomizedFiles :=
  (getCustomizedFiles sample_sha256 sample_parse sample_home).

(** C4 as the specification words it fails: the server component has
    [preserveOnUpdate = false], yet once its installed file is edited
    [getCustomizedFiles] returns its name. *)
Lemma getCustomizedFiles_flags_server :
  preserveOnUpdate (server sample_home) = false
  ∧ fst (sample_getCustomizedFiles (sample_world "server v1, patched" "voices v1"))
    = Ok ["server"].
Proof. split; [reflexivity | vm_compute; reflexivity]. Qed.

(** On an installation whose record is [{}], [getCustomizedFiles] throws
    the TypeError of reading a property of [undefined]. *)
Lemma getCustomizedFiles_without_components :
  fst (sample_getCustomizedFiles sample_empty_record_world)
  = Throw "Cannot read properties of undefined (reading 'server')".
Proof. vm_compute. reflexivity. Qed.

(** ** Copying on sample worlds *)



(** ** Waiting for the daemon on sample worlds *)

(** C6 as the specification words it fails: the daemon listens but never
    answers the health request, each probe running into curl's limit of two
    seconds.  With a timeout of one second [waitForStart] resolves [false]
    after three seconds, later than the timeout plus one poll interval. *)
Lemma waitForStart_overshoots :
  (∀ w1, daemon w1 = daemon sample_hanging_world → fst (isRunning w1) = Ok false)
  ∧ ∃ w', waitForStart 1 sample_hanging_world = (Ok false, w')
          ∧ (now w' - now sample_hanging_world = 3000)%Z
          ∧ (1 * 1000 + 1000 < 3000)%Z.
Proof.
  split.
  - intros [? ? ? ? ? ? ? d ? ? ?] Hd. simpl in Hd. subst d. reflexivity.
  - eexists. split; [vm_compute; reflexivity|]. split; [reflexivity|lia].
Qed.

(** [waitForStart_converges] at work: ten seconds of waiting for a daemon
    that is down, and an immediate answer from one that is up. *)
Lemma waitForStart_converges_witness :
  (∃ w', waitForStart 10 sample_down_world = (Ok false, w')
         ∧ (10 * 1000 ≤ now w' - now sample_down_world)%Z
         ∧ (now w' - now sample_down_world < 10 * 1000 + 1000 + 0)%Z)
  ∧ waitForStart 10 sample_up_world = (Ok true, snd (isRunning sample_up_world)).
Proof.
  split.
  - destruct (waitForStart_converges 10 sample_down_world) as (_&Hdown&_).
    destruct (Hdown 0%Z) as (w'&E&Hlo&Hhi).
    { intros [? ? ? ? ? ? ? d ? ? ?] Hd. simpl in Hd. subst d.
      split; [reflexivity | simpl; lia]. }
    exists w'. split; [done|]. split; [done|]. apply Hhi. lia.
  - apply (waitForStart_converges 10 sample_up_world) with (k := 0%nat).
    + intros j Hj. lia.
    + reflexivity.
    + reflexivity.
Defined.

(** ** The installer on sample worlds *)

Abbreviation sample_update :=
  (update sample_sha256 sample_toISOString sample_stringify sample_parse
     sample_home sample_package_dir).

Abbreviation sample_load := (load sample_home).
Abbreviation sample_unload := (unload sample_home).

(** [update_already_up_to_date] applies: version 1.0.0 is installed and
    version 1.0.0 is offered. *)
Lemma update_already_up_to_date_witness :
  sample_update "1.0.0" (mkOptions false false false false false false) sample_down_world
  = (Ok update_alreadyUpToDate, sample_down_world).
Proof.
  apply (update_already_up_to_date sample_sha256 sample_toISOString sample_stringify
           sample_parse sample_home sample_package_dir "1.0.0").
  - reflexivity.
  - vm_compute. reflexivity.
  - reflexivity.
Defined.

(** C5 on the code: the supervisor refuses to load the agent (exit status
    1, [Load failed: 5: Input/output error]), and [load] returns [true]; the
    agent is not loaded.  The same holds for [unload].  Both call [exec]
    with [ignoreError: true], so the [catch] that would raise is never
    reached. *)
Lemma load_reports_success_when_launchctl_fails :
  exit_ok (launchctl_load_reply sample_refusing_world) = false
  ∧ fst (sample_load false sample_refusing_world) = Ok true
  ∧ loaded (snd (sample_load false sample_refusing_world)) = false
  ∧ console (snd (sample_load false sample_refusing_world)) = []
  ∧ fst (sample_unload false sample_refusing_world) = Ok true.
Proof. repeat split; vm_compute; reflexivity. Qed.

Abbreviation sample_createMetadata :=
  (createMetadata sample_sha256 sample_toISOString sample_stringify sample_home).

Abbreviation real_run := (mkOptions false false false false false false).

Abbreviation sample_updateAfterInstall :=
  (updateAfterInstall sample_sha256 sample_toISOString sample_stringify sample_parse
     sample_home).



(** C1 on the code: the voice configuration was edited and is reported
    as customized; [update] to version 1.0.1 completes, preserving the
    file; right afterwards [getCustomizedFiles] reports nothing, the
    record now holding the hash of the edited file.  The next update
    therefore replaces the edited file by the shipped one. *)
Lemma update_forgets_customization :
  preserveOnUpdate (voices sample_home) = true
  ∧ fst (sample_getCustomizedFiles sample_customized_world) = Ok ["voices"]
  ∧ fst (sample_update "1.0.1" real_run sample_customized_world)
    = Ok (update_done (JString "1.0.0") "1.0.1" ["server"] ["voices"] false)
  ∧ f_data <$> files (snd (sample_update "1.0.1" real_run sample_customized_world))
                 !! sample_voices_path
    = Some "voices v1, edited"
  ∧ fst (sample_getCustomizedFiles
           (snd (sample_update "1.0.1" real_run sample_customized_world)))
    = Ok []
  ∧ f_data <$> files (snd (sample_update "1.0.2" real_run
                             (snd (sample_update "1.0.1" real_run
                                     sample_customized_world))))
                 !! sample_voices_path
    = Some "voices v2".
Proof. repeat split; vm_compute; reflexivity. Qed.

Abbreviation sample_backupFile := (backupFile sample_toISOString).

(** [backupFile_never_raises] applies: the backup of the patched server
    cannot be written; [backupFile] warns and returns [null], and the turn
    of [update] for the server still installs the shipped server. *)
Lemma backupFile_never_raises_witness :
  sample_backupFile sample_server_path false sample_no_backup_world
  = (Ok None,
     printed Warn
       ("Failed to backup " +:+ sample_server_path +:+ ": "
        +:+ eacces "copyfile" sample_backup_path)
       sample_no_backup_world)
  ∧ ∃ w' t,
      update_component sample_toISOString sample_package_dir false ["server"]
        (server sample_home) sample_no_backup_world
      = (Ok turn_updated, w')
      ∧ files w' !! sample_server_path = Some t ∧ f_data t = "server v2"
      ∧ files w' !! sample_backup_path = None.
Proof.
  destruct (backupFile_never_raises sample_toISOString sample_package_dir
              sample_server_path sample_no_backup_world) as (_&Hwarn&Hturn).
  split.
  - apply Hwarn; vm_compute; reflexivity.
  - edestruct (Hturn ["server"] (server sample_home)
                 (eacces "copyfile" sample_backup_path)
                 "/opt/pai/setup/dist/server.ts" (mkFile "server v2" 33261))
      as (w'&t&Hrun&_&Ht&Hdata&Hbackup).
    + reflexivity.
    + left.
    + reflexivity.
    + vm_compute. reflexivity.
    + vm_compute. reflexivity.
    + vm_compute. reflexivity.
    + vm_compute. reflexivity.
    + apply not_elem_of_empty.
    + vm_compute. intros H. discriminate H.
    + vm_compute. by eexists.
    + vm_compute. reflexivity.
    + exists w', t. split; [exact Hrun|]. split; [exact Ht|]. split; [exact Hdata|].
      etrans; [exact Hbackup|]. vm_compute. reflexivity.
Defined.


(** ** The command line on sample worlds *)

Abbreviation sample_main :=
  (main sample_sha256 sample_toISOString sample_stringify sample_parse sample_home
     sample_package_dir sample_version sample_host).
Abbreviation sample_install :=
  (install sample_sha256 sample_toISOString sample_stringify sample_home
     sample_package_dir sample_version sample_host).
Abbreviation sample_uninstall := (uninstall sample_sha256 sample_parse sample_home).
Abbreviation sample_status := (status sample_sha256 sample_parse sample_home sample_host).
Abbreviation sample_verify := (verify sample_parse sample_home).
Abbreviation sample_start := (start sample_home).
Abbreviation sample_stop := (stop sample_home).
Abbreviation sample_restart := (restart sample_home).
Abbreviation dry_run := (mkOptions true false false false false false).

(** [main_unknown_command] applies: a mistyped command. *)
Lemma main_unknown_command_witness :
  sample_main ["node"; "install.js"; "--dry-run"; "instal"] sample_down_world
  = (Ok 1%Z, printed Error "Unknown command: instal" sample_down_world).
Proof.
  apply (main_unknown_command sample_sha256 sample_toISOString sample_stringify
           sample_parse sample_home sample_package_dir sample_version sample_host
           ["node"; "install.js"; "--dry-run"; "instal"] "instal" sample_down_world).
  - reflexivity.
  - reflexivity.
  - apply (bool_decide_unpack _). vm_compute. exact I.
  - apply (bool_decide_unpack _). vm_compute. exact I.
Defined.

(** [main_default_status] applies: no command word, one flag.  The
    installation is there, so the exit code is 0. *)
Lemma main_default_status_witness :
  sample_main ["node"; "install.js"; "--verbose"] sample_down_world
  = exit_code status_success
      (sample_status (flags ["--verbose"]) sample_down_world)
  ∧ fst (sample_main ["node"; "install.js"; "--verbose"] sample_down_world) = Ok 0%Z.
Proof.
  split.
  - apply (main_default_status sample_sha256 sample_toISOString sample_stringify
             sample_parse sample_home sample_package_dir sample_version sample_host
             ["node"; "install.js"; "--verbose"] sample_down_world); reflexivity.
  - vm_compute. reflexivity.
Defined.

(** [main_exit_code] applies: [stop] behind a flag, on a daemon that is
    down already. *)
Lemma main_exit_code_witness :
  sample_main ["node"; "install.js"; "-y"; "stop"] sample_down_world
  = exit_code stop_success (sample_stop (flags ["-y"; "stop"]) sample_down_world).
Proof.
  destruct (main_exit_code sample_sha256 sample_toISOString sample_stringify
              sample_parse sample_home sample_package_dir sample_version sample_host
              ["node"; "install.js"; "-y"; "stop"] "stop" sample_down_world)
    as (_&_&_&_&Hstop&_); [reflexivity|reflexivity|].
  exact (Hstop eq_refl).
Defined.

(** [main_inherited_names] applies: [toString] runs silently and exits
    with 0, [__proto__] is reported as an error. *)
Lemma main_inherited_names_witness :
  sample_main ["node"; "install.js"; "toString"] sample_down_world
  = (Ok 0%Z, sample_down_world)
  ∧ ∃ e, sample_main ["node"; "install.js"; "__proto__"] sample_down_world
         = (Ok 1%Z, printed Error e sample_down_world).
Proof.
  split.
  - destruct (main_inherited_names sample_sha256 sample_toISOString sample_stringify
                sample_parse sample_home sample_package_dir sample_version sample_host
                ["node"; "install.js"; "toString"] "toString" sample_down_world)
      as [Hsilent _]; [reflexivity|reflexivity|].
    apply Hsilent. apply (bool_decide_unpack _). vm_compute. exact I.
  - destruct (main_inherited_names sample_sha256 sample_toISOString sample_stringify
                sample_parse sample_home sample_package_dir sample_version sample_host
                ["node"; "install.js"; "__proto__"] "__proto__" sample_down_world)
      as [_ Hthrows]; [reflexivity|reflexivity|].
    apply Hthrows. apply (bool_decide_unpack _). vm_compute. exact I.
Defined.

(** ** Dry runs on sample worlds *)

(** [update_dry_run] applies: the update that replaces the server in a
    real run. *)
Lemma update_dry_run_witness :
  fst (sample_update sample_version dry_run sample_customized_world)
  = Ok (update_done (JString "1.0.0") "1.0.1" ["server"] ["voices"] true)
  ∧ only_asked sample_customized_world
      (snd (sample_update sample_version dry_run sample_customized_world)).
Proof.
  split; [vm_compute; reflexivity|].
  apply (update_dry_run sample_sha256 sample_toISOString sample_stringify sample_parse
           sample_home sample_package_dir sample_version dry_run
           sample_customized_world
           (fst (sample_update sample_version dry_run sample_customized_world))).
  - reflexivity.
  - apply surjective_pairing.
Defined.

(** [uninstall_dry_run] applies. *)
Lemma uninstall_dry_run_witness :
  fst (sample_uninstall dry_run sample_down_world) = Ok (uninstall_done false false true)
  ∧ only_asked sample_down_world (snd (sample_uninstall dry_run sample_down_world)).
Proof.
  split; [vm_compute; reflexivity|].
  apply (uninstall_dry_run sample_sha256 sample_parse sample_home dry_run
           sample_down_world (fst (sample_uninstall dry_run sample_down_world))).
  - reflexivity.
  - apply surjective_pairing.
Defined.

(** [service_dry_run] applies: a dry [restart] of a daemon that is up. *)
Lemma service_dry_run_witness :
  only_asked sample_up_world (snd (sample_restart dry_run sample_up_world))
  ∧ loaded (snd (sample_restart dry_run sample_up_world)) = loaded sample_up_world.
Proof.
  split; [|vm_compute; reflexivity].
  destruct (service_dry_run sample_home dry_run sample_up_world
              (snd (sample_restart dry_run sample_up_world)) eq_refl)
    as (_&_&Hrestart).
  apply (Hrestart (fst (sample_restart dry_run sample_up_world))).
  apply surjective_pairing.
Defined.

(** [file_operations_dry_run] applies: the dry run of a copy whose
    source is missing succeeds, the real run throws. *)
Lemma file_operations_dry_run_witness :
  copyFile "/nowhere/server.ts" sample_server_path true true sample_down_world
  = (Ok true, sample_down_world)
  ∧ copyFile "/nowhere/server.ts" sample_server_path false true sample_down_world
    = (Throw "Source file not found: /nowhere/server.ts", sample_down_world).
Proof.
  destruct (file_operations_dry_run sample_server_path
              "/nowhere/server.ts" sample_server_path true sample_down_world)
    as (_&_&_&Hdry&_&_&_&Hreal).
  split; [exact Hdry|]. apply Hreal. reflexivity.
Defined.

(** [parseArgs_run] applies: [--help] behind a command ends the process,
    and an update with two flags is read as such. *)
Lemma parseArgs_run_witness :
  sample_main ["node"; "install.js"; "uninstall"; "--help"] sample_down_world
  = (Ok 0%Z, sample_down_world)
  ∧ ∃ parsed, parseArgs ["node"; "install.js"; "--dry-run"; "update"; "-f"] = inr parsed
              ∧ options parsed = mkOptions true false false true false false
              ∧ effective parsed = Some "update".
Proof.
  split.
  - exact (proj2 (parseArgs_run sample_sha256 sample_toISOString sample_stringify
                    sample_parse sample_home sample_package_dir sample_version
                    sample_host ["node"; "install.js"; "uninstall"; "--help"]
                    sample_down_world)).
  - exact (parseArgs_run sample_sha256 sample_toISOString sample_stringify
             sample_parse sample_home sample_package_dir sample_version
             sample_host ["node"; "install.js"; "--dry-run"; "update"; "-f"]
             sample_down_world).
Defined.

(** [install_dry_run] applies on a Mac without [~/.claude]: the dry run
    reports a complete installation, and has made the directory. *)
Lemma install_dry_run_witness :
  fst (sample_install dry_run sample_fresh_world)
  = Ok (install_done ["server"; "voices"] "/Users/pai/.claude/pai-voice-server" true)
  ∧ only_probed sample_home sample_fresh_world
      (snd (sample_install dry_run sample_fresh_world))
  ∧ existsSync "/Users/pai/.claude" sample_fresh_world = false
  ∧ existsSync "/Users/pai/.claude" (snd (sample_install dry_run sample_fresh_world))
    = true.
Proof.
  split; [vm_compute; reflexivity|].
  split; [|split; vm_compute; reflexivity].
  apply (install_dry_run sample_sha256 sample_toISOString sample_stringify sample_home
           sample_package_dir sample_version sample_host dry_run sample_fresh_world
           (fst (sample_install dry_run sample_fresh_world))).
  - reflexivity.
  - apply surjective_pairing.
Defined.

(** ** The commands on sample worlds *)

(** [commands_need_installation] applies: nothing is installed, and
    [update] says so; the installation is there, and [install] without
    [--force] refuses. *)
Lemma commands_need_installation_witness :
  sample_update sample_version real_run sample_fresh_world
  = (Ok update_not_installed,
     printed Error "PAI Voice Server is not installed" sample_fresh_world)
  ∧ sample_install real_run sample_down_world
    = (Ok install_already_installed,
       printed Error "PAI Voice Server is already installed" sample_down_world).
Proof.
  split.
  - destruct (commands_need_installation sample_sha256 sample_toISOString
                sample_stringify sample_parse sample_home sample_package_dir
                sample_version sample_host real_run sample_fresh_world)
      as [Habsent _].
    destruct Habsent as [Hupdate _]; [reflexivity|exact Hupdate].
  - destruct (commands_need_installation sample_sha256 sample_toISOString
                sample_stringify sample_parse sample_home sample_package_dir
                sample_version sample_host real_run sample_down_world)
      as [_ Hpresent].
    apply Hpresent; reflexivity.
Defined.

(** [service_commands_keep_files] applies: a real [stop] of a daemon that
    is up, and a [restart] where nothing is installed. *)
Lemma service_commands_keep_files_witness :
  same_fs sample_up_world (snd (sample_stop real_run sample_up_world))
  ∧ sample_restart real_run sample_fresh_world
    = (Ok (restart_stop_failed stop_not_installed),
       printed Error "PAI Voice Server is not installed" sample_fresh_world).
Proof.
  split.
  - destruct (service_commands_keep_files sample_home real_run sample_up_world
                (snd (sample_stop real_run sample_up_world)))
      as ((_&Hstop&_)&_).
    apply (Hstop (fst (sample_stop real_run sample_up_world))).
    apply surjective_pairing.
  - destruct (service_commands_keep_files sample_home real_run sample_fresh_world
                sample_fresh_world) as (_&_&Habsent).
    destruct Habsent as (_&_&Hrestart); [reflexivity|exact Hrestart].
Defined.

(** [verify_verdict] applies: the daemon is down and the agent is not
    loaded, and [verify] reports success, with two warnings. *)
Lemma verify_verdict_witness :
  fst (sample_verify real_run sample_down_world)
  = Ok (verify_report [] ["LaunchAgent not loaded"; "Server not responding"]
          (mkStatus false false true))
  ∧ ∃ issues warnings serviceStatus w',
      sample_verify real_run sample_down_world
      = (Ok (verify_report issues warnings serviceStatus), w')
      ∧ (verify_success (verify_report issues warnings serviceStatus) = true
         ↔ truthy (stored_record sample_parse sample_home sample_down_world) = true
           ∧ existsSync (getLaunchAgentPath sample_home) sample_down_world = true).
Proof.
  split; [vm_compute; reflexivity|].
  destruct (verify_verdict sample_parse sample_home real_run sample_down_world)
    as (_&_&Hinstalled).
  apply Hinstalled. reflexivity.
Defined.

(** [status_report_or_throw] applies: with a record that is not JSON and
    with the record [{}], [status] throws; with the record of version
    1.0.0 it reports that version. *)
Lemma status_report_or_throw_witness :
  (∃ e w', sample_status real_run sample_broken_world = (Throw e, w'))
  ∧ (∃ e w', sample_status real_run sample_empty_record_world = (Throw e, w'))
  ∧ ∃ serviceStatus elevenLabsConfigured customized w',
      sample_status real_run sample_down_world
      = (Ok (status_report (JString "1.0.0") serviceStatus elevenLabsConfigured
               customized), w').
Proof.
  split; [|split].
  - destruct (status_report_or_throw sample_sha256 sample_parse sample_home sample_host
                real_run sample_broken_world) as (_&_&Hstatus).
    apply (Hstatus eq_refl).
  - destruct (status_report_or_throw sample_sha256 sample_parse sample_home sample_host
                real_run sample_empty_record_world) as (_&_&Hstatus).
    apply (Hstatus eq_refl).
  - destruct (status_report_or_throw sample_sha256 sample_parse sample_home sample_host
                real_run sample_down_world) as (_&_&Hstatus).
    apply (Hstatus eq_refl).
Defined.

(** [start_stop_idempotent] applies: [stop] of a daemon that is down. *)
Lemma start_stop_idempotent_witness :
  sample_stop real_run sample_down_world
  = (Ok stop_alreadyStopped,
     printed Warn "Server is not running" (snd (getStatus sample_home sample_down_world)))
  ∧ sample_start real_run sample_up_world
    = (Ok start_alreadyRunning, snd (getStatus sample_home sample_up_world)).
Proof.
  split.
  - destruct (start_stop_idempotent sample_home real_run sample_down_world
                (mkStatus false false true)
                (snd (getStatus sample_home sample_down_world)))
      as (_&_&Hstop); [reflexivity|reflexivity|vm_compute; reflexivity|].
    apply Hstop. reflexivity.
  - destruct (start_stop_idempotent sample_home real_run sample_up_world
                (mkStatus false true true)
                (snd (getStatus sample_home sample_up_world)))
      as (_&Hstart&_); [reflexivity|reflexivity|vm_compute; reflexivity|].
    apply Hstart. reflexivity.
Defined.

(** ** The installation on sample worlds *)


(** [writeJSON_readJSON] applies: the record of version 1.0.0 written
    over the broken one. *)
Lemma writeJSON_readJSON_witness :
  readMetadata sample_parse sample_home
    (snd (writeJSON sample_stringify sample_metadata_path sample_record false
            sample_broken_world))
  = (Ok sample_record,
     snd (writeJSON sample_stringify sample_metadata_path sample_record false
            sample_broken_world)).
Proof.
  destruct (writeJSON_readJSON sample_stringify sample_parse sample_home
              sample_metadata_path sample_record sample_broken_world
              (snd (writeJSON sample_stringify sample_metadata_path sample_record false
                      sample_broken_world)))
    as (_&_&Hrecord).
  - vm_compute. reflexivity.
  - apply not_elem_of_empty.
  - vm_compute. reflexivity.
  - destruct Hrecord as (_&Hread); [reflexivity|exact Hread].
Defined.

(** [uninstall_touches_only] applies: an uninstall with [--backup] and
    [--preserve-logs] of an installation with an edited voice
    configuration. *)
Lemma uninstall_touches_only_witness :
  changed (uninstall_writes sample_home (mkOptions false false false false true true))
    sample_customized_world
    (snd (sample_uninstall (mkOptions false false false false true true)
            sample_customized_world))
  ∧ keeps (getLogPath sample_home) sample_customized_world
      (snd (sample_uninstall (mkOptions false false false false true true)
              sample_customized_world)).
Proof.
  destruct (uninstall_touches_only sample_sha256 sample_parse sample_home
              (mkOptions false false false false true true) sample_customized_world
              (fst (sample_uninstall (mkOptions false false false false true true)
                      sample_customized_world))
              (snd (sample_uninstall (mkOptions false false false false true true)
                      sample_customized_world)))
    as [Hchanged Hlog].
  - apply surjective_pairing.
  - split; [exact Hchanged|]. apply Hlog. reflexivity.
Defined.

(** [uninstall_removes] applies. *)
Lemma uninstall_removes_witness :
  fst (isInstalled sample_home sample_down_world) = Ok true
  ∧ fst (isInstalled sample_home (snd (sample_uninstall real_run sample_down_world)))
    = Ok false.
Proof.
  split; [reflexivity|].
  destruct (uninstall_removes sample_sha256 sample_parse sample_home real_run
              sample_down_world false false false
              (snd (sample_uninstall real_run sample_down_world)))
    as [_ Hgone].
  - reflexivity.
  - apply (bool_decide_unpack _). vm_compute. exact I.
  - vm_compute. reflexivity.
  - exact Hgone.
Defined.

(** [install_installs] applies on a Mac on which nothing is installed:
    afterwards the server is the one shipped. *)
Lemma install_installs_witness :
  fst (isInstalled sample_home sample_fresh_world) = Ok false
  ∧ (∃ sourcePath s t,
       (sourcePath = join (join sample_package_dir "dist") "server.ts"
        ∨ sourcePath = join (dirname sample_package_dir) "server.ts")
       ∧ files sample_fresh_world !! sourcePath = Some s
       ∧ files (snd (sample_install real_run sample_fresh_world))
           !! getServerPath sample_home = Some t
       ∧ f_data t = f_data s)
  ∧ f_data <$> files (snd (sample_install real_run sample_fresh_world))
                 !! getServerPath sample_home
    = Some "server v2".
Proof.
  split; [reflexivity|]. split; [|vm_compute; reflexivity].
  destruct (install_installs sample_sha256 sample_toISOString sample_stringify
              sample_home sample_package_dir sample_version sample_host real_run
              sample_fresh_world ["server"; "voices"]
              "/Users/pai/.claude/pai-voice-server" false
              (snd (sample_install real_run sample_fresh_world)))
    as (_&Hserver&_).
  - reflexivity.
  - vm_compute. reflexivity.
  - exact Hserver.
Defined.

(** The sample package lies outside the sample installation. *)
Lemma sample_package_outside (rest : string) :
  ¬ installation_paths sample_home ("/opt/pai/" +:+ rest).
Proof.
  intros [(c&Hc&Hq)|[Hq|Hq]].
  - apply elem_of_cons in Hc as [->|Hc];
      [|apply elem_of_cons in Hc as [->|Hc]; [|by apply elem_of_nil in Hc]];
      destruct Hq as [Hq|[stamp Hq]]; discriminate Hq.
  - discriminate Hq.
  - discriminate Hq.
Qed.

(** [update_replaces_server] applies: the server the user had patched is
    replaced by the one shipped. *)
Lemma update_replaces_server_witness :
  f_data <$> files (sample_world "server v1, patched" "voices v1") !! sample_server_path
  = Some "server v1, patched"
  ∧ (∃ sourcePath s t,
       (sourcePath = join (join sample_package_dir "dist") "server.ts"
        ∨ sourcePath = join (dirname sample_package_dir) "server.ts")
       ∧ files (sample_world "server v1, patched" "voices v1") !! sourcePath = Some s
       ∧ files (snd (sample_update sample_version real_run
                       (sample_world "server v1, patched" "voices v1")))
           !! getServerPath sample_home = Some t
       ∧ f_data t = f_data s)
  ∧ f_data <$> files (snd (sample_update sample_version real_run
                             (sample_world "server v1, patched" "voices v1")))
                 !! sample_server_path
    = Some "server v2".
Proof.
  split; [vm_compute; reflexivity|]. split; [|vm_compute; reflexivity].
  destruct (update_replaces_server sample_sha256 sample_toISOString sample_stringify
              sample_parse sample_home sample_package_dir sample_version real_run
              (sample_world "server v1, patched" "voices v1")
              (JString "1.0.0") "1.0.1" ["server"; "voices"] [] false
              (snd (sample_update sample_version real_run
                      (sample_world "server v1, patched" "voices v1"))))
    as [_ Hserver].
  - reflexivity.
  - apply (sample_package_outside "setup/dist/server.ts").
  - apply (sample_package_outside "server.ts").
  - vm_compute. reflexivity.
  - exact Hserver.
Defined.

(** [validateNodeVersion_major] applies: Node 20 is accepted, and so is
    a Node whose version holds no number. *)
Lemma validateNodeVersion_major_witness :
  valid (validateNodeVersion sample_host) = bool_decide (18 ≤ 20)%N
  ∧ valid (validateNodeVersion sample_nightly_host) = true.
Proof.
  split.
  - destruct (validateNodeVersion_major sample_host) as [Hmajor _].
    apply (Hmajor 20%N "11.0"). reflexivity.
  - destruct (validateNodeVersion_major sample_nightly_host) as [_ Hnan].
    apply (Hnan "v"%char "n"%char "ext"); [reflexivity..| |]; intros H; discriminate H.
Defined.

(** [installer_touches_only] applies: the update that replaces the server
    and keeps the edited voice configuration. *)
Lemma installer_touches_only_witness :
  changed (installation_paths sample_home) sample_customized_world
    (snd (sample_update sample_version real_run sample_customized_world)).
Proof.
  destruct (installer_touches_only sample_sha256 sample_toISOString sample_stringify
              sample_parse sample_home sample_package_dir sample_version sample_host
              real_run sample_customized_world
              (snd (sample_update sample_version real_run sample_customized_world)))
    as [Hupdate _].
  apply (Hupdate (fst (sample_update sample_version real_run sample_customized_world))).
  apply surjective_pairing.
Defined.

(** [launchagent_without_plist] applies: the plist was deleted, and a dry
    run of [start] fails. *)
Lemma launchagent_without_plist_witness :
  sample_load true sample_no_plist_world
  = (Throw "LaunchAgent plist not found. Run install first.", sample_no_plist_world)
  ∧ fst (sample_start dry_run sample_no_plist_world)
    = Ok (start_failed "LaunchAgent plist not found. Run install first.").
Proof.
  destruct (launchagent_without_plist sample_home true dry_run sample_no_plist_world)
    as (Hload&_&_&Hstart).
  - vm_compute. reflexivity.
  - split; [exact Hload|].
    rewrite (Hstart eq_refl (mkStatus false false false)
               (snd (getStatus sample_home sample_no_plist_world)));
      [reflexivity|vm_compute; reflexivity|by left].
Defined.

(** ** The claims about the command line and about dry runs *)

(** C7 as the specification words it fails: an unknown subcommand does
    not fall back to [status].  On the sample installation [status]
    succeeds, and so does a command line without a subcommand; with the
    unknown subcommand [frobnicate] the exit code is 1, the error is
    printed, and no command has run. *)
Lemma main_unknown_subcommand_fails :
  fst (sample_main ["node"; "install.js"; "status"] sample_down_world) = Ok 0%Z
  ∧ fst (sample_main ["node"; "install.js"] sample_down_world) = Ok 0%Z
  ∧ sample_main ["node"; "install.js"; "frobnicate"] sample_down_world
    = (Ok 1%Z, printed Error "Unknown command: frobnicate" sample_down_world)
  ∧ journal (snd (sample_main ["node"; "install.js"; "frobnicate"] sample_down_world))
    = [].
Proof. repeat split; vm_compute; reflexivity. Qed.

(** [main_subcommand] applies to that command line. *)
Lemma main_subcommand_witness :
  sample_main ["node"; "install.js"; "frobnicate"] sample_down_world
  = (Ok 1%Z, printed Error "Unknown command: frobnicate" sample_down_world).
Proof.
  destruct (main_subcommand sample_sha256 sample_toISOString sample_stringify
              sample_parse sample_home sample_package_dir sample_version sample_host
              ["node"; "install.js"; "frobnicate"] sample_down_world eq_refl)
    as (_&Hword&_).
  destruct (Hword "frobnicate" eq_refl) as [Hunknown _].
  apply Hunknown; apply (bool_decide_unpack _); vm_compute; exact I.
Defined.


